(** * SVG_Generator_Modular: the sanitize / validate / optimize pipeline

    A shallow embedding of
      - [svg_generator/config.py]            (the policy constants),
      - [svg_generator/utils/sanitize.py]    ([Sanitizer]),
      - [svg_generator/utils/compliance.py]  ([ComplianceUtils]),
      - [svg_generator/utils/optimizer.py]   ([Optimizer]),
    together with models of the interpreter facilities these modules call:
    [re] (module [Re]), [float]/[round]/[str] (module [PyFloat]) and the
    element trees of [xml.etree.ElementTree] and [lxml] (module [XML]).

    Conventions.
      - A Python [str] is a Rocq [string], read as the UTF-8 bytes of the
        text; [len(s.encode('utf-8'))] is [String.length].  The character
        classes [\s], [\d] and [str.lower] are the ASCII ones.
      - A literal written with [q] spells the double-quote character as a
        backtick: [q "<path d=`M0 0`/>"] is the text <path d="M0 0"/>.
      - A function that can raise returns a [result]; one that cannot is a
        plain function.
      - Log records are tracked for the two stage entry points whose
        contract mentions them ([sanitize_svg_string], [optimize_svg_string]);
        only the records these two bodies emit themselves are listed. *)

From Stdlib Require Import String Ascii List ZArith NArith Bool Lia Arith.
Import ListNotations.

Open Scope string_scope.

(* ================================================================== *)
(** * Python strings *)
(* ================================================================== *)

Module Str.

Definition chars (s : string) : list ascii := list_ascii_of_string s.
Definition of_chars (l : list ascii) : string := string_of_list_ascii l.

Definition DQ : ascii := "034"%char.
Definition BACKTICK : ascii := "096"%char.

(** Literal helper: every backtick stands for a double quote. *)
Fixpoint q (s : string) : string :=
  match s with
  | EmptyString => EmptyString
  | String c s' => String (if Ascii.eqb c BACKTICK then DQ else c) (q s')
  end.

Definition code (c : ascii) : N := N_of_ascii c.

Definition in_range (lo hi : ascii) (c : ascii) : bool :=
  (code lo <=? code c)%N && (code c <=? code hi)%N.

Definition is_digit (c : ascii) : bool := in_range "0" "9" c.
Definition is_upper (c : ascii) : bool := in_range "A" "Z" c.
Definition is_lower (c : ascii) : bool := in_range "a" "z" c.
Definition is_alpha (c : ascii) : bool := is_upper c || is_lower c.

(** [str.isspace] on ASCII: tab, LF, VT, FF, CR, the four separators
    0x1c-0x1f and the space. *)
Definition is_space (c : ascii) : bool :=
  in_range "009" "013" c || in_range "028" "031" c || Ascii.eqb c " ".

Definition lower_char (c : ascii) : ascii :=
  if is_upper c then ascii_of_N (code c + 32) else c.

(** [s.lower()] *)
Fixpoint lower (s : string) : string :=
  match s with
  | EmptyString => EmptyString
  | String c s' => String (lower_char c) (lower s')
  end.

(** [s.startswith(p)] *)
Fixpoint startswith (p s : string) : bool :=
  match p, s with
  | EmptyString, _ => true
  | String a p', String b s' => Ascii.eqb a b && startswith p' s'
  | String _ _, EmptyString => false
  end.

(** [p in s] *)
Fixpoint contains (p s : string) : bool :=
  startswith p s ||
  match s with
  | EmptyString => false
  | String _ s' => contains p s'
  end.

(** [s.find(p)]: the index of the first occurrence, [None] for -1. *)
Fixpoint find (p s : string) : option nat :=
  if startswith p s then Some 0
  else match s with
       | EmptyString => None
       | String _ s' => option_map S (find p s')
       end.

(** [s[n:]] *)
Fixpoint drop (n : nat) (s : string) : string :=
  match n, s with
  | O, _ => s
  | S n', String _ s' => drop n' s'
  | S _, EmptyString => EmptyString
  end.

Fixpoint lstrip (s : string) : string :=
  match s with
  | String c s' => if is_space c then lstrip s' else s
  | EmptyString => EmptyString
  end.

Fixpoint rstrip (s : string) : string :=
  match s with
  | EmptyString => EmptyString
  | String c s' =>
      match rstrip s' with
      | EmptyString => if is_space c then EmptyString else String c EmptyString
      | r => String c r
      end
  end.

(** [s.strip()] *)
Definition strip (s : string) : string := rstrip (lstrip s).

(** [not s.strip()] *)
Definition is_blank (s : string) : bool :=
  match strip s with EmptyString => true | _ => false end.

(** [s.split(sep, 1)] for a one-character separator: the text before the
    first separator and, when there is one, the text after it. *)
Fixpoint split1 (sep : ascii) (s : string) : string * option string :=
  match s with
  | EmptyString => (EmptyString, None)
  | String c s' =>
      if Ascii.eqb c sep then (EmptyString, Some s')
      else let '(a, b) := split1 sep s' in (String c a, b)
  end.

(** [c in s] for a single character. *)
Fixpoint has_char (c : ascii) (s : string) : bool :=
  match s with
  | EmptyString => false
  | String d s' => Ascii.eqb c d || has_char c s'
  end.

(** Membership of a string in a list of strings ([x in some_set]). *)
Definition mem (x : string) (l : list string) : bool :=
  existsb (String.eqb x) l.

(** [str(n)] for an integer. *)
Definition digit_char (d : Z) : ascii := ascii_of_N (48 + Z.to_N d).

Fixpoint pos_digits (fuel : nat) (n : Z) (acc : string) : string :=
  match fuel with
  | O => acc
  | S fuel' =>
      let acc' := String (digit_char (n mod 10)) acc in
      if (n <? 10)%Z then acc' else pos_digits fuel' (n / 10)%Z acc'
  end.

Definition str_of_nonneg (n : Z) : string :=
  pos_digits (S (Z.to_nat (Z.log2 n))) n EmptyString.

Definition str_of_Z (n : Z) : string :=
  if (n <? 0)%Z then String "-" (str_of_nonneg (- n)) else str_of_nonneg n.

Definition str_of_nat (n : nat) : string := str_of_Z (Z.of_nat n).

(** [int(s)] for a run of decimal digits. *)
Fixpoint digits_value (acc : Z) (s : string) : Z :=
  match s with
  | EmptyString => acc
  | String c s' => digits_value (10 * acc + (Z.of_N (code c) - 48))%Z s'
  end.

(** [len(s.encode('utf-8'))] *)
Definition size_bytes (s : string) : nat := String.length s.

(** [s.replace(old, new)] for a non-empty [old]: the occurrences are
    replaced from the left, without overlap. *)
Fixpoint replace_loop (fuel : nat) (old new s : string) : string :=
  match fuel with
  | O => s
  | S fuel' =>
      if startswith old s
      then new ++ replace_loop fuel' old new (drop (String.length old) s)
      else match s with
           | EmptyString => EmptyString
           | String c s' => String c (replace_loop fuel' old new s')
           end
  end.

Definition replace (old new s : string) : string :=
  replace_loop (S (String.length s)) old new s.

End Str.

Import Str.

(* ================================================================== *)
(** * Exceptions *)
(* ================================================================== *)

Inductive exn : Type := OverflowError | ValueError.

Inductive result (A : Type) : Type :=
| Ok (a : A)
| Raise (e : exn).

Arguments Ok {A} a.
Arguments Raise {A} e.

Definition bind {A B : Type} (x : result A) (f : A -> result B) : result B :=
  match x with
  | Ok a => f a
  | Raise e => Raise e
  end.

Notation "x <- c ;; k" := (bind c (fun x => k))
  (at level 61, c at next level, right associativity).

(* ================================================================== *)
(** * The [re] module: a backtracking matcher *)
(* ================================================================== *)

(** Patterns are written as abstract syntax; the matcher explores
    alternatives in Python's order (leftmost start, first alternative first,
    greedy repetition longest first, lazy repetition shortest first). *)

Module Re.

Inductive regex : Type :=
| Eps                                   (* the empty pattern *)
| Chr (p : ascii -> bool)               (* one character of a class *)
| Seq (r1 r2 : regex)                   (* r1 r2 *)
| Alt (r1 r2 : regex)                   (* r1|r2 *)
| Star (r : regex)                      (* r*   *)
| LazyStar (r : regex)                  (* r*?  *)
| Group (n : nat) (r : regex).          (* the n-th capturing group (r) *)

Definition groups := list (nat * string).
Definition answer := option (string * groups).

(** [s[:n]] *)
Fixpoint take (n : nat) (s : string) : string :=
  match n, s with
  | S n', String c s' => String c (take n' s')
  | _, _ => EmptyString
  end.

(** [run r s g k]: match [r] at the start of [s] and hand the unread text
    and the groups to the continuation [k]; [None] makes the matcher
    backtrack into the latest choice. *)
Fixpoint run (r : regex) (s : string) (g : groups)
         (k : string -> groups -> answer) {struct r} : answer :=
  match r with
  | Eps => k s g
  | Chr p =>
      match s with
      | String c s' => if p c then k s' g else None
      | EmptyString => None
      end
  | Seq r1 r2 => run r1 s g (fun s' g' => run r2 s' g' k)
  | Alt r1 r2 =>
      match run r1 s g k with
      | Some a => Some a
      | None => run r2 s g k
      end
  | Star r' =>
      (fix loop (fuel : nat) (s : string) (g : groups) {struct fuel} : answer :=
         match fuel with
         | O => k s g
         | S fuel' =>
             match run r' s g (fun s' g' => loop fuel' s' g') with
             | Some a => Some a
             | None => k s g
             end
         end) (String.length s) s g
  | LazyStar r' =>
      (fix loop (fuel : nat) (s : string) (g : groups) {struct fuel} : answer :=
         match fuel with
         | O => k s g
         | S fuel' =>
             match k s g with
             | Some a => Some a
             | None => run r' s g (fun s' g' => loop fuel' s' g')
             end
         end) (String.length s) s g
  | Group n r' =>
      run r' s g
          (fun s' g' => k s' ((n, take (String.length s - String.length s') s) :: g'))
  end.

Definition match_at (r : regex) (s : string) : answer :=
  run r s [] (fun s' g => Some (s', g)).

(** The match object: [m.group(0)] and the numbered groups. *)
Record match_obj : Type := MatchObj { whole : string; captured : groups }.

Fixpoint lookup (n : nat) (g : groups) : string :=
  match g with
  | [] => EmptyString
  | (i, v) :: g' => if Nat.eqb i n then v else lookup n g'
  end.

Definition group (m : match_obj) (n : nat) : string :=
  match n with
  | O => whole m
  | _ => lookup n (captured m)
  end.

Definition mk_match (s rest : string) (g : groups) : match_obj :=
  MatchObj (take (String.length s - String.length rest) s) g.

(** [re.search(r, s)] *)
Fixpoint search (r : regex) (s : string) : option match_obj :=
  match match_at r s with
  | Some (rest, g) => Some (mk_match s rest g)
  | None =>
      match s with
      | EmptyString => None
      | String _ s' => search r s'
      end
  end.

(** [re.sub(r, repl, s)] with a callable replacement.  After an empty
    match one character is copied, as the interpreter does. *)
Fixpoint sub_loop (fuel : nat) (r : regex) (repl : match_obj -> string)
         (s : string) : string :=
  match fuel with
  | O => s
  | S fuel' =>
      match match_at r s with
      | Some (rest, g) =>
          let m := mk_match s rest g in
          match whole m with
          | EmptyString =>
              repl m ++
              match s with
              | EmptyString => EmptyString
              | String c s' => String c (sub_loop fuel' r repl s')
              end
          | _ => repl m ++ sub_loop fuel' r repl rest
          end
      | None =>
          match s with
          | EmptyString => EmptyString
          | String c s' => String c (sub_loop fuel' r repl s')
          end
      end
  end.

Definition sub (r : regex) (repl : match_obj -> string) (s : string) : string :=
  sub_loop (S (String.length s)) r repl s.

(** [re.sub(r, text, s)] with a replacement text free of escapes. *)
Definition sub_const (r : regex) (text : string) (s : string) : string :=
  sub r (fun _ => text) s.

(** [re.sub] with a replacement callable that may raise: the first
    exception ends the substitution. *)
Fixpoint sub_exn_loop (fuel : nat) (r : regex) (repl : match_obj -> result string)
         (s : string) : result string :=
  match fuel with
  | O => Ok s
  | S fuel' =>
      match match_at r s with
      | Some (rest, g) =>
          let m := mk_match s rest g in
          out <- repl m ;;
          match whole m with
          | EmptyString =>
              match s with
              | EmptyString => Ok out
              | String c s' =>
                  t <- sub_exn_loop fuel' r repl s' ;; Ok (out ++ String c t)
              end
          | _ => t <- sub_exn_loop fuel' r repl rest ;; Ok (out ++ t)
          end
      | None =>
          match s with
          | EmptyString => Ok EmptyString
          | String c s' => t <- sub_exn_loop fuel' r repl s' ;; Ok (String c t)
          end
      end
  end.

Definition sub_exn (r : regex) (repl : match_obj -> result string) (s : string)
  : result string :=
  sub_exn_loop (S (String.length s)) r repl s.

(** [re.sub(r, text, s, count=1)] with a replacement text free of escapes:
    only the leftmost match is replaced. *)
Fixpoint sub_first (r : regex) (text : string) (s : string) : string :=
  match match_at r s with
  | Some (rest, _) => text ++ rest
  | None =>
      match s with
      | EmptyString => EmptyString
      | String c s' => String c (sub_first r text s')
      end
  end.

(** ** Pattern syntax *)

Fixpoint Lit (s : string) : regex :=
  match s with
  | EmptyString => Eps
  | String c EmptyString => Chr (Ascii.eqb c)
  | String c s' => Seq (Chr (Ascii.eqb c)) (Lit s')
  end.

Definition Plus (r : regex) : regex := Seq r (Star r).      (* r+ *)
Definition Opt (r : regex) : regex := Alt r Eps.            (* r? *)
Definition AnyChar : regex := Chr (fun _ => true).          (* . with DOTALL *)
Definition Space : regex := Chr is_space.                   (* \s *)
Definition Digit : regex := Chr is_digit.                   (* \d, [0-9] *)
Definition NotChar (c : ascii) : regex :=                   (* [^c] *)
  Chr (fun x => negb (Ascii.eqb x c)).
Definition OneOf (cs : string) : regex :=                   (* [cs] *)
  Chr (fun x => has_char x cs).

Fixpoint Seqs (rs : list regex) : regex :=
  match rs with
  | [] => Eps
  | [r] => r
  | r :: rs' => Seq r (Seqs rs')
  end.

Fixpoint Alts (rs : list regex) : regex :=
  match rs with
  | [] => Chr (fun _ => false)
  | [r] => r
  | r :: rs' => Alt r (Alts rs')
  end.

End Re.

(* ================================================================== *)
(** * Python floats: binary64, [float(str)], [round], [int], [str] *)
(* ================================================================== *)

Module PyFloat.

Open Scope Z_scope.

(** A float is a signed zero, a finite [m * 2^e] with [2^52 <= m < 2^53]
    (or [m < 2^52] and [e = -1074] for subnormals), an infinity or a NaN.
    Zero is [Finite s 0 0]. *)
Inductive float : Type :=
| Finite (neg : bool) (m : Z) (e : Z)
| Infinity (neg : bool)
| NaN.

(** Integer division rounding to nearest, ties to even. *)
Definition div_rhe (a b : Z) : Z :=
  let qt := a / b in
  let r := a mod b in
  match 2 * r ?= b with
  | Lt => qt
  | Gt => qt + 1
  | Eq => if Z.even qt then qt else qt + 1
  end.

(** The binary64 value nearest to [n / d] (ties to even), for [0 <= n],
    [0 < d]; values beyond the largest finite float go to infinity. *)
Definition nearest (neg : bool) (n d : Z) : float :=
  if n =? 0 then Finite neg 0 0
  else
    let lg := Z.log2 n - Z.log2 d in
    let ge := if 0 <=? lg then d * 2 ^ lg <=? n else d <=? n * 2 ^ (- lg) in
    let E := if ge then lg else lg - 1 in          (* floor (log2 (n/d)) *)
    let e := Z.max (E - 52) (-1074) in
    let m := if 0 <=? e then div_rhe n (d * 2 ^ e)
             else div_rhe (n * 2 ^ (- e)) d in
    let m' := if m =? 2 ^ 53 then 2 ^ 52 else m in
    let e' := if m =? 2 ^ 53 then e + 1 else e in
    if 971 <? e' then Infinity neg
    else if m' =? 0 then Finite neg 0 0
    else Finite neg m' e'.

Fixpoint all_digits (s : string) : bool :=
  match s with
  | EmptyString => true
  | String c s' => is_digit c && all_digits s'
  end.

(** [float(s)] for the literals the callers' patterns produce: an optional
    sign, digits, an optional point, digits, with a digit somewhere.  Other
    spellings (exponents, [inf], [nan]) never reach it and yield [None]. *)
Definition float_of_str (s : string) : option float :=
  let '(neg, body) :=
    match s with
    | String "-" s' => (true, s')
    | String "+" s' => (false, s')
    | _ => (false, s)
    end in
  let '(ip, fp) := split1 "." body in
  let fp := match fp with Some f => f | None => EmptyString end in
  if all_digits ip && all_digits fp
     && negb (Nat.eqb (String.length ip + String.length fp) 0)
  then Some (nearest neg (digits_value 0 (ip ++ fp))
                     (10 ^ Z.of_nat (String.length fp)))
  else None.

(** The exact value of a finite float as a fraction. *)
Definition num_of (m e : Z) : Z := if 0 <=? e then m * 2 ^ e else m.
Definition den_of (e : Z) : Z := if 0 <=? e then 1 else 2 ^ (- e).

(** [round(x, ndigits)]: the float nearest to the decimal obtained by
    rounding the exact value of [x] to [ndigits] places, ties to even. *)
Definition round (x : float) (ndigits : Z) : result float :=
  match x with
  | Finite neg m e =>
      if 323 <? ndigits then Ok x
      else if ndigits <? -308 then Ok (Finite neg 0 0)
      else
        let vn := num_of m e in
        let vd := den_of e in
        let r :=
          if 0 <=? ndigits
          then nearest neg (div_rhe (vn * 10 ^ ndigits) vd) (10 ^ ndigits)
          else nearest neg (div_rhe vn (vd * 10 ^ (- ndigits)) * 10 ^ (- ndigits)) 1
        in
        match r with
        | Infinity _ => Raise OverflowError
        | _ => Ok r
        end
  | _ => Ok x
  end.

(** [int(x)]: truncation toward zero. *)
Definition int (x : float) : result Z :=
  match x with
  | Finite neg m e =>
      let t := num_of m e / den_of e in
      Ok (if neg then - t else t)
  | Infinity _ => Raise OverflowError
  | NaN => Raise ValueError
  end.

(** [x == n] for a float and an integer. *)
Definition eq_int (x : float) (n : Z) : bool :=
  match x with
  | Finite neg m e =>
      (num_of m e =? den_of e * Z.abs n)
      && ((n =? 0) || Bool.eqb neg (n <? 0))
  | _ => false
  end.

Definition float_eqb (x y : float) : bool :=
  match x, y with
  | Finite s m e, Finite s' m' e' => Bool.eqb s s' && (m =? m') && (e =? e')
  | Infinity s, Infinity s' => Bool.eqb s s'
  | _, _ => false
  end.

(** ** [repr]: the shortest decimal that reads back as the same float *)

(** Compare [vn/vd] with [10^k]. *)
Definition cmp_pow10 (vn vd k : Z) : comparison :=
  if 0 <=? k then vn ?= vd * 10 ^ k else vn * 10 ^ (- k) ?= vd.

Fixpoint raise_decpt (fuel : nat) (vn vd k : Z) : Z :=
  match fuel with
  | O => k
  | S fuel' =>
      match cmp_pow10 vn vd k with
      | Lt => k
      | _ => raise_decpt fuel' vn vd (k + 1)
      end
  end.

Fixpoint lower_decpt (fuel : nat) (vn vd k : Z) : Z :=
  match fuel with
  | O => k
  | S fuel' =>
      match cmp_pow10 vn vd (k - 1) with
      | Lt => lower_decpt fuel' vn vd (k - 1)
      | _ => k
      end
  end.

(** The [decpt] with [10^(decpt-1) <= vn/vd < 10^decpt]. *)
Definition decimal_point (vn vd : Z) : Z :=
  let guess := ((Z.log2 vn - Z.log2 vd) * 30103) / 100000 in
  lower_decpt 4 vn vd (raise_decpt 4 vn vd guess).

(** [c * 10^x] as a fraction. *)
Definition dec_num (c x : Z) : Z := if 0 <=? x then c * 10 ^ x else c.
Definition dec_den (x : Z) : Z := if 0 <=? x then 1 else 10 ^ (- x).

(** The best decimal with [k] significant digits that reads back as the
    float, if there is one: of the two neighbours of the exact value, those
    that round-trip, the nearer first. *)
Definition candidate (m e : Z) (decpt : Z) (k : Z) : option (Z * Z) :=
  let vn := num_of m e in
  let vd := den_of e in
  let x := decpt - k in
  let tn := if 0 <=? x then vn else vn * 10 ^ (- x) in
  let td := if 0 <=? x then vd * 10 ^ x else vd in
  let lo := tn / td in
  let r := tn mod td in
  let ok c := float_eqb (nearest false (dec_num c x) (dec_den x)) (Finite false m e) in
  let lo_first :=
    match 2 * r ?= td with
    | Lt => true
    | Gt => false
    | Eq => Z.even lo
    end in
  if r =? 0 then Some (lo, x)
  else if lo_first
       then (if ok lo then Some (lo, x)
             else if ok (lo + 1) then Some (lo + 1, x) else None)
       else (if ok (lo + 1) then Some (lo + 1, x)
             else if ok lo then Some (lo, x) else None).

Fixpoint shortest (fuel : nat) (m e decpt k : Z) : option (Z * Z) :=
  match fuel with
  | O => None
  | S fuel' =>
      match candidate m e decpt k with
      | Some c => Some c
      | None => shortest fuel' m e decpt (k + 1)
      end
  end.

Fixpoint strip_zeros (fuel : nat) (c x : Z) : Z * Z :=
  match fuel with
  | O => (c, x)
  | S fuel' =>
      if (c mod 10 =? 0) && negb (c =? 0)
      then strip_zeros fuel' (c / 10) (x + 1)
      else (c, x)
  end.

Fixpoint zeros (n : nat) : string :=
  match n with
  | O => EmptyString
  | S n' => String "0" (zeros n')
  end.

(** Layout of the digits [ds] with the decimal point after [decpt] of
    them, as [repr] prints it. *)
Definition layout (ds : string) (decpt : Z) : string :=
  let n := Z.of_nat (String.length ds) in
  if (decpt <=? -4) || (16 <? decpt) then
    let ex := decpt - 1 in
    let mant :=
      match ds with
      | String c EmptyString => ds
      | String c rest => String c (String "." rest)
      | EmptyString => ds
      end in
    let ex_digits := str_of_nonneg (Z.abs ex) in
    let ex_digits := if Z.abs ex <? 10 then String "0" ex_digits else ex_digits in
    (mant ++ "e" ++ (if (ex <? 0)%Z then "-" else "+") ++ ex_digits)%string
  else if decpt <=? 0 then
    ("0." ++ zeros (Z.to_nat (- decpt)) ++ ds)%string
  else if decpt <? n then
    (Re.take (Z.to_nat decpt) ds ++ "." ++ drop (Z.to_nat decpt) ds)%string
  else
    (ds ++ zeros (Z.to_nat (decpt - n)) ++ ".0")%string.

(** [str(x)] for a float. *)
Definition str (x : float) : string :=
  match x with
  | NaN => "nan"
  | Infinity neg => if neg then "-inf" else "inf"
  | Finite neg m e =>
      let sign := if neg then "-" else "" in
      if m =? 0 then (sign ++ "0.0")%string
      else
        let decpt := decimal_point (num_of m e) (den_of e) in
        match shortest 17 m e decpt 1 with
        | Some (c, x) =>
            let '(c', x') := strip_zeros 400 c x in
            let ds := str_of_nonneg c' in
            (sign ++ layout ds (Z.of_nat (String.length ds) + x'))%string
        | None => (sign ++ "?")%string
        end
  end.

(** [x <= y] on floats. *)
Definition float_leb (x y : float) : bool :=
  match x, y with
  | NaN, _ => false
  | _, NaN => false
  | Infinity true, _ => true
  | _, Infinity false => true
  | Infinity false, _ => false
  | _, Infinity true => false
  | Finite s m e, Finite s' m' e' =>
      (if s then -1 else 1) * num_of m e * den_of e'
      <=? (if s' then -1 else 1) * num_of m' e' * den_of e
  end.

(** [a / b] for two integers, [0 <= a], [0 < b]: the float nearest to the
    quotient. *)
Definition true_divide (a b : Z) : float := nearest false a b.

End PyFloat.

(* ================================================================== *)
(** * Element trees ([xml.etree.ElementTree.Element], [lxml.etree._Element]) *)
(* ================================================================== *)

Module XML.

(** An element owns its attributes (an insertion-ordered dict), its text,
    its children and the text that follows it ([tail]).  Names carry their
    namespace in Clark notation, [{uri}local]. *)
Inductive element : Type :=
| Element (tag : string) (attrib : list (string * string)) (text : string)
          (children : list element) (tail : string).

Definition tag (e : element) : string :=
  match e with Element t _ _ _ _ => t end.
Definition attrib (e : element) : list (string * string) :=
  match e with Element _ a _ _ _ => a end.
Definition text (e : element) : string :=
  match e with Element _ _ x _ _ => x end.
Definition children (e : element) : list element :=
  match e with Element _ _ _ c _ => c end.
Definition tail (e : element) : string :=
  match e with Element _ _ _ _ x => x end.

(** [d.get(k)] / [elem.get(k)] *)
Fixpoint get (k : string) (d : list (string * string)) : option string :=
  match d with
  | [] => None
  | (k', v) :: d' => if String.eqb k' k then Some v else get k d'
  end.

(** [del d[k]] *)
Definition del (k : string) (d : list (string * string)) : list (string * string) :=
  filter (fun kv => negb (String.eqb (fst kv) k)) d.

Definition keys (d : list (string * string)) : list string := map fst d.

(** [elem.iter()]: the element and its descendants in document order. *)
Fixpoint iter (e : element) : list element :=
  match e with
  | Element _ _ _ cs _ => e :: flat_map iter cs
  end.

(** The proper descendants in document order (XPath [.//*]). *)
Definition descendants (e : element) : list element :=
  flat_map iter (children e).

End XML.

Import XML.

(* ================================================================== *)
(** * config.py *)
(* ================================================================== *)

Definition MAX_SVG_SIZE_BYTES : nat := 10 * 1024.

Definition ALLOWED_SVG_TAGS : list string :=
  ["svg"; "path"; "circle"; "rect"; "polygon"; "g"; "defs";
   "linearGradient"; "radialGradient"; "stop"; "pattern"].

Definition PROHIBITED_SVG_ATTRIBUTES : list string :=
  ["style"; "filter"; "href"; "class"; "id"].

(* ================================================================== *)
(** * Logging *)
(* ================================================================== *)

Inductive level : Type := DEBUG | INFO | WARNING | ERROR.

(** A record is its level and its message template (the format fields of
    the f-string are left as written). *)
Definition log_record : Type := (level * string)%type.

(* ================================================================== *)
(** * utils/sanitize.py: [Sanitizer] *)
(* ================================================================== *)

Module Sanitizer.

(** The instance state set by [__init__]. *)
Record t : Type := Make {
  allowed_tags : list string;
  prohibited_attrs_global : list string
}.

(** [Sanitizer()] with both arguments left at [None]. *)
Definition default : t := Make ALLOWED_SVG_TAGS PROHIBITED_SVG_ATTRIBUTES.

(** [_strip_namespace_from_tag]: the text after the first closing brace,
    when there is one. *)
Definition _strip_namespace_from_tag (tag : string) : string :=
  if has_char "}" tag then
    match snd (split1 "}" tag) with
    | Some local => local
    | None => tag
    end
  else tag.

(** The tags on which [id] is tolerated. *)
Definition is_def_child (tag_name : string) : bool :=
  mem tag_name ["linearGradient"; "radialGradient"; "pattern"; "stop"].

(** One turn of the attribute loop: [attrib] is [element.attrib] as mutated
    so far, [attr_name_raw] the key drawn from the copy. *)
Definition sanitize_attr (self : t) (tag_name : string)
           (attrib : list (string * string)) (attr_name_raw : string)
  : list (string * string) :=
  let attr_name := _strip_namespace_from_tag attr_name_raw in
  if mem attr_name (prohibited_attrs_global self)
     && negb (String.eqb attr_name "id" && is_def_child tag_name)
  then del attr_name_raw attrib
  else if has_char ":" attr_name_raw then
    let prefix := fst (split1 ":" attr_name_raw) in
    if String.eqb prefix "xlink" && contains "href" attr_name_raw
    then del attr_name_raw attrib
    else attrib
  else attrib.

(** [_sanitize_element]: [None] when the element is to be removed,
    otherwise the element with its attributes and children cleaned. *)
Fixpoint _sanitize_element (self : t) (elem : element) : option element :=
  match elem with
  | Element original_tag attrib text children tail =>
      let tag_name := _strip_namespace_from_tag original_tag in
      if negb (mem tag_name (allowed_tags self)) then None
      else
        let current_attrs := attrib in
        let attrib' :=
          fold_left (sanitize_attr self tag_name) (keys current_attrs) attrib in
        let children' :=
          (fix each (cs : list XML.element) : list XML.element :=
             match cs with
             | [] => []
             | child :: cs' =>
                 match _sanitize_element self child with
                 | None => each cs'                  (* marked, then removed *)
                 | Some sanitized_child => sanitized_child :: each cs'
                 end
             end) children in
        Some (Element original_tag attrib' text children' tail)
  end.

(** The placeholder returned when the root itself is disallowed. *)
Definition ROOT_REMOVED_SVG : string :=
  q "<svg xmlns=`http://www.w3.org/2000/svg` width=`100` height=`100`><text>Error: Root SVG removed</text></svg>".

(** The record logged when the parser raises. *)
Definition PARSE_ERROR_RECORD : log_record :=
  (ERROR, "XML ParseError during sanitization: {e}. Returning original SVG string.").

Section SanitizeString.

(** [ET.fromstring]; [None] stands for a raised [ParseError]. *)
Variable fromstring : string -> option element.
(** [ET.tostring(root, encoding="unicode", method="xml")] *)
Variable tostring : element -> string.

(** The part of the text handed to the parser: what follows the XML
    declaration when the text starts with one. *)
Definition svg_content_part (svg_string : string) : string :=
  if startswith "<?xml" svg_string then
    match find "?>" svg_string with
    | Some end_of_prolog => drop (end_of_prolog + 2) svg_string
    | None => svg_string
    end
  else svg_string.

(** [sanitize_svg_string], with the records it logs. *)
Definition sanitize_svg_string_run (self : t) (svg_string : string)
  : string * list log_record :=
  let l0 := [(INFO, "Starting SVG sanitization...")] in
  if is_blank svg_string then
    ("", (l0 ++ [(WARNING, "Empty SVG string provided for sanitization.")])%list)
  else
    let content := svg_content_part svg_string in
    if is_blank content then
      (svg_string,
       (l0 ++ [(WARNING, "SVG string contains only XML prolog or is empty after prolog removal.")])%list)
    else
      match fromstring content with
      | None => (svg_string, (l0 ++ [PARSE_ERROR_RECORD])%list)
      | Some root =>
          match _sanitize_element self root with
          | None =>
              (ROOT_REMOVED_SVG,
               (l0 ++ [(ERROR, "Root SVG element was disallowed during sanitization. Returning empty SVG.")])%list)
          | Some sanitized_root =>
              (tostring sanitized_root,
               (l0 ++ [(INFO, "SVG sanitization complete.")])%list)
          end
      end.

Definition sanitize_svg_string (self : t) (svg_string : string) : string :=
  fst (sanitize_svg_string_run self svg_string).

End SanitizeString.

(** ** The static text utilities *)

Import Re.

(** [remove_metadata] *)
Definition remove_metadata (svg_str : string) : string :=
  let svg_str :=
    sub_const (Seqs [Lit "<metadata>"; LazyStar AnyChar; Lit "</metadata>"])
              "" svg_str in
  let svg_str :=
    sub_const (Seqs [Lit "<!--"; LazyStar AnyChar; Lit "-->"]) "" svg_str in
  let editors := Alts [Lit "inkscape"; Lit "sodipodi"; Lit "dc"; Lit "cc"; Lit "rdf"] in
  let svg_str :=
    sub_const (Seqs [Plus Space; Lit "xmlns:"; Group 1 editors; Lit (q "=`");
                     Plus (NotChar DQ); Lit (q "`")])
              "" svg_str in
  let svg_str :=
    sub_const (Seqs [Plus Space; Group 1 editors; Lit ":";
                     Plus (Chr (fun c => is_lower c || Ascii.eqb c "-"));
                     Lit (q "=`"); Plus (NotChar DQ); Lit (q "`")])
              "" svg_str in
  svg_str.

(** [minify_svg] *)
Definition minify_svg (svg_str : string) : string :=
  let svg_str := sub_const (Plus Space) " " svg_str in
  let svg_str := sub_const (Seqs [Lit ">"; Plus Space; Lit "<"]) "><" svg_str in
  let svg_str := sub_const (Seqs [Lit (q "`"); Plus Space]) (q "`") svg_str in
  let svg_str := sub_const (Seqs [Plus Space; Lit (q "=`")]) (q "=`") svg_str in
  let svg_str :=
    sub_const (Seqs [Plus Space; Lit (q "version=`"); Plus (NotChar DQ); Lit (q "`")])
              "" svg_str in
  let svg_str :=
    sub_const (Lit (q "stroke-width=`1`")) (q "stroke-width=`1`") svg_str in
  strip svg_str.

(** The inner callback of [simplify_paths]: one numeric token of the path
    data, rounded and printed. *)
Definition replace_number (precision : Z) (num_match : match_obj) : result string :=
  match PyFloat.float_of_str (group num_match 0) with
  | None => Raise ValueError
  | Some num =>
      rounded <- PyFloat.round num precision ;;
      i <- PyFloat.int rounded ;;
      if PyFloat.eq_int rounded i
      then Ok (str_of_Z i)
      else Ok (PyFloat.str rounded)
  end.

(** The pattern of a number in path data: [[-+]?[0-9]*\.?[0-9]+] *)
Definition NUMBER : regex :=
  Seqs [Opt (OneOf "-+"); Star Digit; Opt (Lit "."); Plus Digit].

(** The pattern of a path-data attribute, d=`([^`]+)` *)
Definition D_ATTR : regex :=
  Seqs [Lit (q "d=`"); Group 1 (Plus (NotChar DQ)); Lit (q "`")].

Definition round_numbers (precision : Z) (m : match_obj) : result string :=
  let path_data := group m 1 in
  t <- sub_exn NUMBER (replace_number precision) path_data ;;
  Ok (q "d=`" ++ t ++ q "`").

(** [simplify_paths] *)
Definition simplify_paths (svg_str : string) (precision : Z) : result string :=
  sub_exn D_ATTR (round_numbers precision) svg_str.

(** The default of [max_size_kb], 10.0. *)
Definition DEFAULT_MAX_SIZE_KB : PyFloat.float :=
  PyFloat.Finite false 5629499534213120 (-49).

(** [validate_size] *)
Definition validate_size (svg_str : string) (max_size_kb : PyFloat.float)
  : bool * PyFloat.float :=
  let size_bytes := Z.of_nat (size_bytes svg_str) in
  let size_kb := PyFloat.true_divide size_bytes 1024 in
  (PyFloat.float_leb size_kb max_size_kb, size_kb).

End Sanitizer.

(* ================================================================== *)
(** * utils/compliance.py: [ComplianceUtils] *)
(* ================================================================== *)

Module ComplianceUtils.

Import Re.

Definition SVG_DEFS : string := "{http://www.w3.org/2000/svg}defs".
Definition XLINK_HREF : string := "{http://www.w3.org/1999/xlink}href".

Definition has_attr (k : string) (e : element) : bool :=
  match get k (attrib e) with Some _ => true | None => false end.

(** XPath [local-name()] of an attribute key in Clark notation. *)
Definition local_name (k : string) : string :=
  match k with
  | String "{" _ =>
      match snd (split1 "}" k) with Some l => l | None => k end
  | _ => k
  end.

(** [tree.xpath("//svg:defs", namespaces=...)] *)
Definition xpath_defs (tree : element) : list element :=
  filter (fun e => String.eqb (tag e) SVG_DEFS) (iter tree).

(** [defs.xpath(".//*[@id]")] *)
Definition xpath_with_id (defs : element) : list element :=
  filter (has_attr "id") (descendants defs).

(** [tree.xpath("//*[@attr]")] *)
Definition xpath_with_attr (attr : string) (tree : element) : list element :=
  filter (has_attr attr) (iter tree).

(** [tree.xpath("//*[@href or @*[local-name()='href']]")] *)
Definition xpath_with_href (tree : element) : list element :=
  filter (fun e => has_attr "href" e
                   || existsb (fun k => String.eqb (local_name k) "href")
                              (keys (attrib e)))
         (iter tree).

Definition id_of (e : element) : string :=
  match get "id" (attrib e) with Some i => i | None => "" end.

(** The ids collected from every [defs] section. *)
Definition collect_defined_ids (defs_elements : list element) : list string :=
  flat_map (fun defs => map id_of (xpath_with_id defs)) defs_elements.

Definition ref_attrs : list string :=
  ["fill"; "stroke"; "filter"; "clip-path"; "mask"].

(** The pattern [url\(#([^)]+)\)] *)
Definition URL_REF : regex :=
  Seqs [Lit "url(#"; Group 1 (Plus (NotChar ")")); Lit ")"].

(** The id (at most one) that an attribute value contributes. *)
Definition url_ref_of (attr_value : string) : list string :=
  if contains "url(#" attr_value then
    match search URL_REF attr_value with
    | Some m => [group m 1]
    | None => []
    end
  else [].

Definition url_refs (tree : element) : list string :=
  flat_map
    (fun attr =>
       flat_map
         (fun e => url_ref_of (match get attr (attrib e) with
                               | Some v => v
                               | None => ""
                               end))
         (xpath_with_attr attr tree))
    ref_attrs.

(** [element.get('href') or element.get(XLINK_HREF, '')], then the
    fragment test. *)
Definition href_ref_of (e : element) : list string :=
  let href :=
    match get "href" (attrib e) with
    | Some (String c h) => String c h
    | _ => match get XLINK_HREF (attrib e) with Some h => h | None => "" end
    end in
  if negb (String.eqb href "") && startswith "#" href then [drop 1 href] else [].

Definition href_refs (tree : element) : list string :=
  flat_map href_ref_of (xpath_with_href tree).

(** [used_ids] *)
Definition collect_used_ids (tree : element) : list string :=
  (url_refs tree ++ href_refs tree)%list.

(** [defined_ids - used_ids] *)
Definition difference (a b : list string) : list string :=
  filter (fun i => negb (mem i b)) a.

Definition is_unused (unused_ids : list string) (e : element) : bool :=
  match get "id" (attrib e) with
  | Some i => mem i unused_ids
  | None => false
  end.

(** The removal loops.  Every element that lies below some [svg:defs] and
    carries an unused id is detached from its parent, with its subtree and
    its tail; removals inside a subtree that is already detached do not
    show in the document.  [under_defs] records whether an ancestor is a
    [svg:defs]. *)
Fixpoint remove_unused (unused_ids : list string) (under_defs : bool)
         (e : element) : element :=
  match e with
  | Element t a x cs tl =>
      let inside := under_defs || String.eqb t SVG_DEFS in
      Element t a x
        ((fix each (cs : list element) : list element :=
            match cs with
            | [] => []
            | c :: cs' =>
                if inside && is_unused unused_ids c then each cs'
                else remove_unused unused_ids inside c :: each cs'
            end) cs)
        tl
  end.

(** The body of [remove_unused_defs] on the parsed tree: [None] for the
    three early returns that hand back the input text, otherwise the
    pruned tree that is serialised. *)
Definition remove_unused_defs_tree (tree : element) : option element :=
  let defs_elements := xpath_defs tree in
  match defs_elements with
  | [] => None
  | _ :: _ =>
      let defined_ids := collect_defined_ids defs_elements in
      match defined_ids with
      | [] => None
      | _ :: _ =>
          let used_ids := collect_used_ids tree in
          let unused_ids := difference defined_ids used_ids in
          match unused_ids with
          | [] => None
          | _ :: _ => Some (remove_unused unused_ids false tree)
          end
      end
  end.

Section RemoveUnusedDefs.

(** [lxml_etree.fromstring(svg_str.encode('utf-8'), parser)] with
    [remove_blank_text=True]; [None] stands for [XMLSyntaxError]. *)
Variable fromstring : string -> option element.
(** [lxml_etree.tostring(tree, encoding='utf-8', pretty_print=False,
    xml_declaration=True).decode('utf-8')] *)
Variable tostring : element -> string.

(** [remove_unused_defs] *)
Definition remove_unused_defs (svg_str : string) : string :=
  match fromstring svg_str with
  | None => svg_str
  | Some tree =>
      match remove_unused_defs_tree tree with
      | None => svg_str
      | Some cleaned => tostring cleaned
      end
  end.

End RemoveUnusedDefs.

(** ** [check_competition_compliance] *)

Record report : Type := Report { is_valid : bool; issues : list string }.

(** [results["is_valid"] = False; results["issues"].append(msg)] *)
Definition flag (results : report) (msg : string) : report :=
  Report false (issues results ++ [msg])%list.

Definition animation_tags : list string :=
  ["<animate"; "<animatetransform"; "<animatemotion"; "<set"].

Definition EXTERNAL_IMAGE_ISSUE : string :=
  "SVG contains external image references (data:, http:, or image files)".

Definition check_competition_compliance (svg_str : string) (max_size_bytes : Z)
  : report :=
  let results := Report true [] in
  let size := Z.of_nat (size_bytes svg_str) in
  let results :=
    if (max_size_bytes <? size)%Z then
      flag results
           ("SVG size (" ++ str_of_Z size ++ " bytes) exceeds maximum allowed size ("
            ++ str_of_Z max_size_bytes ++ " bytes)")
    else results in
  let results :=
    if contains "<script" (lower svg_str) then
      flag results "SVG contains prohibited <script> elements"
    else results in
  let results :=
    if contains "xlink:href" svg_str
       && (contains "data:" svg_str
           || contains "http:" svg_str
           || contains "https:" svg_str
           || contains ".jpg" (lower svg_str)
           || contains ".png" (lower svg_str)
           || contains ".jpeg" (lower svg_str))
    then flag results EXTERNAL_IMAGE_ISSUE
    else results in
  fold_left
    (fun results tag =>
       if contains tag (lower svg_str) then
         flag results ("SVG contains animation elements (" ++ tag ++ ")")
       else results)
    animation_tags results.

(** ** [limit_decimal_precision] *)

(** The pattern [-?\d+\.\d+] *)
Definition DECIMAL : regex :=
  Seqs [Opt (Lit "-"); Plus Digit; Lit "."; Plus Digit].

(** [[a-zA-Z\-:]] *)
Definition attr_name_char (c : ascii) : bool :=
  is_alpha c || Ascii.eqb c "-" || Ascii.eqb c ":".

(** The attribute pattern: group 1 is a run of [[a-zA-Z\-:]], then an equals
    sign and a double quote, group 2 is a quote-free value holding at least
    one [\d+\.\d+], then the closing double quote. *)
Definition NUMERIC_ATTR : regex :=
  Seqs [Group 1 (Plus (Chr attr_name_char)); Lit (q "=`");
        Group 2 (Seqs [Star (NotChar DQ); Plus Digit; Lit "."; Plus Digit;
                       Star (NotChar DQ)]);
        Lit (q "`")].

(** [round_number] (and its twin [round_path_number]). *)
Definition round_number (precision : Z) (num_match : match_obj) : result string :=
  let num_str := group num_match 0 in
  match PyFloat.float_of_str num_str with
  | None => Ok num_str                              (* except ValueError *)
  | Some num =>
      match PyFloat.int num with
      | Raise ValueError => Ok num_str              (* except ValueError *)
      | Raise e => Raise e
      | Ok i =>
          if PyFloat.eq_int num i then Ok (str_of_Z i)
          else rounded <- PyFloat.round num precision ;;
               Ok (PyFloat.str rounded)
      end
  end.

Definition opacity_attrs : list string :=
  ["opacity"; "fill-opacity"; "stroke-opacity"].

(** [replace_numbers] *)
Definition replace_numbers (precision : Z) (m : match_obj) : result string :=
  let attr_name := group m 1 in
  let attr_val := group m 2 in
  if mem (lower attr_name) opacity_attrs then
    Ok (attr_name ++ q "=`" ++ attr_val ++ q "`")
  else
    processed <- sub_exn DECIMAL (round_number precision) attr_val ;;
    Ok (attr_name ++ q "=`" ++ processed ++ q "`").

(** [process_path_data] *)
Definition process_path_data (precision : Z) (m : match_obj) : result string :=
  let d_attr := group m 1 in
  processed <- sub_exn DECIMAL (round_number precision) d_attr ;;
  Ok (q "d=`" ++ processed ++ q "`").

Definition limit_decimal_precision (svg_str : string) (precision : Z)
  : result string :=
  result <- sub_exn NUMERIC_ATTR (replace_numbers precision) svg_str ;;
  sub_exn Sanitizer.D_ATTR (process_path_data precision) result.

(** ** [ensure_viewbox] *)

Definition is_quote (c : ascii) : bool := Ascii.eqb c DQ || Ascii.eqb c "'".

(** The class of a double or single quote, and its complement. *)
Definition Quote : regex := Chr is_quote.
Definition NotQuote : regex := Chr (fun c => negb (is_quote c)).

(** A length: digits, an optional fraction, an optional [px]. *)
Definition LENGTH : regex :=
  Seqs [Plus Digit; Opt (Seq (Lit ".") (Plus Digit)); Opt (Lit "px")].

(** An [svg] start tag that carries a viewBox attribute. *)
Definition VIEWBOX_PATTERN : regex :=
  Seqs [Lit "<svg"; Star (NotChar ">"); Lit "viewBox="; Quote; Star NotQuote;
        Quote; Star (NotChar ">"); Lit ">"].

(** An [svg] start tag with a quoted length in the attribute [name]. *)
Definition SIZE_ATTR (name : string) : regex :=
  Seqs [Lit "<svg"; Star (NotChar ">"); Lit (name ++ "="); Quote;
        Group 1 LENGTH; Quote; Star (NotChar ">"); Lit ">"].

Definition viewbox_attr (width height : string) : string :=
  q "viewBox=`0 0 " ++ width ++ " " ++ height ++ q "`".

(** [ensure_viewbox]; the two records it logs are left out. *)
Definition ensure_viewbox (svg_str : string) : string :=
  match search VIEWBOX_PATTERN svg_str with
  | Some _ => svg_str
  | None =>
      match search (SIZE_ATTR "width") svg_str,
            search (SIZE_ATTR "height") svg_str with
      | Some width_match, Some height_match =>
          let width := replace "px" "" (group width_match 1) in
          let height := replace "px" "" (group height_match 1) in
          let viewbox := viewbox_attr width height in
          sub_first (Lit "<svg") ("<svg " ++ viewbox) svg_str
      | _, _ => svg_str
      end
  end.

End ComplianceUtils.

(* ================================================================== *)
(** * utils/optimizer.py: [Optimizer] *)
(* ================================================================== *)

Module Optimizer.

Import Re.

(** What a call of [scourString] can do. *)
Inductive scour_outcome : Type :=
| ScourString (s : string)    (* the optimised text *)
| ScourNone                   (* it returned None *)
| ScourRaises.                (* it raised *)

(** ['{:02x}'.format(n)] *)
Definition hex_digit (d : Z) : ascii :=
  if (d <? 10)%Z then ascii_of_N (48 + Z.to_N d) else ascii_of_N (87 + Z.to_N d).

Fixpoint hex_digits (fuel : nat) (n : Z) (acc : string) : string :=
  match fuel with
  | O => acc
  | S fuel' =>
      let acc' := String (hex_digit (n mod 16)) acc in
      if (n <? 16)%Z then acc' else hex_digits fuel' (n / 16)%Z acc'
  end.

Definition format_02x (n : Z) : string :=
  let h := hex_digits (S (Z.to_nat (Z.log2 n))) n EmptyString in
  match h with
  | String c EmptyString => String "0" h
  | _ => h
  end.

(** The pattern [rgb\((\d+),\s*(\d+),\s*(\d+)\)] *)
Definition RGB : regex :=
  Seqs [Lit "rgb("; Group 1 (Plus Digit); Lit ","; Star Space;
        Group 2 (Plus Digit); Lit ","; Star Space;
        Group 3 (Plus Digit); Lit ")"].

Definition rgb_to_hex (m : match_obj) : string :=
  "#" ++ format_02x (digits_value 0 (group m 1))
      ++ format_02x (digits_value 0 (group m 2))
      ++ format_02x (digits_value 0 (group m 3)).

(** The default-valued attributes stripped by the fallback. *)
Definition default_attrs : list (regex * string) :=
  [ (Seqs [Plus Space; Lit (q "opacity=`1`")], "");
    (Seqs [Plus Space; Lit (q "fill-opacity=`1`")], "");
    (Seqs [Plus Space; Lit (q "stroke-opacity=`1`")], "");
    (Seqs [Plus Space; Lit (q "stroke-linecap=`butt`")], "");
    (Seqs [Plus Space; Lit (q "stroke-linejoin=`miter`")], "") ].

Section WithScour.

(** The Scour collaborator: [None] when the import failed
    ([SCOUR_AVAILABLE = False]); otherwise [scourString], told whether it
    runs with the aggressive options. *)
Variable scour : option (bool -> string -> scour_outcome).

Definition SCOUR_AVAILABLE : bool :=
  match scour with Some _ => true | None => false end.

(** [_apply_scour] *)
Definition _apply_scour (svg_string : string) : string :=
  match scour with
  | None => svg_string
  | Some scourString =>
      match scourString false svg_string with
      | ScourString optimized_svg => optimized_svg
      | ScourNone => svg_string
      | ScourRaises => svg_string
      end
  end.

(** [_apply_fallback_optimization] *)
Definition _apply_fallback_optimization (svg_string : string) : result string :=
  let result := Sanitizer.remove_metadata svg_string in
  let result := Sanitizer.minify_svg result in
  result <- Sanitizer.simplify_paths result 1 ;;
  Ok (fold_left (fun result pr => sub_const (fst pr) (snd pr) result)
                default_attrs result).

(** The sanitizer-based part of [_apply_aggressive_optimization]. *)
Definition aggressive_fallback (svg_string : string) : result string :=
  let result := Sanitizer.remove_metadata svg_string in
  let result := Sanitizer.minify_svg result in
  result <- Sanitizer.simplify_paths result 0 ;;
  let result := sub_const (Plus Space) " " result in
  let result := sub_const (Seqs [Lit ">"; Plus Space; Lit "<"]) "><" result in
  let result :=
    sub_const (Seqs [Lit "<?xml"; Plus (NotChar ">"); Lit "?>"]) "" result in
  Ok (sub RGB rgb_to_hex result).

(** [_apply_aggressive_optimization] *)
Definition _apply_aggressive_optimization (svg_string : string) : result string :=
  match scour with
  | Some scourString =>
      match scourString true svg_string with
      | ScourString result => Ok result
      | ScourNone => aggressive_fallback svg_string
      | ScourRaises => aggressive_fallback svg_string
      end
  | None => aggressive_fallback svg_string
  end.

(** The first tier: Scour when it was imported, the fallback otherwise. *)
Definition initial_optimization (svg_string : string) : result string :=
  if SCOUR_AVAILABLE then Ok (_apply_scour svg_string)
  else _apply_fallback_optimization svg_string.

Definition CRITICAL_RECORD : log_record :=
  (ERROR, "CRITICAL: SVG size ({current_size_bytes} bytes) still exceeds max allowed size ({MAX_SVG_SIZE_BYTES} bytes) after all optimization attempts.").

(** [optimize_svg_string], with the records it logs. *)
Definition optimize_svg_string_run (svg_string : string)
  : result (string * list log_record) :=
  let l0 := [(INFO, "Starting SVG optimization process...")] in
  if String.eqb svg_string "" then
    Ok ("", (l0 ++ [(WARNING, "Empty SVG string provided for optimization.")])%list)
  else
    current_svg <- initial_optimization svg_string ;;
    let current_size_bytes := size_bytes current_svg in
    let l1 := (l0 ++ [(DEBUG, "Size after initial optimization: {current_size_bytes} bytes.")])%list in
    if Nat.ltb MAX_SVG_SIZE_BYTES current_size_bytes then
      let l2 := (l1 ++ [(WARNING, "SVG size ({current_size_bytes} bytes) exceeds max allowed size ({MAX_SVG_SIZE_BYTES} bytes) after initial optimization. Attempting aggressive optimization.")])%list in
      current_svg <- _apply_aggressive_optimization current_svg ;;
      let current_size_bytes := size_bytes current_svg in
      let l3 := (l2 ++ [(INFO, "Size after aggressive optimization: {current_size_bytes} bytes.")])%list in
      let l4 := if Nat.ltb MAX_SVG_SIZE_BYTES current_size_bytes
                then (l3 ++ [CRITICAL_RECORD])%list else l3 in
      Ok (current_svg,
          (l4 ++ [(INFO, "Optimization complete. Final SVG size: {current_size_bytes} bytes.")])%list)
    else
      Ok (current_svg,
          (l1 ++ [(INFO, "Optimization complete. Final SVG size: {current_size_bytes} bytes.")])%list).

Definition optimize_svg_string (svg_string : string) : result string :=
  r <- optimize_svg_string_run svg_string ;; Ok (fst r).

End WithScour.

End Optimizer.

(* ================================================================== *)
(** * cli.py: steps 5 and 6 of [main] *)
(* ================================================================== *)

Module Cli.

Section Steps.

Variable fromstring : string -> option element.
Variable tostring : element -> string.
Variable scour : option (bool -> string -> Optimizer.scour_outcome).

(** The text written to the output file for the raw SVG content of step 4:
    the content is sanitized, then optimized; an exception of the
    optimizer is caught and the sanitized text is written instead. *)
Definition main_output (raw_svg_content : string) : string :=
  let sanitized_svg_content :=
    Sanitizer.sanitize_svg_string fromstring tostring Sanitizer.default
                                  raw_svg_content in
  match Optimizer.optimize_svg_string scour sanitized_svg_content with
  | Ok optimized_svg_content => optimized_svg_content
  | Raise _ => sanitized_svg_content
  end.

End Steps.

End Cli.

(* ================================================================== *)
(** * A reference reader and writer for element trees *)
(* ================================================================== *)

(** The parsers and serialisers of [xml.etree.ElementTree] and [lxml] are
    parameters of the stage functions above.  This module gives concrete
    ones for a subset of XML, used to run the stages on example documents:
    an optional XML declaration, elements, quoted attributes, character
    data, and namespace declarations ([xmlns], [xmlns:p]).  Comments,
    processing instructions, CDATA sections, DOCTYPEs and entity references
    are outside the subset and are rejected. *)

Module MiniXML.

Fixpoint span (p : ascii -> bool) (s : string) : string * string :=
  match s with
  | String c s' =>
      if p c then let '(a, b) := span p s' in (String c a, b)
      else (EmptyString, s)
  | EmptyString => (EmptyString, EmptyString)
  end.

(** XML white space: space, tab, LF, CR. *)
Definition is_xml_space (c : ascii) : bool :=
  Ascii.eqb c " " || Ascii.eqb c "009" || Ascii.eqb c "010" || Ascii.eqb c "013".

Definition skip_ws (s : string) : string := snd (span is_xml_space s).

Definition is_name_start (c : ascii) : bool :=
  is_alpha c || Ascii.eqb c "_" || Ascii.eqb c ":".

Definition is_name_char (c : ascii) : bool :=
  is_name_start c || is_digit c || Ascii.eqb c "-" || Ascii.eqb c ".".

Definition parse_name (s : string) : option (string * string) :=
  match s with
  | String c _ =>
      if is_name_start c then Some (span is_name_char s) else None
  | EmptyString => None
  end.

(** The attributes of a start tag, up to its closing bracket; the flag
    tells whether the tag was self-closing. *)
Fixpoint parse_attrs (fuel : nat) (s : string) (acc : list (string * string))
  : option (list (string * string) * bool * string) :=
  match fuel with
  | O => None
  | S fuel' =>
      let '(ws, s1) := span is_xml_space s in
      match s1 with
      | String ">" rest => Some (rev acc, false, rest)
      | String "/" (String ">" rest) => Some (rev acc, true, rest)
      | _ =>
          match ws, parse_name s1 with
          | String _ _, Some (name, s2) =>
              match skip_ws s2 with
              | String "=" s3 =>
                  match skip_ws s3 with
                  | String qc s4 =>
                      if Ascii.eqb qc DQ || Ascii.eqb qc "'" then
                        let '(v, s5) := span (fun c => negb (Ascii.eqb c qc)) s4 in
                        match s5 with
                        | String _ s6 =>
                            if has_char "<" v || has_char "&" v
                               || existsb (fun kv => String.eqb (fst kv) name) acc
                            then None
                            else parse_attrs fuel' s6 ((name, v) :: acc)
                        | EmptyString => None
                        end
                      else None
                  | EmptyString => None
                  end
              | _ => None
              end
          | _, _ => None
          end
      end
  end.

Definition set_tail (tl : string) (e : element) : element :=
  match e with Element t a x cs _ => Element t a x cs tl end.

(** [parse_element] reads one element; [parse_content] reads the content
    of an element up to and including the two characters that open its end
    tag, returning the leading text and the children with their tails. *)
Fixpoint parse_element (fuel : nat) (s : string) : option (element * string) :=
  match fuel with
  | O => None
  | S fuel' =>
      match s with
      | String "<" s1 =>
          match parse_name s1 with
          | Some (name, s2) =>
              match parse_attrs (S (String.length s2)) s2 [] with
              | Some (attrs, true, s3) => Some (Element name attrs "" [] "", s3)
              | Some (attrs, false, s3) =>
                  match parse_content fuel' s3 with
                  | Some (txt, cs, s4) =>
                      match parse_name s4 with
                      | Some (cname, s5) =>
                          match skip_ws s5 with
                          | String ">" s6 =>
                              if String.eqb cname name
                              then Some (Element name attrs txt cs "", s6)
                              else None
                          | _ => None
                          end
                      | None => None
                      end
                  | None => None
                  end
              | None => None
              end
          | None => None
          end
      | _ => None
      end
  end
with parse_content (fuel : nat) (s : string)
  : option (string * list element * string) :=
  match fuel with
  | O => None
  | S fuel' =>
      let '(txt, s1) := span (fun c => negb (Ascii.eqb c "<")) s in
      if has_char "&" txt then None
      else
        match s1 with
        | String "<" (String "/" rest) => Some (txt, [], rest)
        | String "<" _ =>
            match parse_element fuel' s1 with
            | Some (child, s2) =>
                match parse_content fuel' s2 with
                | Some (tl, cs, s3) => Some (txt, set_tail tl child :: cs, s3)
                | None => None
                end
            | None => None
            end
        | _ => None
        end
  end.

(** ** Namespaces *)

Definition env : Type := list (string * string).   (* prefix, uri *)

Fixpoint env_get (p : string) (e : env) : option string :=
  match e with
  | [] => None
  | (p', u) :: e' => if String.eqb p' p then Some u else env_get p e'
  end.

Definition clark (uri local : string) : string := "{" ++ uri ++ "}" ++ local.

(** The declarations carried by a start tag. *)
Fixpoint declared (attrs : list (string * string)) (e : env) : env :=
  match attrs with
  | [] => e
  | (k, v) :: attrs' =>
      if String.eqb k "xmlns" then declared attrs' (("", v) :: e)
      else if startswith "xmlns:" k then declared attrs' ((drop 6 k, v) :: e)
      else declared attrs' e
  end.

Definition resolve_name (is_attr : bool) (e : env) (name : string) : option string :=
  match split1 ":" name with
  | (local, None) =>
      if is_attr then Some local
      else match env_get "" e with
           | Some (String c u) => Some (clark (String c u) local)
           | _ => Some local
           end
  | (p, Some local) =>
      match env_get p e with
      | Some u => Some (clark u local)
      | None => None                       (* unbound prefix *)
      end
  end.

Fixpoint resolve_attrs (e : env) (attrs : list (string * string))
  : option (list (string * string)) :=
  match attrs with
  | [] => Some []
  | (k, v) :: attrs' =>
      if String.eqb k "xmlns" || startswith "xmlns:" k then resolve_attrs e attrs'
      else
        match resolve_name true e k, resolve_attrs e attrs' with
        | Some k', Some rest => Some ((k', v) :: rest)
        | _, _ => None
        end
  end.

Fixpoint resolve (e : env) (el : element) : option element :=
  match el with
  | Element name attrs txt cs tl =>
      let e' := declared attrs e in
      match resolve_name false e' name, resolve_attrs e' attrs with
      | Some t, Some a =>
          match
            (fix each (cs : list element) : option (list element) :=
               match cs with
               | [] => Some []
               | c :: cs' =>
                   match resolve e' c, each cs' with
                   | Some c', Some r => Some (c' :: r)
                   | _, _ => None
                   end
               end) cs
          with
          | Some cs' => Some (Element t a txt cs' tl)
          | None => None
          end
      | _, _ => None
      end
  end.

(** The reader: an XML declaration is accepted at the very start, white
    space around the root element is ignored. *)
Definition fromstring (s : string) : option element :=
  let s :=
    if startswith "<?xml" s then
      match find "?>" s with
      | Some i => drop (i + 2) s
      | None => s
      end
    else s in
  let s := skip_ws s in
  match parse_element (S (String.length s)) s with
  | Some (root, rest) =>
      match skip_ws rest with
      | EmptyString => resolve [] root
      | _ => None
      end
  | None => None
  end.

(** The [lxml] reader with [remove_blank_text=True]: text made of white
    space only is dropped. *)
Definition unblank (s : string) : string :=
  match skip_ws s with EmptyString => EmptyString | _ => s end.

Fixpoint remove_blank_text (e : element) : element :=
  match e with
  | Element t a x cs tl =>
      Element t a (unblank x) (map remove_blank_text cs) (unblank tl)
  end.

Definition lxml_fromstring (s : string) : option element :=
  option_map remove_blank_text (fromstring s).

(** ** Writers *)

Fixpoint escape (attr : bool) (s : string) : string :=
  match s with
  | EmptyString => EmptyString
  | String c s' =>
      (if Ascii.eqb c "&" then "&amp;"
       else if Ascii.eqb c "<" then "&lt;"
       else if Ascii.eqb c ">" then "&gt;"
       else if attr && Ascii.eqb c DQ then "&quot;"
       else if attr && Ascii.eqb c "010" then "&#10;"
       else if attr && Ascii.eqb c "013" then "&#13;"
       else if attr && Ascii.eqb c "009" then "&#09;"
       else String c EmptyString) ++ escape attr s'
  end.

(** The namespace of a name in Clark notation. *)
Definition uri_of (name : string) : option string :=
  match name with
  | String "{" rest =>
      match split1 "}" rest with
      | (u, Some _) => Some u
      | _ => None
      end
  | _ => None
  end.

Definition local_of (name : string) : string :=
  match name with
  | String "{" rest =>
      match split1 "}" rest with
      | (_, Some l) => l
      | _ => name
      end
  | _ => name
  end.

(** Prefix assignment: each namespace gets [ns0], [ns1], ... in the order
    in which it is first met (tag, then attribute keys, element by element
    in document order). *)
Definition add_uri (m : env) (name : string) : env :=
  match uri_of name with
  | Some u =>
      if existsb (fun pu => String.eqb (snd pu) u) m then m
      else (m ++ [(("ns" ++ str_of_nat (List.length m))%string, u)])%list
  | None => m
  end.

Definition namespaces (initial : env) (root : element) : env :=
  fold_left
    (fun m e => fold_left add_uri (keys (attrib e)) (add_uri m (tag e)))
    (iter root) initial.

Fixpoint prefix_of (u : string) (m : env) : string :=
  match m with
  | [] => EmptyString
  | (p, u') :: m' => if String.eqb u' u then p else prefix_of u m'
  end.

Definition qname (m : env) (name : string) : string :=
  match uri_of name with
  | Some u =>
      match prefix_of u m with
      | EmptyString => local_of name
      | p => p ++ ":" ++ local_of name
      end
  | None => name
  end.

Definition xmlns_decl (pu : string * string) : string :=
  match fst pu with
  | EmptyString => " xmlns=" ++ String DQ (escape true (snd pu)) ++ String DQ ""
  | p => " xmlns:" ++ p ++ "=" ++ String DQ (escape true (snd pu)) ++ String DQ ""
  end.

Definition write_attr (m : env) (kv : string * string) : string :=
  " " ++ qname m (fst kv) ++ "=" ++ String DQ (escape true (snd kv)) ++ String DQ "".

(** [short_end] is the spelling of an empty element's end: [" />"] for
    ElementTree, ["/>"] for lxml. *)
Fixpoint write (short_end : string) (m : env) (decls : string) (e : element)
  : string :=
  match e with
  | Element t a x cs tl =>
      "<" ++ qname m t ++ decls ++ String.concat "" (map (write_attr m) a)
      ++ (match x, cs with
          | EmptyString, [] => short_end
          | _, _ =>
              ">" ++ escape false x
              ++ String.concat "" (map (write short_end m "") cs)
              ++ "</" ++ qname m t ++ ">"
          end)
      ++ escape false tl
  end.

(** [ET.tostring(root, encoding="unicode", method="xml")] *)
Definition tostring (root : element) : string :=
  let m := namespaces [] root in
  write " />" m (String.concat "" (map xmlns_decl m)) root.

(** [lxml_etree.tostring(tree, encoding='utf-8', xml_declaration=True)],
    decoded; the namespace of the root is written as the default one. *)
Definition lxml_tostring (root : element) : string :=
  let m0 := match uri_of (tag root) with Some u => [("", u)] | None => [] end in
  let m := namespaces m0 root in
  "<?xml version='1.0' encoding='utf-8'?>" ++ String "010" ""
  ++ write "/>" m (String.concat "" (map xmlns_decl m)) root.

End MiniXML.

(* ================================================================== *)
(** * Vocabulary of the statements *)
(* ================================================================== *)

Import Re.

(** ** Strings and matches *)

Fixpoint all_chars (p : ascii -> bool) (s : string) : bool :=
  match s with
  | EmptyString => true
  | String c s' => p c && all_chars p s'
  end.

Fixpoint repeat_string (n : nat) (s : string) : string :=
  match n with
  | O => EmptyString
  | S n' => s ++ repeat_string n' s
  end.


(** The declarative reading of a pattern: [Matches r s g s' g'] when [r]
    can consume a prefix of [s], leaving [s'] and turning the groups [g]
    into [g']. *)
Inductive Matches : regex -> string -> groups -> string -> groups -> Prop :=
| M_Eps s g : Matches Eps s g s g
| M_Chr p c s g : p c = true -> Matches (Chr p) (String c s) g s g
| M_Seq r1 r2 s g s1 g1 s2 g2 :
    Matches r1 s g s1 g1 -> Matches r2 s1 g1 s2 g2 ->
    Matches (Seq r1 r2) s g s2 g2
| M_AltL r1 r2 s g s' g' : Matches r1 s g s' g' -> Matches (Alt r1 r2) s g s' g'
| M_AltR r1 r2 s g s' g' : Matches r2 s g s' g' -> Matches (Alt r1 r2) s g s' g'
| M_StarNil r s g : Matches (Star r) s g s g
| M_StarCons r s g s1 g1 s2 g2 :
    Matches r s g s1 g1 -> Matches (Star r) s1 g1 s2 g2 ->
    Matches (Star r) s g s2 g2
| M_LazyNil r s g : Matches (LazyStar r) s g s g
| M_LazyCons r s g s1 g1 s2 g2 :
    Matches r s g s1 g1 -> Matches (LazyStar r) s1 g1 s2 g2 ->
    Matches (LazyStar r) s g s2 g2
| M_Group n r s g s' g' :
    Matches r s g s' g' ->
    Matches (Group n r) s g s'
            ((n, take (String.length s - String.length s') s) :: g').

(** The least number of characters a match of the pattern consumes. *)
Fixpoint min_len (r : regex) : nat :=
  match r with
  | Eps => 0
  | Chr _ => 1
  | Seq r1 r2 => min_len r1 + min_len r2
  | Alt r1 r2 => Nat.min (min_len r1) (min_len r2)
  | Star _ => 0
  | LazyStar _ => 0
  | Group _ r' => min_len r'
  end.

Definition unwrap (r : result string) : string :=
  match r with Ok s => s | Raise _ => EmptyString end.

Definition the (o : option element) : element :=
  match o with Some e => e | None => Element "" [] "" [] "" end.

(** ** Floats *)




(** ** Sanitizer *)

(** Whether the attribute loop deletes the key. *)
Definition drops (self : Sanitizer.t) (tag_name attr_name_raw : string) : bool :=
  let attr_name := Sanitizer._strip_namespace_from_tag attr_name_raw in
  if mem attr_name (Sanitizer.prohibited_attrs_global self)
     && negb (String.eqb attr_name "id" && Sanitizer.is_def_child tag_name)
  then true
  else if has_char ":" attr_name_raw then
    String.eqb (fst (split1 ":" attr_name_raw)) "xlink"
    && contains "href" attr_name_raw
  else false.

(** The allowlist invariant at one node: the tag (local name) is allowed,
    and an attribute whose local name is prohibited is an [id] on a
    definition-kind tag. *)
Definition allowlist_ok (self : Sanitizer.t) (n : element) : Prop :=
  mem (Sanitizer._strip_namespace_from_tag (tag n)) (Sanitizer.allowed_tags self) = true
  /\ forall k v,
      In (k, v) (attrib n) ->
      mem (Sanitizer._strip_namespace_from_tag k)
          (Sanitizer.prohibited_attrs_global self) = true ->
      Sanitizer._strip_namespace_from_tag k = "id"
      /\ Sanitizer.is_def_child (Sanitizer._strip_namespace_from_tag (tag n)) = true.

Definition keep_sanitized (self : Sanitizer.t) (c : element) : list element :=
  match Sanitizer._sanitize_element self c with
  | Some c' => [c']
  | None => []
  end.

(** The serialised element reads back as itself. *)
Definition reads_back (fromstring : string -> option element)
           (tostring : element -> string) (e : element) : Prop :=
  is_blank (tostring e) = false
  /\ Sanitizer.svg_content_part (tostring e) = tostring e
  /\ fromstring (tostring e) = Some e.

(** ** Pruning *)

Definition defined_ids (tree : element) : list string :=
  ComplianceUtils.collect_defined_ids (ComplianceUtils.xpath_defs tree).

Definition unused_ids (tree : element) : list string :=
  ComplianceUtils.difference (defined_ids tree)
                             (ComplianceUtils.collect_used_ids tree).

(** The document after the pass: the pruned tree, or the input when the
    pass returns early. *)
Definition pruned (tree : element) : element :=
  match ComplianceUtils.remove_unused_defs_tree tree with
  | Some cleaned => cleaned
  | None => tree
  end.

(** The fragment references an element contributes, from its attributes. *)
Definition href_refs_of_attrib (a : list (string * string)) : list string :=
  if (match get "href" a with Some _ => true | None => false end)
     || existsb (fun k => String.eqb (ComplianceUtils.local_name k) "href") (keys a)
  then
    let href :=
      match get "href" a with
      | Some (String c h) => String c h
      | _ => match get ComplianceUtils.XLINK_HREF a with
             | Some h => h
             | None => ""
             end
      end in
    if negb (String.eqb href "") && startswith "#" href then [drop 1 href] else []
  else [].

(** Every reference of [tree] is still a reference of [cleaned]. *)
Definition keeps_references (tree cleaned : element) : bool :=
  forallb (fun r => mem r (ComplianceUtils.collect_used_ids cleaned))
          (ComplianceUtils.collect_used_ids tree).

(** ** Compliance report *)

Definition coherent (r : ComplianceUtils.report) : Prop :=
  ComplianceUtils.is_valid r = true <-> ComplianceUtils.issues r = [].

Definition flagged (msg : string) (r : ComplianceUtils.report) : Prop :=
  ComplianceUtils.is_valid r = false /\ In msg (ComplianceUtils.issues r).

(** One of the markers of an external or embedded bitmap occurs in the
    text. *)
Definition mentions_external_resource (svg_str : string) : bool :=
  contains "data:" svg_str
  || contains "http:" svg_str
  || contains "https:" svg_str
  || contains ".jpg" (lower svg_str)
  || contains ".png" (lower svg_str)
  || contains ".jpeg" (lower svg_str).

(** ** Optimizer *)

(** The numeric rewriting of path data does not lengthen the text. *)
Definition numbers_do_not_grow (svg_str : string) (precision : Z) : bool :=
  match Sanitizer.simplify_paths svg_str precision with
  | Ok t => Nat.leb (size_bytes t) (size_bytes svg_str)
  | Raise _ => true
  end.

(** ** Example documents *)

Definition mismatched_tags : string := "<a><b></a>".

Definition script_root : string := "<script/>".

Definition drawing_with_script : string :=
  q "<svg xmlns=`http://www.w3.org/2000/svg` width=`50` height=`50` style=`x`><g><g><script>alert(1)</script><circle cx=`25` cy=`25` r=`25` fill=`blue` id=`c`/></g></g></svg>".

Definition scenario_c : string :=
  q "<svg xmlns=`http://www.w3.org/2000/svg`><defs><linearGradient id=`g1`/><pattern id=`p1`/></defs><rect fill=`url(#p1)`/></svg>".

Definition nested_definitions : string :=
  q "<svg xmlns=`http://www.w3.org/2000/svg`><defs><pattern id=`p1`><rect fill=`url(#g1)`/></pattern><linearGradient id=`g1`/><g id=`grp`><linearGradient id=`g2`/></g></defs><rect fill=`url(#g2)`/></svg>".

Definition plain_href_image : string :=
  q "<svg xmlns=`http://www.w3.org/2000/svg`><image href=`https://example.com/a.png`/></svg>".

Definition xlink_href_image : string :=
  q "<svg xmlns:xlink=`http://www.w3.org/1999/xlink`><image xlink:href=`a.PNG`/></svg>".

Definition half_path : string := q "<path d=`.5`/>".

Definition sample_drawing : string :=
  q "<svg  version=`1.1`> <path d=`M 10.123,20.987 L 3.14159 +7` opacity=`1` fill=`rgb(255, 0, 10)`/> </svg>".

Definition oversized_drawing : string :=
  "<svg><text>" ++ repeat_string (103 * 100) "a" ++ "</text></svg>".

Definition line_with_numbered_attributes : string :=
  q "<line x1=`1.234` y1=`5.678` x2=`9.87` y2=`0.25`/>".

Definition rect_with_opacity : string :=
  q "<rect x=`1.26` width=`12.04` opacity=`0.55` fill-opacity=`0.123`/><path d=`M1.25 2.0`/>".

(** ** Further vocabulary *)

(** Every repetition in the pattern repeats something that consumes at
    least one character. *)
Fixpoint productive (r : regex) : bool :=
  match r with
  | Eps | Chr _ => true
  | Seq r1 r2 | Alt r1 r2 => productive r1 && productive r2
  | Star r' | LazyStar r' => Nat.leb 1 (min_len r') && productive r'
  | Group _ r' => productive r'
  end.

(** The pattern has no capturing group. *)
Fixpoint group_free (r : regex) : bool :=
  match r with
  | Eps | Chr _ => true
  | Seq r1 r2 | Alt r1 r2 => group_free r1 && group_free r2
  | Star r' | LazyStar r' => group_free r'
  | Group _ _ => false
  end.

(** Every character class of the pattern lies within [P]. *)
Fixpoint class_within (P : ascii -> bool) (r : regex) : Prop :=
  match r with
  | Eps => True
  | Chr p => forall c, p c = true -> P c = true
  | Seq r1 r2 | Alt r1 r2 => class_within P r1 /\ class_within P r2
  | Star r' | LazyStar r' | Group _ r' => class_within P r'
  end.

(** [n'] is what the sanitizer left of the input node [n]: same tag, text
    and tail, and attributes taken from those of [n]. *)
Definition remnant_of (n n' : element) : Prop :=
  tag n' = tag n /\ text n' = text n /\ tail n' = tail n
  /\ incl (attrib n') (attrib n).

(** The node obeys the policy, as a test: its tag is allowed, and every
    attribute is either not prohibited or an [id] on a definition-kind tag,
    and is not spelled with the prefix [xlink:] while holding [href]. *)
Definition policy_okb (self : Sanitizer.t) (n : element) : bool :=
  mem (Sanitizer._strip_namespace_from_tag (tag n)) (Sanitizer.allowed_tags self)
  && forallb
       (fun kv =>
          let k := fst kv in
          (negb (mem (Sanitizer._strip_namespace_from_tag k)
                     (Sanitizer.prohibited_attrs_global self))
           || (String.eqb (Sanitizer._strip_namespace_from_tag k) "id"
               && Sanitizer.is_def_child (Sanitizer._strip_namespace_from_tag (tag n))))
          && negb (has_char ":" k
                   && String.eqb (fst (split1 ":" k)) "xlink"
                   && contains "href" k))
       (attrib n).


(** The pruning pass left [n'] of the input node [n]. *)
Definition same_node (n n' : element) : Prop :=
  tag n' = tag n /\ attrib n' = attrib n /\ text n' = text n /\ tail n' = tail n.

(** The three colour channels of an rgb match. *)
Definition channels (m : match_obj) : list Z :=
  [digits_value 0 (group m 1); digits_value 0 (group m 2); digits_value 0 (group m 3)].

(** The call of Scour gave no text: it returned None or raised. *)
Definition scour_failed (o : Optimizer.scour_outcome) : bool :=
  match o with Optimizer.ScourString _ => false | _ => true end.

Definition scour_returns_none : bool -> string -> Optimizer.scour_outcome :=
  fun _ _ => Optimizer.ScourNone.

(** ** Further example documents *)

Definition clean_drawing : element :=
  Element "{http://www.w3.org/2000/svg}svg" [("width", "10")] ""
    [Element "{http://www.w3.org/2000/svg}defs" [] ""
       [Element "{http://www.w3.org/2000/svg}pattern" [("id", "p1")] "" [] ""] "";
     Element "{http://www.w3.org/2000/svg}rect" [("fill", "url(#p1)")] "" [] ""]
    "".

Definition rect_with_handler : element :=
  Element "rect" [("onclick", "alert(1)"); ("style", "x")] "" [] "".

Definition drawing_without_namespace : string :=
  q "<svg><defs><linearGradient id=`g1`/></defs></svg>".

Definition opacity_attribute_text : string := q "Fill-Opacity=`0.123 4.56` x=`1.5`".

Definition single_quoted_rect : string := "<rect x='1.234' width='5.55'/>".

Definition rect_without_path : string := q "<rect x=`1.234` width=`5.5`/>".

Definition rgb_text : string := "rgb(255, 0,10);".

Definition huge_integer : string := "2" ++ repeat_string 308 "0".

(* ================================================================== *)
(** * Properties *)
(* ================================================================== *)

(** ** Element trees *)

(** Induction over trees, with the hypothesis for every child. *)
Lemma element_rect' (P : element -> Type) (Q : list element -> Type) :
  Q [] ->
  (forall e l, P e -> Q l -> Q (e :: l)) ->
  (forall t a x cs tl, Q cs -> P (Element t a x cs tl)) ->
  forall e, P e.
Proof.
  intros Hnil Hcons Hel.
  fix IH 1.
  intros [t a x cs tl].
  apply Hel.
  induction cs as [|c cs IHcs].
  - exact Hnil.
  - apply Hcons; [apply IH | exact IHcs].
Defined.

Lemma element_ind' (P : element -> Prop) :
  (forall t a x cs tl, Forall P cs -> P (Element t a x cs tl)) ->
  forall e, P e.
Proof.
  intros H.
  apply (element_rect' P (Forall P)); auto.
Qed.

Import Sanitizer ComplianceUtils Optimizer.

(** ** Strings *)

Lemma length_append (a b : string) :
  String.length (a ++ b) = String.length a + String.length b.
Proof. induction a; simpl; auto. Qed.

Lemma append_assoc (a b c : string) : (a ++ b) ++ c = a ++ (b ++ c).
Proof. induction a; simpl; congruence. Qed.

Lemma append_nil_r (a : string) : a ++ "" = a.
Proof. induction a; simpl; congruence. Qed.

Lemma take_append (p s : string) : take (String.length p) (p ++ s) = p.
Proof.
  induction p; simpl.
  - destruct s; reflexivity.
  - congruence.
Qed.

Lemma take_consumed (p s : string) :
  take (String.length (p ++ s) - String.length s) (p ++ s) = p.
Proof.
  rewrite length_append.
  replace (String.length p + String.length s - String.length s)
    with (String.length p) by lia.
  apply take_append.
Qed.

Lemma lstrip_length s : String.length (lstrip s) <= String.length s.
Proof.
  induction s as [|c s IH]; simpl; [lia|].
  destruct (is_space c); simpl; lia.
Qed.

Lemma rstrip_length s : String.length (rstrip s) <= String.length s.
Proof.
  induction s as [|c s IH]; simpl; [lia|].
  destruct (rstrip s); [destruct (is_space c)|]; simpl in *; lia.
Qed.

Lemma strip_length s : String.length (strip s) <= String.length s.
Proof.
  unfold strip. eapply Nat.le_trans; [apply rstrip_length | apply lstrip_length].
Qed.

Lemma mem_In x l : mem x l = true <-> In x l.
Proof.
  unfold mem. rewrite existsb_exists. split.
  - intros (y & Hy & E). apply String.eqb_eq in E. subst. exact Hy.
  - intros H. exists x. split; [exact H | apply String.eqb_refl].
Qed.

Lemma mem_false_In x l : mem x l = false <-> ~ In x l.
Proof.
  rewrite <- mem_In. destruct (mem x l); split; intros; congruence.
Qed.

Lemma in_difference x a b : In x (difference a b) <-> In x a /\ ~ In x b.
Proof.
  unfold difference. rewrite filter_In, negb_true_iff, mem_false_In. tauto.
Qed.

Lemma difference_nil a b : difference a b = [] -> forall x, In x a -> In x b.
Proof.
  intros H x Hx. destruct (mem x b) eqn:M; [apply mem_In; exact M|].
  apply mem_false_In in M.
  assert (In x (difference a b)) by (apply in_difference; auto).
  rewrite H in *. contradiction.
Qed.

Lemma difference_nil_intro a b : (forall x, In x a -> In x b) -> difference a b = [].
Proof.
  intros H. destruct (difference a b) as [|x l] eqn:E; [reflexivity|].
  assert (Hx : In x (difference a b)) by (rewrite E; left; reflexivity).
  apply in_difference in Hx. destruct Hx as [Ha Hb]. exfalso. auto.
Qed.








(** ** Exceptions *)

Lemma bind_Ok_inv {A B : Type} (x : result A) (f : A -> result B) (b : B) :
  bind x f = Ok b -> exists a, x = Ok a /\ f a = Ok b.
Proof. destruct x; simpl; [eauto | discriminate]. Qed.

Lemma Ok_inj {A : Type} (a b : A) : Ok a = Ok b -> a = b.
Proof. intros H. injection H as H. exact H. Qed.

(** ** The matcher is sound for the declarative reading *)

Lemma run_sound :
  forall r s g k a,
    run r s g k = Some a ->
    exists s' g', Matches r s g s' g' /\ k s' g' = Some a.
Proof.
  induction r as [|p|r1 IH1 r2 IH2|r1 IH1 r2 IH2|r IH|r IH|n r IH];
    intros s g k a H; simpl in H.
  - exists s, g. split; [constructor | exact H].
  - destruct s as [|c s]; [discriminate|].
    destruct (p c) eqn:Hp; [|discriminate].
    exists s, g. split; [constructor; exact Hp | exact H].
  - apply IH1 in H. destruct H as (s1 & g1 & M1 & H).
    apply IH2 in H. destruct H as (s2 & g2 & M2 & H).
    exists s2, g2. split; [econstructor; eauto | exact H].
  - destruct (run r1 s g k) eqn:E1.
    + inversion H; subst. apply IH1 in E1. destruct E1 as (s' & g' & M & K).
      exists s', g'. split; [apply M_AltL; exact M | exact K].
    + apply IH2 in H. destruct H as (s' & g' & M & K).
      exists s', g'. split; [apply M_AltR; exact M | exact K].
  - revert H. generalize (String.length s) as fuel. intros fuel. revert s g.
    induction fuel as [|fuel IHf]; intros s g H.
    + exists s, g. split; [constructor | exact H].
    + match type of H with
      | match ?x with _ => _ end = _ => destruct x eqn:E
      end.
      * inversion H; subst. apply IH in E. destruct E as (s1 & g1 & M1 & K).
        apply IHf in K. destruct K as (s2 & g2 & M2 & K).
        exists s2, g2. split; [eapply M_StarCons; eauto | exact K].
      * exists s, g. split; [constructor | exact H].
  - revert H. generalize (String.length s) as fuel. intros fuel. revert s g.
    induction fuel as [|fuel IHf]; intros s g H.
    + exists s, g. split; [constructor | exact H].
    + destruct (k s g) eqn:E.
      * inversion H; subst. exists s, g. split; [constructor | exact E].
      * apply IH in H. destruct H as (s1 & g1 & M1 & K).
        apply IHf in K. destruct K as (s2 & g2 & M2 & K).
        exists s2, g2. split; [eapply M_LazyCons; eauto | exact K].
  - apply IH in H. destruct H as (s' & g' & M & K).
    eexists _, _. split; [apply M_Group; exact M | exact K].
Qed.

Lemma match_at_sound r s rest g :
  match_at r s = Some (rest, g) -> Matches r s [] rest g.
Proof.
  unfold match_at. intros H. apply run_sound in H.
  destruct H as (s' & g' & M & K). inversion K; subst. exact M.
Qed.

Lemma Matches_consumed r s g s' g' :
  Matches r s g s' g' ->
  exists p, s = p ++ s' /\ min_len r <= String.length p.
Proof.
  induction 1; simpl.
  - exists "". split; [reflexivity | simpl; lia].
  - exists (String c ""). split; [reflexivity | simpl; lia].
  - destruct IHMatches1 as (p1 & -> & L1). destruct IHMatches2 as (p2 & -> & L2).
    exists (p1 ++ p2). split; [symmetry; apply append_assoc|].
    rewrite length_append. lia.
  - destruct IHMatches as (p & -> & L). exists p. split; [reflexivity | lia].
  - destruct IHMatches as (p & -> & L). exists p. split; [reflexivity | lia].
  - exists "". split; [reflexivity | simpl; lia].
  - destruct IHMatches1 as (p1 & -> & L1). destruct IHMatches2 as (p2 & -> & L2).
    exists (p1 ++ p2). split; [symmetry; apply append_assoc | lia].
  - exists "". split; [reflexivity | simpl; lia].
  - destruct IHMatches1 as (p1 & -> & L1). destruct IHMatches2 as (p2 & -> & L2).
    exists (p1 ++ p2). split; [symmetry; apply append_assoc | lia].
  - exact IHMatches.
Qed.

Lemma sub_loop_length fuel r repl :
  (forall s rest g,
      Matches r s [] rest g ->
      String.length (repl (mk_match s rest g))
      <= String.length s - String.length rest) ->
  forall s, String.length (sub_loop fuel r repl s) <= String.length s.
Proof.
  intros Hrepl. induction fuel as [|fuel IH]; intros s; simpl; [lia|].
  destruct (match_at r s) as [[rest g]|] eqn:E.
  - apply match_at_sound in E.
    pose proof (Hrepl _ _ _ E) as L.
    destruct (Matches_consumed _ _ _ _ _ E) as (p & -> & _).
    unfold mk_match in *. simpl whole.
    rewrite take_consumed in L |- *.
    rewrite length_append in L.
    destruct p as [|c p].
    + simpl in *. rewrite length_append.
      destruct rest as [|c rest]; simpl.
      * lia.
      * specialize (IH rest). lia.
    + rewrite length_append. specialize (IH rest).
      rewrite length_append. lia.
  - destruct s as [|c s]; simpl; [lia|]. specialize (IH s). lia.
Qed.

Lemma sub_length r repl s :
  (forall s rest g,
      Matches r s [] rest g ->
      String.length (repl (mk_match s rest g))
      <= String.length s - String.length rest) ->
  String.length (sub r repl s) <= String.length s.
Proof. intros H. apply sub_loop_length; exact H. Qed.

Lemma sub_const_length r text s :
  String.length text <= min_len r ->
  String.length (sub_const r text s) <= String.length s.
Proof.
  intros H. apply sub_length. intros s0 rest g M.
  destruct (Matches_consumed _ _ _ _ _ M) as (p & -> & L).
  rewrite length_append. lia.
Qed.

Lemma Matches_seq_inv r1 r2 s g s2 g2 :
  Matches (Seq r1 r2) s g s2 g2 ->
  exists s1 g1, Matches r1 s g s1 g1 /\ Matches r2 s1 g1 s2 g2.
Proof. inversion 1; subst; eauto. Qed.

Lemma Matches_group_inv n r s g s' g'' :
  Matches (Group n r) s g s' g'' ->
  exists g', Matches r s g s' g'
             /\ g'' = (n, take (String.length s - String.length s') s) :: g'.
Proof. inversion 1; subst; eauto. Qed.

Lemma Matches_chr_inv p s g s' g' :
  Matches (Chr p) s g s' g' ->
  exists c, s = String c s' /\ p c = true /\ g' = g.
Proof. inversion 1; subst; eauto. Qed.

Lemma Matches_lit_inv t :
  forall s g s' g', Matches (Lit t) s g s' g' -> s = t ++ s' /\ g' = g.
Proof.
  induction t as [|c t IH]; intros s g s' g' M; simpl in M.
  - inversion M; subst. auto.
  - destruct t as [|c' t].
    + apply Matches_chr_inv in M. destruct M as (x & -> & E & ->).
      apply Ascii.eqb_eq in E. subst. auto.
    + apply Matches_seq_inv in M. destruct M as (s1 & g1 & M1 & M2).
      apply Matches_chr_inv in M1. destruct M1 as (x & -> & E & ->).
      apply Ascii.eqb_eq in E. subst.
      apply IH in M2. destruct M2 as [-> ->]. auto.
Qed.

Lemma Matches_star_chr_inv p s g s' g' :
  Matches (Star (Chr p)) s g s' g' ->
  g' = g /\ exists pre, s = pre ++ s' /\ all_chars p pre = true.
Proof.
  remember (Star (Chr p)) as r eqn:Er. intros M.
  induction M; try discriminate; inversion Er; subst.
  - split; [reflexivity|]. exists "". auto.
  - apply Matches_chr_inv in M1. destruct M1 as (c & -> & Hc & ->).
    destruct (IHM2 eq_refl) as (-> & pre & -> & Hall).
    split; [reflexivity|]. exists (String c pre). simpl. rewrite Hc, Hall. auto.
Qed.

Lemma Matches_plus_chr_inv p s g s' g' :
  Matches (Plus (Chr p)) s g s' g' ->
  g' = g /\ exists pre, s = pre ++ s' /\ all_chars p pre = true
                        /\ 1 <= String.length pre.
Proof.
  unfold Plus. intros M.
  apply Matches_seq_inv in M. destruct M as (s1 & g1 & M1 & M2).
  apply Matches_chr_inv in M1. destruct M1 as (c & -> & Hc & ->).
  apply Matches_star_chr_inv in M2. destruct M2 as (-> & pre & -> & Hall).
  split; [reflexivity|]. exists (String c pre). simpl. rewrite Hc, Hall.
  repeat split; lia.
Qed.

(** digits *)
Lemma is_digit_code c :
  is_digit c = true -> (0 <= Z.of_N (code c) - 48 <= 9)%Z.
Proof.
  unfold is_digit, in_range. rewrite andb_true_iff, !N.leb_le.
  change (code "0") with 48%N. change (code "9") with 57%N. lia.
Qed.

Lemma digits_value_bounds d :
  all_chars is_digit d = true ->
  forall acc,
    (acc * 10 ^ Z.of_nat (String.length d) <= digits_value acc d
     < (acc + 1) * 10 ^ Z.of_nat (String.length d))%Z.
Proof.
  induction d as [|c d IH]; intros H acc.
  - simpl. lia.
  - simpl in H. apply andb_true_iff in H. destruct H as [Hc Hd].
    apply is_digit_code in Hc.
    cbn [digits_value String.length].
    specialize (IH Hd (10 * acc + (Z.of_N (code c) - 48))%Z).
    rewrite Nat2Z.inj_succ, Z.pow_succ_r by lia.
    assert (0 < 10 ^ Z.of_nat (String.length d))%Z by (apply Z.pow_pos_nonneg; lia).
    nia.
Qed.


(** ** Floats *)

Module PyFloatFacts.

Import PyFloat.
Open Scope Z_scope.



Lemma all_digits_all_chars s : all_digits s = all_chars is_digit s.
Proof. induction s; simpl; congruence. Qed.

Lemma all_chars_app p a b :
  all_chars p (a ++ b) = all_chars p a && all_chars p b.
Proof. induction a; simpl; [reflexivity|]. rewrite IHa, andb_assoc. reflexivity. Qed.








End PyFloatFacts.

(** ** Sanitizer: the tree pass *)

Lemma sanitize_attr_drops self tag_name attrib k :
  sanitize_attr self tag_name attrib k
  = if drops self tag_name k then del k attrib else attrib.
Proof.
  unfold sanitize_attr, drops.
  destruct (mem _ _ && negb _); [reflexivity|].
  destruct (has_char ":" k); [|reflexivity].
  destruct (_ && _); reflexivity.
Qed.

Lemma in_del k k' v (d : list (string * string)) :
  In (k', v) (del k d) <-> In (k', v) d /\ k' <> k.
Proof.
  unfold del. rewrite filter_In. simpl.
  rewrite negb_true_iff, String.eqb_neq. tauto.
Qed.

Lemma in_sanitized_attrs self tag_name ks :
  forall attrib k v,
    In (k, v) (fold_left (sanitize_attr self tag_name) ks attrib) <->
    In (k, v) attrib /\ ~ (In k ks /\ drops self tag_name k = true).
Proof.
  induction ks as [|k0 ks IH]; intros attrib k v; simpl.
  - tauto.
  - rewrite IH, sanitize_attr_drops.
    destruct (drops self tag_name k0) eqn:D.
    + rewrite in_del. split.
      * intros [[Hin Hne] Hn]. split; [exact Hin|].
        intros [[->|Hk] Hd]; [congruence | tauto].
      * intros [Hin Hn]. split; [split; [exact Hin|]|].
        -- intros ->. apply Hn. auto.
        -- intros [Hk Hd]. apply Hn. auto.
    + split.
      * intros [Hin Hn]. split; [exact Hin|].
        intros [[->|Hk] Hd]; [congruence | tauto].
      * intros [Hin Hn]. split; [exact Hin|]. intros [Hk Hd]. apply Hn. auto.
Qed.

Lemma fold_sanitize_attr_fixed self tag_name ks :
  forall attrib,
    (forall k, In k ks -> drops self tag_name k = false) ->
    fold_left (sanitize_attr self tag_name) ks attrib = attrib.
Proof.
  induction ks as [|k ks IH]; intros attrib H; simpl; [reflexivity|].
  rewrite sanitize_attr_drops, (H k) by (left; reflexivity).
  apply IH. intros k' Hk'. apply H. right. exact Hk'.
Qed.

Lemma in_keys k (d : list (string * string)) :
  In k (keys d) <-> exists v, In (k, v) d.
Proof.
  unfold keys. rewrite in_map_iff. split.
  - intros ([k' v] & E & H). simpl in E. subst. eauto.
  - intros (v & H). exists (k, v). auto.
Qed.

Lemma _sanitize_element_eq self t a x cs tl :
  _sanitize_element self (Element t a x cs tl)
  = if negb (mem (_strip_namespace_from_tag t) (allowed_tags self)) then None
    else Some (Element t
                 (fold_left (sanitize_attr self (_strip_namespace_from_tag t))
                            (keys a) a)
                 x (flat_map (keep_sanitized self) cs) tl).
Proof.
  cbn [_sanitize_element].
  destruct (negb _); [reflexivity|].
  do 2 f_equal.
  induction cs as [|c cs IH]; [reflexivity|].
  cbn [flat_map]. unfold keep_sanitized at 1.
  destruct (_sanitize_element self c); cbn [app]; rewrite IH; reflexivity.
Qed.

Lemma drops_false_ok self tag_name k :
  drops self tag_name k = false ->
  mem (_strip_namespace_from_tag k) (prohibited_attrs_global self) = true ->
  _strip_namespace_from_tag k = "id" /\ is_def_child tag_name = true.
Proof.
  unfold drops. intros D M. rewrite M in D. cbn [andb] in D.
  destruct (String.eqb_spec (_strip_namespace_from_tag k) "id") as [E|E];
    cbn [andb negb] in D.
  - destruct (is_def_child tag_name); cbn [negb] in D; [auto | discriminate].
  - discriminate.
Qed.

Lemma sanitized_node_ok self e :
  forall e', _sanitize_element self e = Some e' ->
             Forall (allowlist_ok self) (iter e').
Proof.
  induction e as [t a x cs tl IHcs] using element_ind'.
  intros e' H. rewrite _sanitize_element_eq in H.
  destruct (mem (_strip_namespace_from_tag t) (allowed_tags self)) eqn:Ht;
    cbn [negb] in H; [|discriminate].
  injection H as <-.
  cbn [iter]. constructor.
  - split; [exact Ht|]. cbn [attrib tag]. intros k v Hin Hm.
    rewrite in_sanitized_attrs in Hin. destruct Hin as [Hin Hn].
    apply (drops_false_ok self); [|exact Hm].
    destruct (drops self (_strip_namespace_from_tag t) k) eqn:D; [|reflexivity].
    exfalso. apply Hn. split; [|reflexivity]. apply in_keys. eauto.
  - apply Forall_forall. intros n Hn.
    apply in_flat_map in Hn. destruct Hn as (c' & Hc' & Hn).
    apply in_flat_map in Hc'. destruct Hc' as (c & Hc & Hk).
    unfold keep_sanitized in Hk.
    destruct (_sanitize_element self c) as [c''|] eqn:E; [|contradiction].
    destruct Hk as [<-|[]].
    rewrite Forall_forall in IHcs.
    specialize (IHcs c Hc c'' E). rewrite Forall_forall in IHcs. auto.
Qed.

Lemma flat_map_keep_fixed self (cs : list element) :
  Forall (fun c => _sanitize_element self c = Some c) cs ->
  flat_map (keep_sanitized self) cs = cs.
Proof.
  induction 1 as [|c cs Hc _ IH]; [reflexivity|].
  cbn [flat_map]. unfold keep_sanitized at 1. rewrite Hc, IH. reflexivity.
Qed.

Lemma _sanitize_element_idempotent self e :
  forall e', _sanitize_element self e = Some e' ->
             _sanitize_element self e' = Some e'.
Proof.
  induction e as [t a x cs tl IHcs] using element_ind'.
  intros e' H. rewrite _sanitize_element_eq in H.
  destruct (mem (_strip_namespace_from_tag t) (allowed_tags self)) eqn:Ht;
    cbn [negb] in H; [|discriminate].
  injection H as <-.
  rewrite _sanitize_element_eq, Ht. cbn [negb].
  f_equal. f_equal.
  - apply fold_sanitize_attr_fixed. intros k Hk.
    apply in_keys in Hk. destruct Hk as (v & Hin).
    rewrite in_sanitized_attrs in Hin. destruct Hin as [Hin Hn].
    destruct (drops self (_strip_namespace_from_tag t) k) eqn:D; [|reflexivity].
    exfalso. apply Hn. split; [|reflexivity]. apply in_keys. eauto.
  - apply flat_map_keep_fixed. apply Forall_forall. intros c' Hc'.
    apply in_flat_map in Hc'. destruct Hc' as (c & Hc & Hk).
    unfold keep_sanitized in Hk.
    destruct (_sanitize_element self c) as [c''|] eqn:E; [|contradiction].
    destruct Hk as [<-|[]].
    rewrite Forall_forall in IHcs. eauto.
Qed.

(** ** Pruning: the tree pass *)

Lemma remove_unused_eq U b t a x cs tl :
  remove_unused U b (Element t a x cs tl)
  = Element t a x
      (map (remove_unused U (b || String.eqb t SVG_DEFS))
           (filter (fun c => negb ((b || String.eqb t SVG_DEFS) && is_unused U c)) cs))
      tl.
Proof.
  cbn [remove_unused]. f_equal.
  induction cs as [|c cs IH]; [reflexivity|].
  cbn [filter].
  destruct ((b || String.eqb t SVG_DEFS) && is_unused U c); cbn [negb map];
    rewrite IH; reflexivity.
Qed.

Lemma remove_unused_tag U b e : tag (remove_unused U b e) = tag e.
Proof. destruct e. rewrite remove_unused_eq. reflexivity. Qed.

Lemma remove_unused_attrib U b e : attrib (remove_unused U b e) = attrib e.
Proof. destruct e. rewrite remove_unused_eq. reflexivity. Qed.

Lemma iter_eq t a x cs tl :
  iter (Element t a x cs tl) = Element t a x cs tl :: flat_map iter cs.
Proof. reflexivity. Qed.

(** Every element of the pruned tree is the pruned form of an element of
    the tree. *)
Lemma in_iter_remove_unused U e :
  forall b e',
    In e' (iter (remove_unused U b e)) ->
    exists e0 b0, In e0 (iter e) /\ e' = remove_unused U b0 e0.
Proof.
  induction e as [t a x cs tl IHcs] using element_ind'.
  intros b e' H. rewrite remove_unused_eq, iter_eq in H.
  destruct H as [<-|H].
  - exists (Element t a x cs tl), b. split.
    + rewrite iter_eq. left. reflexivity.
    + rewrite remove_unused_eq. reflexivity.
  - apply in_flat_map in H. destruct H as (c' & Hc' & He').
    apply in_map_iff in Hc'. destruct Hc' as (c & <- & Hc).
    apply filter_In in Hc. destruct Hc as [Hc _].
    rewrite Forall_forall in IHcs.
    destruct (IHcs c Hc _ _ He') as (e0 & b0 & Hin & ->).
    exists e0, b0. split; [|reflexivity].
    rewrite iter_eq. right. apply in_flat_map. eauto.
Qed.

Lemma is_unused_attrib U e e0 :
  attrib e = attrib e0 -> is_unused U e = is_unused U e0.
Proof. unfold is_unused. intros ->. reflexivity. Qed.

(** Below a [defs], whatever survives was not selected for removal. *)
Lemma in_iter_remove_unused_inside U e :
  forall e',
    is_unused U e = false ->
    In e' (iter (remove_unused U true e)) ->
    exists e0, In e0 (iter e) /\ attrib e' = attrib e0 /\ is_unused U e0 = false.
Proof.
  induction e as [t a x cs tl IHcs] using element_ind'.
  intros e' Hu H. rewrite remove_unused_eq, iter_eq in H.
  destruct H as [<-|H].
  - exists (Element t a x cs tl). split; [rewrite iter_eq; left; reflexivity|].
    split; [reflexivity | exact Hu].
  - apply in_flat_map in H. destruct H as (c' & Hc' & He').
    apply in_map_iff in Hc'. destruct Hc' as (c & <- & Hc).
    apply filter_In in Hc. destruct Hc as [Hc Hk].
    cbn [orb andb] in Hk. apply negb_true_iff in Hk.
    rewrite Forall_forall in IHcs.
    destruct (IHcs c Hc _ Hk He') as (e0 & Hin & Ha & Hu0).
    exists e0. split; [|auto].
    rewrite iter_eq. right. apply in_flat_map. eauto.
Qed.

Lemma in_descendants_remove_unused_defs U b d e' :
  tag d = SVG_DEFS ->
  In e' (descendants (remove_unused U b d)) ->
  exists e0, In e0 (descendants d) /\ attrib e' = attrib e0
             /\ is_unused U e0 = false.
Proof.
  destruct d as [t a x cs tl]. cbn [tag]. intros -> H.
  rewrite remove_unused_eq in H. unfold descendants in *. cbn [children] in *.
  rewrite String.eqb_refl, orb_true_r in H.
  apply in_flat_map in H. destruct H as (c' & Hc' & He').
  apply in_map_iff in Hc'. destruct Hc' as (c & <- & Hc).
  apply filter_In in Hc. destruct Hc as [Hc Hk].
  cbn [andb] in Hk. apply negb_true_iff in Hk.
  destruct (in_iter_remove_unused_inside U c e' Hk He') as (e0 & Hin & Ha & Hu0).
  exists e0. split; [|auto]. apply in_flat_map. eauto.
Qed.

Lemma in_defined_ids tree i :
  In i (defined_ids tree) <->
  exists d e, In d (iter tree) /\ tag d = SVG_DEFS
              /\ In e (descendants d) /\ get "id" (attrib e) = Some i.
Proof.
  unfold defined_ids, collect_defined_ids, xpath_defs, xpath_with_id.
  rewrite in_flat_map. split.
  - intros (d & Hd & Hi). apply filter_In in Hd. destruct Hd as [Hd Ht].
    apply String.eqb_eq in Ht.
    apply in_map_iff in Hi. destruct Hi as (e & <- & He).
    apply filter_In in He. destruct He as [He Ha].
    exists d, e. repeat split; auto.
    unfold has_attr in Ha. unfold id_of.
    destruct (get "id" (attrib e)); [reflexivity | discriminate].
  - intros (d & e & Hd & Ht & He & Hi). exists d. split.
    + apply filter_In. split; [exact Hd | apply String.eqb_eq; exact Ht].
    + apply in_map_iff. exists e. split.
      * unfold id_of. rewrite Hi. reflexivity.
      * apply filter_In. split; [exact He|]. unfold has_attr. rewrite Hi. reflexivity.
Qed.

Lemma defined_ids_remove_unused U tree i :
  In i (defined_ids (remove_unused U false tree)) ->
  In i (defined_ids tree) /\ ~ In i U.
Proof.
  rewrite !in_defined_ids. intros (d' & e' & Hd' & Ht' & He' & Hi).
  destruct (in_iter_remove_unused U tree _ _ Hd') as (d & b0 & Hd & ->).
  rewrite remove_unused_tag in Ht'.
  destruct (in_descendants_remove_unused_defs U b0 d e' Ht' He')
    as (e0 & He0 & Ha & Hu).
  rewrite Ha in Hi. split.
  - exists d, e0. auto.
  - unfold is_unused in Hu. rewrite Hi in Hu. apply mem_false_In. exact Hu.
Qed.

(** References only disappear. *)
Lemma in_url_refs tree r :
  In r (url_refs tree) <->
  exists attr e, In attr ref_attrs /\ In e (iter tree)
                 /\ get attr (attrib e) <> None
                 /\ In r (url_ref_of (match get attr (attrib e) with
                                      | Some v => v | None => "" end)).
Proof.
  unfold url_refs, xpath_with_attr. rewrite in_flat_map. split.
  - intros (attr & Hattr & H). apply in_flat_map in H.
    destruct H as (e & He & Hr). apply filter_In in He. destruct He as [He Ha].
    exists attr, e. repeat split; auto.
    unfold has_attr in Ha. destruct (get attr (attrib e)); congruence.
  - intros (attr & e & Hattr & He & Ha & Hr). exists attr. split; [exact Hattr|].
    apply in_flat_map. exists e. split; [|exact Hr].
    apply filter_In. split; [exact He|]. unfold has_attr.
    destruct (get attr (attrib e)); congruence.
Qed.

Lemma in_href_refs tree r :
  In r (href_refs tree) <->
  exists e, In e (iter tree) /\ In r (href_refs_of_attrib (attrib e)).
Proof.
  unfold href_refs, xpath_with_href. rewrite in_flat_map. split.
  - intros (e & He & Hr). apply filter_In in He. destruct He as [He Hf].
    exists e. split; [exact He|]. unfold href_refs_of_attrib.
    unfold has_attr in Hf. rewrite Hf. exact Hr.
  - intros (e & He & Hr). unfold href_refs_of_attrib in Hr.
    destruct (_ || _) eqn:Hf in Hr; [|contradiction].
    exists e. split; [|exact Hr]. apply filter_In. split; [exact He | exact Hf].
Qed.

Lemma used_ids_remove_unused U b tree r :
  In r (collect_used_ids (remove_unused U b tree)) ->
  In r (collect_used_ids tree).
Proof.
  unfold collect_used_ids. rewrite !in_app_iff, !in_url_refs, !in_href_refs.
  intros [(attr & e' & Hattr & He' & Ha & Hr) | (e' & He' & Hr)].
  - destruct (in_iter_remove_unused U tree _ _ He') as (e0 & b0 & He0 & ->).
    rewrite remove_unused_attrib in Ha, Hr. left. exists attr, e0. auto.
  - destruct (in_iter_remove_unused U tree _ _ He') as (e0 & b0 & He0 & ->).
    rewrite remove_unused_attrib in Hr. right. exists e0. auto.
Qed.

Lemma remove_unused_defs_tree_Some tree cleaned :
  remove_unused_defs_tree tree = Some cleaned ->
  cleaned = remove_unused (unused_ids tree) false tree /\ unused_ids tree <> [].
Proof.
  unfold remove_unused_defs_tree, unused_ids, defined_ids.
  destruct (xpath_defs tree) as [|d ds]; [discriminate|].
  destruct (collect_defined_ids (d :: ds)) as [|i ids]; [discriminate|].
  destruct (difference (i :: ids) (collect_used_ids tree)) as [|u us];
    [discriminate|].
  intros H. injection H as <-. split; [reflexivity | discriminate].
Qed.

Lemma remove_unused_defs_tree_None tree :
  remove_unused_defs_tree tree = None -> unused_ids tree = [].
Proof.
  unfold remove_unused_defs_tree, unused_ids, defined_ids.
  destruct (xpath_defs tree) as [|d ds]; [reflexivity|].
  destruct (collect_defined_ids (d :: ds)) as [|i ids]; [reflexivity|].
  destruct (difference (i :: ids) (collect_used_ids tree)) as [|u us];
    [reflexivity | discriminate].
Qed.

Lemma remove_unused_defs_tree_None_intro tree :
  unused_ids tree = [] -> remove_unused_defs_tree tree = None.
Proof.
  unfold remove_unused_defs_tree, unused_ids, defined_ids.
  destruct (xpath_defs tree) as [|d ds]; [reflexivity|].
  destruct (collect_defined_ids (d :: ds)) as [|i ids]; [reflexivity|].
  intros ->. reflexivity.
Qed.

(** A second run finds nothing to remove when the first removed no
    reference. *)
Lemma second_pass_is_noop tree cleaned :
  remove_unused_defs_tree tree = Some cleaned ->
  (forall r, In r (collect_used_ids tree) -> In r (collect_used_ids cleaned)) ->
  remove_unused_defs_tree cleaned = None.
Proof.
  intros E Hk. apply remove_unused_defs_tree_Some in E. destruct E as [-> _].
  apply remove_unused_defs_tree_None_intro. unfold unused_ids.
  apply difference_nil_intro. intros i Hi.
  apply defined_ids_remove_unused in Hi. destruct Hi as [Hd Hn].
  apply Hk.
  destruct (mem i (collect_used_ids tree)) eqn:M; [apply mem_In; exact M|].
  exfalso. apply Hn. apply in_difference. split; [exact Hd|].
  apply mem_false_In. exact M.
Qed.

(** ** Compliance report *)

Lemma flag_coherent r msg : coherent (flag r msg).
Proof.
  unfold coherent, flag; simpl. split.
  - discriminate.
  - intros H. destruct (issues r); discriminate.
Qed.

Lemma flag_if_coherent (b : bool) r msg :
  coherent r -> coherent (if b then flag r msg else r).
Proof. destruct b; auto using flag_coherent. Qed.

Lemma animation_fold_coherent svg tags r :
  coherent r ->
  coherent (fold_left
              (fun results tag =>
                 if contains tag (lower svg) then
                   flag results ("SVG contains animation elements (" ++ tag ++ ")")
                 else results) tags r).
Proof.
  revert r. induction tags as [|t tags IH]; intros r Hr; simpl; auto.
  apply IH. apply flag_if_coherent; exact Hr.
Qed.

Lemma flag_keeps msg r m : flagged msg r -> flagged msg (flag r m).
Proof.
  intros [_ Hin]. split; [reflexivity|]. simpl. apply in_or_app; auto.
Qed.

Lemma flag_if_keeps (b : bool) msg r m :
  flagged msg r -> flagged msg (if b then flag r m else r).
Proof. destruct b; auto using flag_keeps. Qed.

Lemma animation_fold_keeps msg svg tags r :
  flagged msg r ->
  flagged msg (fold_left
              (fun results tag =>
                 if contains tag (lower svg) then
                   flag results ("SVG contains animation elements (" ++ tag ++ ")")
                 else results) tags r).
Proof.
  revert r. induction tags as [|t tags IH]; intros r Hr; simpl; auto.
  apply IH. apply flag_if_keeps; exact Hr.
Qed.

(** ** Text utilities never lengthen, numbers apart *)

Lemma hex_digits_length k :
  forall fuel n acc,
    1 <= k -> (0 <= n < 16 ^ Z.of_nat k)%Z ->
    String.length (hex_digits fuel n acc) <= k + String.length acc.
Proof.
  induction k as [|k IH]; intros fuel n acc Hk Hn; [lia|].
  destruct fuel as [|fuel]; simpl; [lia|].
  destruct (n <? 16)%Z eqn:E.
  - simpl. lia.
  - apply Z.ltb_ge in E.
    destruct k as [|k].
    + simpl in Hn. lia.
    + eapply Nat.le_trans; [apply IH|].
      * lia.
      * rewrite Nat2Z.inj_succ, Z.pow_succ_r in Hn by lia.
        split; [apply Z.div_pos; lia|].
        apply Z.div_lt_upper_bound; lia.
      * simpl. lia.
Qed.

Lemma format_02x_length d :
  all_chars is_digit d = true -> 1 <= String.length d ->
  String.length (format_02x (digits_value 0 d)) <= String.length d + 1.
Proof.
  intros Hd Hl.
  pose proof (digits_value_bounds d Hd 0%Z) as B.
  assert (P : (10 ^ Z.of_nat (String.length d) <= 16 ^ Z.of_nat (String.length d))%Z)
    by (apply Z.pow_le_mono_l; lia).
  unfold format_02x.
  assert (R : (0 <= digits_value 0 d < 16 ^ Z.of_nat (String.length d))%Z) by lia.
  pose proof (hex_digits_length (String.length d)
                (S (Z.to_nat (Z.log2 (digits_value 0 d))))
                (digits_value 0 d) "" Hl R) as L.
  cbn [String.length] in L.
  remember (hex_digits (S (Z.to_nat (Z.log2 (digits_value 0 d))))
                       (digits_value 0 d) "") as h eqn:Eh.
  clear Eh B P R.
  destruct h as [|c [|c' h]]; cbn [String.length] in *; lia.
Qed.

Lemma rgb_to_hex_length s rest g :
  Matches RGB s [] rest g ->
  String.length (rgb_to_hex (mk_match s rest g))
  <= String.length s - String.length rest.
Proof.
  unfold RGB. cbn [Seqs]. intros M.
  apply Matches_seq_inv in M. destruct M as (s1 & g1 & M1 & M).
  apply Matches_lit_inv in M1. destruct M1 as [-> ->].
  apply Matches_seq_inv in M. destruct M as (s2 & g2 & M2 & M).
  apply Matches_group_inv in M2. destruct M2 as (g2' & M2 & ->).
  apply Matches_plus_chr_inv in M2. destruct M2 as (-> & d1 & -> & D1 & L1).
  rewrite take_consumed in M.
  apply Matches_seq_inv in M. destruct M as (s3 & g3 & M3 & M).
  apply Matches_lit_inv in M3. destruct M3 as [-> ->].
  apply Matches_seq_inv in M. destruct M as (s4 & g4 & M4 & M).
  apply Matches_star_chr_inv in M4. destruct M4 as (-> & w1 & -> & _).
  apply Matches_seq_inv in M. destruct M as (s5 & g5 & M5 & M).
  apply Matches_group_inv in M5. destruct M5 as (g5' & M5 & ->).
  apply Matches_plus_chr_inv in M5. destruct M5 as (-> & d2 & -> & D2 & L2).
  rewrite take_consumed in M.
  apply Matches_seq_inv in M. destruct M as (s6 & g6 & M6 & M).
  apply Matches_lit_inv in M6. destruct M6 as [-> ->].
  apply Matches_seq_inv in M. destruct M as (s7 & g7 & M7 & M).
  apply Matches_star_chr_inv in M7. destruct M7 as (-> & w2 & -> & _).
  apply Matches_seq_inv in M. destruct M as (s8 & g8 & M8 & M).
  apply Matches_group_inv in M8. destruct M8 as (g8' & M8 & ->).
  apply Matches_plus_chr_inv in M8. destruct M8 as (-> & d3 & -> & D3 & L3).
  rewrite take_consumed in M.
  apply Matches_lit_inv in M. destruct M as [-> ->].
  unfold rgb_to_hex, mk_match, group. cbn [captured lookup Nat.eqb].
  pose proof (format_02x_length d1 D1 L1).
  pose proof (format_02x_length d2 D2 L2).
  pose proof (format_02x_length d3 D3 L3).
  repeat rewrite length_append. cbn [String.length].
  repeat rewrite length_append. cbn [String.length]. lia.
Qed.

Lemma remove_metadata_length s :
  String.length (Sanitizer.remove_metadata s) <= String.length s.
Proof.
  unfold Sanitizer.remove_metadata.
  repeat (eapply Nat.le_trans; [apply sub_const_length; simpl; lia|]).
  lia.
Qed.

Lemma minify_svg_length s :
  String.length (Sanitizer.minify_svg s) <= String.length s.
Proof.
  unfold Sanitizer.minify_svg.
  eapply Nat.le_trans; [apply strip_length|].
  repeat (eapply Nat.le_trans; [apply sub_const_length; vm_compute; lia|]).
  lia.
Qed.

Lemma default_attrs_length s :
  String.length (fold_left (fun result pr => sub_const (fst pr) (snd pr) result)
                           default_attrs s) <= String.length s.
Proof.
  unfold default_attrs. cbn [fold_left fst snd].
  repeat (eapply Nat.le_trans; [apply sub_const_length; simpl; lia|]).
  lia.
Qed.

Lemma _apply_fallback_optimization_eq raw :
  _apply_fallback_optimization raw
  = (t <- Sanitizer.simplify_paths
            (Sanitizer.minify_svg (Sanitizer.remove_metadata raw)) 1 ;;
     Ok (fold_left (fun result pr => sub_const (fst pr) (snd pr) result)
                   default_attrs t)).
Proof. unfold _apply_fallback_optimization. reflexivity. Qed.

Lemma aggressive_fallback_eq svg :
  aggressive_fallback svg
  = (t <- Sanitizer.simplify_paths
            (Sanitizer.minify_svg (Sanitizer.remove_metadata svg)) 0 ;;
     Ok (sub RGB rgb_to_hex
           (sub_const (Seqs [Lit "<?xml"; Plus (NotChar ">"); Lit "?>"]) ""
              (sub_const (Seqs [Lit ">"; Plus Space; Lit "<"]) "><"
                 (sub_const (Plus Space) " " t))))).
Proof. unfold aggressive_fallback. reflexivity. Qed.

Lemma _apply_aggressive_optimization_None svg :
  _apply_aggressive_optimization None svg = aggressive_fallback svg.
Proof. reflexivity. Qed.

Lemma numbers_do_not_grow_spec svg p t :
  numbers_do_not_grow svg p = true ->
  Sanitizer.simplify_paths svg p = Ok t ->
  String.length t <= String.length svg.
Proof.
  unfold numbers_do_not_grow. intros H E. rewrite E in H.
  apply Nat.leb_le in H. exact H.
Qed.

Lemma aggressive_fallback_length svg aggressive :
  aggressive_fallback svg = Ok aggressive ->
  numbers_do_not_grow (Sanitizer.minify_svg (Sanitizer.remove_metadata svg)) 0 = true ->
  String.length aggressive <= String.length svg.
Proof.
  intros Ha N0. rewrite aggressive_fallback_eq in Ha.
  apply bind_Ok_inv in Ha. destruct Ha as (t & E & Ha).
  apply Ok_inj in Ha. subst aggressive.
  pose proof (numbers_do_not_grow_spec _ _ _ N0 E) as L.
  eapply Nat.le_trans; [apply sub_length; apply rgb_to_hex_length|].
  do 3 (eapply Nat.le_trans; [apply sub_const_length; simpl; lia|]).
  eapply Nat.le_trans; [exact L|].
  eapply Nat.le_trans; [apply minify_svg_length | apply remove_metadata_length].
Qed.

Lemma fallback_length raw standard :
  _apply_fallback_optimization raw = Ok standard ->
  numbers_do_not_grow (Sanitizer.minify_svg (Sanitizer.remove_metadata raw)) 1 = true ->
  String.length standard <= String.length raw.
Proof.
  intros Hs N1. rewrite _apply_fallback_optimization_eq in Hs.
  apply bind_Ok_inv in Hs. destruct Hs as (t & E & Hs).
  apply Ok_inj in Hs. subst standard.
  pose proof (numbers_do_not_grow_spec _ _ _ N1 E) as L.
  eapply Nat.le_trans; [apply default_attrs_length|].
  eapply Nat.le_trans; [exact L|].
  eapply Nat.le_trans; [apply minify_svg_length | apply remove_metadata_length].
Qed.


(* ================================================================== *)
(** * The pruning pass (remove_unused_defs) *)
(* ================================================================== *)

(** C1 (amended).  After the pruning pass, every id-bearing element that is
    still below a [defs] was referenced somewhere in the input document
    (by a url(#id) in fill, stroke, filter, clip-path or mask, or by a
    fragment href); the pass adds no reference; and an id the pass selected
    for removal is neither defined below a [defs] nor referenced any more.
    The references counted are those of the input: one that sat inside a
    removed definition is gone from the output, and an element removed
    only as a descendant of an unreferenced one may still be referenced. *)
Theorem pruned_definitions_were_referenced :
  forall tree : element,
    (forall i, In i (defined_ids (pruned tree)) -> In i (collect_used_ids tree))
    /\ (forall r, In r (collect_used_ids (pruned tree)) ->
                  In r (collect_used_ids tree))
    /\ (forall u, In u (unused_ids tree) ->
                  ~ In u (defined_ids (pruned tree))
                  /\ ~ In u (collect_used_ids (pruned tree))).
Proof.
  intros tree. unfold pruned.
  destruct (remove_unused_defs_tree tree) as [cleaned|] eqn:E.
  - apply remove_unused_defs_tree_Some in E. destruct E as [-> _].
    assert (D : forall i, In i (defined_ids (remove_unused (unused_ids tree) false tree)) ->
                          In i (defined_ids tree) /\ ~ In i (unused_ids tree))
      by (intros i; apply defined_ids_remove_unused).
    assert (R : forall r, In r (collect_used_ids (remove_unused (unused_ids tree) false tree)) ->
                          In r (collect_used_ids tree))
      by (intros r; apply used_ids_remove_unused).
    repeat split.
    + intros i Hi. destruct (D i Hi) as [Hd Hn].
      destruct (mem i (collect_used_ids tree)) eqn:M; [apply mem_In; exact M|].
      exfalso. apply Hn. apply in_difference. split; [exact Hd|].
      apply mem_false_In. exact M.
    + exact R.
    + intros Hd. apply D in Hd. tauto.
    + intros Hr. apply R in Hr. apply in_difference in H. tauto.
  - apply remove_unused_defs_tree_None in E.
    repeat split.
    + intros i Hi. apply (difference_nil _ _ E). exact Hi.
    + auto.
    + rewrite E in H. contradiction.
    + rewrite E in H. contradiction.
Qed.

(** C1 (counterexample).  With a reference inside an unreferenced pattern
    and a referenced gradient inside an unreferenced group, one run keeps
    the definition g1 although nothing in the output refers to it, and
    leaves a url(#g2) that points to the definition g2 it removed. *)
Lemma nested_definitions_break_reachability :
  exists tree cleaned : element,
    MiniXML.lxml_fromstring nested_definitions = Some tree
    /\ remove_unused_defs_tree tree = Some cleaned
    /\ mem "g1" (defined_ids cleaned) = true
    /\ mem "g1" (collect_used_ids cleaned) = false
    /\ mem "g2" (collect_used_ids cleaned) = true
    /\ mem "g2" (defined_ids tree) = true
    /\ mem "g2" (defined_ids cleaned) = false.
Proof.
  eexists. eexists.
  split; [vm_compute; reflexivity|].
  split; [vm_compute; reflexivity|].
  repeat split; vm_compute; reflexivity.
Qed.

(* ================================================================== *)
(** * The sanitizer (sanitize_svg_string) *)
(* ================================================================== *)




(** C3 (amended).  For every input whose content parses to a tree with an
    allowed root tag, the sanitizer returns the serialisation of a tree in
    which every node has its tag in ALLOWED_SVG_TAGS and no attribute in
    PROHIBITED_SVG_ATTRIBUTES, except [id] on linearGradient,
    radialGradient, pattern and stop (names compared after the namespace is
    stripped). *)
Theorem sanitize_output_respects_allowlist :
  forall (fromstring : string -> option element) (tostring : element -> string)
         (svg_string : string) (root : element),
    is_blank svg_string = false ->
    is_blank (svg_content_part svg_string) = false ->
    fromstring (svg_content_part svg_string) = Some root ->
    mem (_strip_namespace_from_tag (tag root)) ALLOWED_SVG_TAGS = true ->
    exists sanitized_root : element,
      _sanitize_element Sanitizer.default root = Some sanitized_root
      /\ sanitize_svg_string fromstring tostring Sanitizer.default svg_string
         = tostring sanitized_root
      /\ Forall (allowlist_ok Sanitizer.default) (iter sanitized_root).
Proof.
  intros fromstring tostring svg_string root Hb Hc Hp Ht.
  destruct (_sanitize_element Sanitizer.default root) as [sanitized_root|] eqn:E.
  - exists sanitized_root. split; [reflexivity|]. split.
    + unfold sanitize_svg_string, sanitize_svg_string_run.
      rewrite Hb, Hc, Hp, E. reflexivity.
    + apply (sanitized_node_ok Sanitizer.default root). exact E.
  - exfalso. destruct root as [t a x cs tl].
    rewrite _sanitize_element_eq in E. cbn [tag] in Ht.
    cbn [allowed_tags Sanitizer.default] in E. rewrite Ht in E. discriminate.
Qed.

(** Witness for C3: a drawing with a script nested at depth 3. *)
Lemma sanitize_output_respects_allowlist_on_drawing :
  exists sanitized_root : element,
    _sanitize_element Sanitizer.default
                      (the (MiniXML.fromstring drawing_with_script))
    = Some sanitized_root
    /\ sanitize_svg_string MiniXML.fromstring MiniXML.tostring Sanitizer.default
                           drawing_with_script
       = MiniXML.tostring sanitized_root
    /\ Forall (allowlist_ok Sanitizer.default) (iter sanitized_root).
Proof.
  apply (sanitize_output_respects_allowlist
           MiniXML.fromstring MiniXML.tostring drawing_with_script
           (the (MiniXML.fromstring drawing_with_script)));
    vm_compute; reflexivity.
Defined.

(** C3 (counterexample).  When the root itself is disallowed the sanitizer
    returns its placeholder document, whose tree has a [text] node: a tag
    outside ALLOWED_SVG_TAGS. *)
Lemma placeholder_contains_disallowed_tag :
  sanitize_svg_string MiniXML.fromstring MiniXML.tostring Sanitizer.default
                      script_root = ROOT_REMOVED_SVG
  /\ exists (t n : element),
      MiniXML.fromstring ROOT_REMOVED_SVG = Some t
      /\ In n (iter t)
      /\ tag n = "{http://www.w3.org/2000/svg}text"
      /\ mem (_strip_namespace_from_tag (tag n)) ALLOWED_SVG_TAGS = false.
Proof.
  split; [vm_compute; reflexivity|].
  eexists. eexists. split; [vm_compute; reflexivity|].
  split; [right; left; reflexivity|].
  split; vm_compute; reflexivity.
Qed.

(* ================================================================== *)
(** * Idempotence of the two cleanup functions *)
(* ================================================================== *)

Lemma reads_back_second_run fromstring tostring self e :
  reads_back fromstring tostring e ->
  _sanitize_element self e = Some e ->
  sanitize_svg_string fromstring tostring self (tostring e) = tostring e.
Proof.
  intros (Hb & Hc & Hp) Hs.
  unfold sanitize_svg_string, sanitize_svg_string_run.
  rewrite Hb, Hc, Hb, Hp, Hs. reflexivity.
Qed.

(** C2 (amended).  [sanitize_svg_string] is idempotent on an input whose
    content parses and whose root is kept, provided the serialised result
    reads back as the sanitised tree; [remove_unused_defs] is idempotent on
    a document it prunes, provided the pruned tree reads back and the first
    run removed no reference (every reference of the input is still one of
    the output). *)
Theorem cleanup_is_idempotent_on_stable_documents :
  forall (fromstring : string -> option element) (tostring : element -> string)
         (lxml_fromstring : string -> option element)
         (lxml_tostring : element -> string)
         (self : Sanitizer.t) (x : string) (root sanitized_root : element)
         (y : string) (tree cleaned : element),
    is_blank x = false ->
    is_blank (svg_content_part x) = false ->
    fromstring (svg_content_part x) = Some root ->
    _sanitize_element self root = Some sanitized_root ->
    reads_back fromstring tostring sanitized_root ->
    lxml_fromstring y = Some tree ->
    remove_unused_defs_tree tree = Some cleaned ->
    lxml_fromstring (lxml_tostring cleaned) = Some cleaned ->
    keeps_references tree cleaned = true ->
    sanitize_svg_string fromstring tostring self
      (sanitize_svg_string fromstring tostring self x)
    = sanitize_svg_string fromstring tostring self x
    /\ remove_unused_defs lxml_fromstring lxml_tostring
         (remove_unused_defs lxml_fromstring lxml_tostring y)
       = remove_unused_defs lxml_fromstring lxml_tostring y.
Proof.
  intros fromstring tostring lxml_fromstring lxml_tostring self x root
         sanitized_root y tree cleaned Hb Hc Hp Hs Hr Hy Ht Hy' Hk.
  split.
  - assert (E : sanitize_svg_string fromstring tostring self x
                = tostring sanitized_root).
    { unfold sanitize_svg_string, sanitize_svg_string_run.
      rewrite Hb, Hc, Hp, Hs. reflexivity. }
    rewrite E. apply reads_back_second_run; [exact Hr|].
    apply (_sanitize_element_idempotent self root). exact Hs.
  - assert (E : remove_unused_defs lxml_fromstring lxml_tostring y
                = lxml_tostring cleaned).
    { unfold remove_unused_defs. rewrite Hy, Ht. reflexivity. }
    rewrite E. unfold remove_unused_defs. rewrite Hy'.
    rewrite (second_pass_is_noop tree cleaned Ht); [reflexivity|].
    intros r Hin. unfold keeps_references in Hk.
    rewrite forallb_forall in Hk. apply mem_In. apply Hk. exact Hin.
Qed.

(** Witness for C2: the drawing with a script, and a [defs] with an unused
    gradient and a used pattern. *)
Lemma cleanup_is_idempotent_on_examples :
  sanitize_svg_string MiniXML.fromstring MiniXML.tostring Sanitizer.default
    (sanitize_svg_string MiniXML.fromstring MiniXML.tostring Sanitizer.default
       drawing_with_script)
  = sanitize_svg_string MiniXML.fromstring MiniXML.tostring Sanitizer.default
      drawing_with_script
  /\ remove_unused_defs MiniXML.lxml_fromstring MiniXML.lxml_tostring
       (remove_unused_defs MiniXML.lxml_fromstring MiniXML.lxml_tostring scenario_c)
     = remove_unused_defs MiniXML.lxml_fromstring MiniXML.lxml_tostring scenario_c.
Proof.
  apply (cleanup_is_idempotent_on_stable_documents
           MiniXML.fromstring MiniXML.tostring
           MiniXML.lxml_fromstring MiniXML.lxml_tostring
           Sanitizer.default
           drawing_with_script
           (the (MiniXML.fromstring drawing_with_script))
           (the (_sanitize_element Sanitizer.default
                   (the (MiniXML.fromstring drawing_with_script))))
           scenario_c
           (the (MiniXML.lxml_fromstring scenario_c))
           (the (remove_unused_defs_tree (the (MiniXML.lxml_fromstring scenario_c)))));
    try (vm_compute; reflexivity).
  repeat split; vm_compute; reflexivity.
Defined.

(** C2 (counterexample).  Sanitising the placeholder returned for a
    disallowed root strips its [text] child, and a second pruning run
    removes the gradient that was referenced only from a pattern the first
    run removed: neither function is idempotent on every input. *)
Lemma cleanup_is_not_idempotent :
  sanitize_svg_string MiniXML.fromstring MiniXML.tostring Sanitizer.default
    (sanitize_svg_string MiniXML.fromstring MiniXML.tostring Sanitizer.default
       script_root)
  <> sanitize_svg_string MiniXML.fromstring MiniXML.tostring Sanitizer.default
       script_root
  /\ remove_unused_defs MiniXML.lxml_fromstring MiniXML.lxml_tostring
       (remove_unused_defs MiniXML.lxml_fromstring MiniXML.lxml_tostring
          nested_definitions)
     <> remove_unused_defs MiniXML.lxml_fromstring MiniXML.lxml_tostring
          nested_definitions.
Proof.
  split; vm_compute; discriminate.
Qed.

(* ================================================================== *)
(** * The compliance check (check_competition_compliance) *)
(* ================================================================== *)

(** C9.  For every text and every size limit, the report has
    [is_valid = True] exactly when its list of issues is empty.  The check
    is a function of its two arguments and returns a fresh report. *)
Theorem check_competition_compliance_valid_iff_no_issues :
  forall (svg_str : string) (max_size_bytes : Z),
    is_valid (check_competition_compliance svg_str max_size_bytes) = true
    <-> issues (check_competition_compliance svg_str max_size_bytes) = [].
Proof.
  intros svg_str max_size_bytes.
  unfold check_competition_compliance.
  apply animation_fold_coherent.
  repeat apply flag_if_coherent.
  split; reflexivity.
Qed.

(** C8 (amended).  For every text that contains [xlink:href] and one of
    the markers data:, http:, https: (as written) or .jpg, .png, .jpeg (in
    any case), the report is invalid and lists the external-reference
    issue. *)
Theorem check_flags_xlink_external_references :
  forall (svg_str : string) (max_size_bytes : Z),
    contains "xlink:href" svg_str = true ->
    mentions_external_resource svg_str = true ->
    is_valid (check_competition_compliance svg_str max_size_bytes) = false
    /\ In EXTERNAL_IMAGE_ISSUE
          (issues (check_competition_compliance svg_str max_size_bytes)).
Proof.
  intros svg_str max_size_bytes Hx He.
  unfold check_competition_compliance.
  apply animation_fold_keeps.
  unfold mentions_external_resource in He. rewrite Hx, He. simpl.
  split; [reflexivity|]. simpl. apply in_or_app. right. left. reflexivity.
Qed.

(** Witness for C8: an image referenced through xlink:href. *)
Lemma check_flags_xlink_png :
  is_valid (check_competition_compliance xlink_href_image 10240) = false
  /\ In EXTERNAL_IMAGE_ISSUE
        (issues (check_competition_compliance xlink_href_image 10240)).
Proof.
  apply (check_flags_xlink_external_references xlink_href_image 10240);
    vm_compute; reflexivity.
Defined.

(** C8 (counterexample).  An image loaded over https through a plain
    [href] carries two of the markers, and the report is valid with no
    issue. *)
Lemma plain_href_reference_passes :
  mentions_external_resource plain_href_image = true
  /\ check_competition_compliance plain_href_image 10240 = Report true [].
Proof. split; vm_compute; reflexivity. Qed.

(* ================================================================== *)
(** * The optimizer (optimize_svg_string) *)
(* ================================================================== *)

(** C5.  Whenever the first tier and then the aggressive tier both produce
    a text above MAX_SVG_SIZE_BYTES, [optimize_svg_string] does not raise:
    it returns the aggressive-tier text, and the budget overrun is reported
    by the CRITICAL error record it logs. *)
Theorem optimize_over_budget_returns_aggressive_artifact :
  forall (scour : option (bool -> string -> scour_outcome))
         (svg_string standard aggressive : string),
    svg_string <> "" ->
    initial_optimization scour svg_string = Ok standard ->
    MAX_SVG_SIZE_BYTES < size_bytes standard ->
    _apply_aggressive_optimization scour standard = Ok aggressive ->
    MAX_SVG_SIZE_BYTES < size_bytes aggressive ->
    optimize_svg_string scour svg_string = Ok aggressive
    /\ exists log,
        optimize_svg_string_run scour svg_string = Ok (aggressive, log)
        /\ In CRITICAL_RECORD log.
Proof.
  intros scour svg_string standard aggressive Hne Hs Ls Ha La.
  assert (R : exists log,
             optimize_svg_string_run scour svg_string = Ok (aggressive, log)
             /\ In CRITICAL_RECORD log).
  { unfold optimize_svg_string_run.
    destruct (String.eqb_spec svg_string ""); [contradiction|].
    rewrite Hs. cbn [bind].
    apply Nat.ltb_lt in Ls. rewrite Ls.
    rewrite Ha. cbn [bind].
    apply Nat.ltb_lt in La. rewrite La.
    eexists. split; [reflexivity|].
    apply in_or_app. left. apply in_or_app. right. left. reflexivity. }
  split; [|exact R].
  destruct R as (log & R & _).
  unfold optimize_svg_string. rewrite R. reflexivity.
Qed.

(** Witness for C5: ten thousand characters of text, no Scour. *)
Lemma optimize_over_budget_on_oversized_drawing :
  optimize_svg_string None oversized_drawing
  = Ok (unwrap (_apply_aggressive_optimization None
                  (unwrap (initial_optimization None oversized_drawing))))
  /\ exists log,
      optimize_svg_string_run None oversized_drawing
      = Ok (unwrap (_apply_aggressive_optimization None
                      (unwrap (initial_optimization None oversized_drawing))), log)
      /\ In CRITICAL_RECORD log.
Proof.
  apply (optimize_over_budget_returns_aggressive_artifact
           None oversized_drawing
           (unwrap (initial_optimization None oversized_drawing))).
  - discriminate.
  - vm_compute. reflexivity.
  - apply Nat.ltb_lt. vm_compute. reflexivity.
  - vm_compute. reflexivity.
  - apply Nat.ltb_lt. vm_compute. reflexivity.
Defined.

(** C6 (amended).  On the fallback path the sizes satisfy
    aggressive <= standard <= raw whenever the numeric rewriting of path
    data ([simplify_paths]) does not lengthen the text it is given at
    either tier; every other step (metadata and comment removal, white
    space collapsing, default attributes, prolog removal, rgb to hex)
    never lengthens the text. *)
Theorem fallback_tiers_shrink_when_numbers_do_not_grow :
  forall raw standard aggressive : string,
    _apply_fallback_optimization raw = Ok standard ->
    _apply_aggressive_optimization None standard = Ok aggressive ->
    numbers_do_not_grow (Sanitizer.minify_svg (Sanitizer.remove_metadata raw)) 1 = true ->
    numbers_do_not_grow (Sanitizer.minify_svg (Sanitizer.remove_metadata standard)) 0 = true ->
    size_bytes aggressive <= size_bytes standard
    /\ size_bytes standard <= size_bytes raw.
Proof.
  intros raw standard aggressive Hs Ha N1 N0.
  rewrite _apply_aggressive_optimization_None in Ha.
  split.
  - exact (aggressive_fallback_length _ _ Ha N0).
  - exact (fallback_length _ _ Hs N1).
Qed.

(** Witness for C6: a small drawing with decimals and an rgb colour. *)
Lemma fallback_tiers_shrink_on_sample :
  size_bytes (unwrap (_apply_aggressive_optimization None
                        (unwrap (_apply_fallback_optimization sample_drawing))))
  <= size_bytes (unwrap (_apply_fallback_optimization sample_drawing))
  /\ size_bytes (unwrap (_apply_fallback_optimization sample_drawing))
     <= size_bytes sample_drawing.
Proof.
  apply (fallback_tiers_shrink_when_numbers_do_not_grow
           sample_drawing
           (unwrap (_apply_fallback_optimization sample_drawing))
           (unwrap (_apply_aggressive_optimization None
                      (unwrap (_apply_fallback_optimization sample_drawing)))));
    vm_compute; reflexivity.
Defined.

(** C6 (counterexample).  The path data .5 is rewritten to 0.5: the
    standard tier is one byte longer than the raw text. *)
Lemma half_path_grows :
  exists standard,
    _apply_fallback_optimization half_path = Ok standard
    /\ size_bytes half_path < size_bytes standard.
Proof.
  exists (q "<path d=`0.5`/>"). split.
  - vm_compute. reflexivity.
  - vm_compute. lia.
Qed.

(* ================================================================== *)
(** * Numeric rounding *)
(* ================================================================== *)



(** C10 (the code at the failing input).  At precision 1 the decimals of x1,
    y1, x2 and y2 are left as they are, because an attribute name that
    ends in a digit does not match the attribute pattern; next to it, the
    opacity attributes are kept and the decimals of x, width and d are
    rounded. *)
Theorem limit_decimal_precision_skips_numbered_attributes :
  limit_decimal_precision line_with_numbered_attributes 1
  = Ok line_with_numbered_attributes
  /\ limit_decimal_precision rect_with_opacity 1
     = Ok (q "<rect x=`1.3` width=`12.0` opacity=`0.55` fill-opacity=`0.123`/><path d=`M1.2 2`/>").
Proof. split; vm_compute; reflexivity. Qed.

(* ================================================================== *)
(** * More on strings and on the matcher *)
(* ================================================================== *)

(** ** Strings *)

Lemma split1_app_sep sep a b :
  has_char sep a = false -> split1 sep (a ++ String sep b) = (a, Some b).
Proof.
  induction a as [|c a IH]; intros H.
  - cbn. rewrite Ascii.eqb_refl. reflexivity.
  - cbn [has_char] in H. apply orb_false_iff in H. destruct H as [Hc Ha].
    cbn [append split1]. rewrite Ascii.eqb_sym, Hc, (IH Ha). reflexivity.
Qed.

Lemma has_char_app c a b : has_char c (a ++ b) = has_char c a || has_char c b.
Proof.
  induction a as [|d a IH]; [reflexivity|].
  cbn [append has_char]. rewrite IH, orb_assoc. reflexivity.
Qed.

Lemma has_char_app_r c a b : has_char c b = true -> has_char c (a ++ b) = true.
Proof. intros H. rewrite has_char_app, H. apply orb_true_r. Qed.

Lemma startswith_append p s : startswith p (p ++ s) = true.
Proof.
  induction p as [|c p IH]; [destruct s; reflexivity|].
  cbn. rewrite Ascii.eqb_refl, IH. reflexivity.
Qed.

Lemma startswith_split t : forall s, startswith t s = true -> exists post, s = t ++ post.
Proof.
  induction t as [|c t IH]; intros s H.
  - exists s. reflexivity.
  - destruct s as [|d s]; [discriminate|]. cbn [startswith] in H.
    apply andb_true_iff in H. destruct H as [E H].
    apply Ascii.eqb_eq in E. subst d.
    destruct (IH s H) as (post & ->). exists post. reflexivity.
Qed.

Lemma contains_startswith p s : startswith p s = true -> contains p s = true.
Proof. intros H. destruct s; cbn [contains]; rewrite H; reflexivity. Qed.

Lemma contains_app p a : forall b, contains p (a ++ p ++ b) = true.
Proof.
  induction a as [|c a IH]; intros b.
  - change ("" ++ p ++ b) with (p ++ b).
    apply contains_startswith. apply startswith_append.
  - cbn [append contains]. rewrite IH. apply orb_true_r.
Qed.

Lemma contains_false_startswith p s : contains p s = false -> startswith p s = false.
Proof.
  destruct s; cbn [contains]; intros H; apply orb_false_iff in H; tauto.
Qed.

Lemma contains_false_tail p c s : contains p (String c s) = false -> contains p s = false.
Proof.
  cbn [contains]. intros H. apply orb_false_iff in H. tauto.
Qed.

Lemma contains_false_drop p s :
  contains p s = false -> forall n, startswith p (drop n s) = false.
Proof.
  induction s as [|c s IH]; intros H n.
  - destruct n; cbn [drop]; apply contains_false_startswith; exact H.
  - destruct n as [|n]; cbn [drop].
    + apply contains_false_startswith. exact H.
    + apply IH. exact (contains_false_tail p c s H).
Qed.

Lemma contains_false_suffix p s :
  contains p s = false -> forall n, contains p (drop n s) = false.
Proof.
  induction s as [|c s IH]; intros H n.
  - destruct n; exact H.
  - destruct n as [|n]; [exact H|]. cbn [drop]. apply IH.
    exact (contains_false_tail p c s H).
Qed.

Lemma all_chars_drop p n : forall s, all_chars p s = true -> all_chars p (drop n s) = true.
Proof.
  induction n as [|n IH]; intros s H; [destruct s; exact H|].
  destruct s as [|c s]; [reflexivity|].
  cbn [all_chars] in H. apply andb_true_iff in H. cbn [drop]. apply IH. tauto.
Qed.

Lemma replace_loop_all_chars p old fuel :
  forall s, all_chars p s = true -> all_chars p (replace_loop fuel old "" s) = true.
Proof.
  induction fuel as [|fuel IH]; intros s H; [exact H|].
  cbn [replace_loop]. destruct (startswith old s).
  - cbn [append]. apply IH. apply all_chars_drop. exact H.
  - destruct s as [|c s]; [reflexivity|].
    cbn [all_chars] in *. apply andb_true_iff in H. destruct H as [Hc Hs].
    rewrite Hc. cbn [andb]. apply IH. exact Hs.
Qed.

Lemma split_at_first c :
  forall s, has_char c s = true ->
            exists a b, s = a ++ String c b /\ all_chars (fun x => negb (Ascii.eqb x c)) a = true.
Proof.
  induction s as [|d s IH]; intros H; [discriminate|].
  cbn [has_char] in H. destruct (Ascii.eqb_spec c d) as [->|N].
  - exists "", s. auto.
  - cbn [orb] in H. destruct (IH H) as (a & b & -> & A).
    exists (String d a), b. split; [reflexivity|].
    cbn [all_chars]. rewrite A.
    destruct (Ascii.eqb_spec d c); [congruence | reflexivity].
Qed.

(** ** Matches: inversion and construction *)

Lemma Matches_alt_inv r1 r2 s g s' g' :
  Matches (Alt r1 r2) s g s' g' -> Matches r1 s g s' g' \/ Matches r2 s g s' g'.
Proof. inversion 1; subst; auto. Qed.

Lemma Matches_eps_inv s g s' g' : Matches Eps s g s' g' -> s' = s /\ g' = g.
Proof. inversion 1; subst; auto. Qed.

Lemma Matches_group_free r s g s' g' :
  Matches r s g s' g' -> group_free r = true -> g' = g.
Proof.
  induction 1; cbn [group_free]; intros F;
    try apply andb_true_iff in F; try reflexivity; try discriminate.
  - destruct F as [F1 F2]. rewrite (IHMatches2 F2). apply IHMatches1. exact F1.
  - destruct F as [F1 F2]. apply IHMatches. exact F1.
  - destruct F as [F1 F2]. apply IHMatches. exact F2.
  - rewrite (IHMatches2 F). apply IHMatches1. exact F.
  - rewrite (IHMatches2 F). apply IHMatches1. exact F.
Qed.

Lemma Matches_consumed_chars P r s g s' g' :
  Matches r s g s' g' -> class_within P r ->
  exists p, s = p ++ s' /\ all_chars P p = true.
Proof.
  induction 1; cbn [class_within]; intros C.
  - exists "". auto.
  - exists (String c ""). cbn [all_chars]. rewrite (C c H). auto.
  - destruct C as [C1 C2].
    destruct (IHMatches1 C1) as (p1 & -> & A1).
    destruct (IHMatches2 C2) as (p2 & -> & A2).
    exists (p1 ++ p2). rewrite append_assoc, PyFloatFacts.all_chars_app, A1, A2. auto.
  - destruct C as [C1 C2]. exact (IHMatches C1).
  - destruct C as [C1 C2]. exact (IHMatches C2).
  - exists "". auto.
  - destruct (IHMatches1 C) as (p1 & -> & A1).
    destruct (IHMatches2 C) as (p2 & -> & A2).
    exists (p1 ++ p2). rewrite append_assoc, PyFloatFacts.all_chars_app, A1, A2. auto.
  - exists "". auto.
  - destruct (IHMatches1 C) as (p1 & -> & A1).
    destruct (IHMatches2 C) as (p2 & -> & A2).
    exists (p1 ++ p2). rewrite append_assoc, PyFloatFacts.all_chars_app, A1, A2. auto.
  - exact (IHMatches C).
Qed.

Lemma Matches_lit_intro t : forall s g, Matches (Lit t) (t ++ s) g s g.
Proof.
  induction t as [|c t IH]; intros s g.
  - constructor.
  - destruct t as [|c' t].
    + cbn. constructor. apply Ascii.eqb_refl.
    + change (Lit (String c (String c' t)))
        with (Seq (Chr (Ascii.eqb c)) (Lit (String c' t))).
      econstructor; [|apply IH].
      cbn [append]. constructor. apply Ascii.eqb_refl.
Qed.

Lemma Matches_star_chr_intro p a :
  all_chars p a = true -> forall s g, Matches (Star (Chr p)) (a ++ s) g s g.
Proof.
  induction a as [|c a IH]; intros H s g.
  - constructor.
  - cbn [all_chars] in H. apply andb_true_iff in H. destruct H as [Hc Ha].
    cbn [append]. econstructor; [constructor; exact Hc | apply IH; exact Ha].
Qed.

(** ** The matcher finds a match when there is one *)

(** Completeness of the backtracking matcher for patterns whose repetitions
    consume something: when the pattern has a match that the continuation
    accepts, [run] returns an answer (which may be another match, found
    earlier in its search order). *)
Lemma run_complete :
  forall r, productive r = true ->
  forall s g s' g' k,
    Matches r s g s' g' -> k s' g' <> None -> run r s g k <> None.
Proof.
  induction r as [|p|r1 IH1 r2 IH2|r1 IH1 r2 IH2|r IH|r IH|n r IH];
    intros P s g s' g' k M K; cbn [productive] in P.
  - apply Matches_eps_inv in M. destruct M as [-> ->]. exact K.
  - apply Matches_chr_inv in M. destruct M as (c & -> & Hc & ->).
    cbn [run]. rewrite Hc. exact K.
  - apply andb_true_iff in P. destruct P as [P1 P2].
    apply Matches_seq_inv in M. destruct M as (s1 & g1 & M1 & M2).
    cbn [run]. apply (IH1 P1 _ _ _ _ _ M1). apply (IH2 P2 _ _ _ _ _ M2). exact K.
  - apply andb_true_iff in P. destruct P as [P1 P2]. cbn [run].
    destruct (run r1 s g k) eqn:E1; [discriminate|].
    apply Matches_alt_inv in M. destruct M as [M|M].
    + exfalso. exact (IH1 P1 _ _ _ _ _ M K E1).
    + exact (IH2 P2 _ _ _ _ _ M K).
  - apply andb_true_iff in P. destruct P as [Pm P]. apply Nat.leb_le in Pm.
    cbn [run].
    assert (G : forall fuel, String.length s <= fuel ->
                (fix loop (fuel : nat) (s : string) (g : groups) {struct fuel} : answer :=
                   match fuel with
                   | O => k s g
                   | S fuel' =>
                       match run r s g (fun s' g' => loop fuel' s' g') with
                       | Some a => Some a
                       | None => k s g
                       end
                   end) fuel s g <> None).
    { remember (Star r) as sr eqn:Esr.
      induction M; try discriminate; inversion Esr; subst; intros fuel Hf.
      - destruct fuel as [|fuel]; [exact K|].
        match goal with
        | |- match ?x with _ => _ end <> None => destruct x; [discriminate | exact K]
        end.
      - destruct (Matches_consumed _ _ _ _ _ M1) as (p & -> & Lp).
        rewrite length_append in Hf.
        destruct fuel as [|fuel]; [lia|].
        assert (R : run r (p ++ s1) g
                        (fun s' g' =>
                           (fix loop (fuel : nat) (s : string) (g : groups)
                                {struct fuel} : answer :=
                              match fuel with
                              | O => k s g
                              | S fuel' =>
                                  match run r s g (fun s' g' => loop fuel' s' g') with
                                  | Some a => Some a
                                  | None => k s g
                                  end
                              end) fuel s' g') <> None).
        { apply (IH P _ _ _ _ _ M1). apply (IHM2 eq_refl K). lia. }
        match goal with
        | |- match ?x with _ => _ end <> None =>
            change x with (run r (p ++ s1) g
                        (fun s' g' =>
                           (fix loop (fuel : nat) (s : string) (g : groups)
                                {struct fuel} : answer :=
                              match fuel with
                              | O => k s g
                              | S fuel' =>
                                  match run r s g (fun s' g' => loop fuel' s' g') with
                                  | Some a => Some a
                                  | None => k s g
                                  end
                              end) fuel s' g'))
        end.
        destruct (run r (p ++ s1) g _); [discriminate | contradiction]. }
    apply G. lia.
  - apply andb_true_iff in P. destruct P as [Pm P]. apply Nat.leb_le in Pm.
    cbn [run].
    assert (G : forall fuel, String.length s <= fuel ->
                (fix loop (fuel : nat) (s : string) (g : groups) {struct fuel} : answer :=
                   match fuel with
                   | O => k s g
                   | S fuel' =>
                       match k s g with
                       | Some a => Some a
                       | None => run r s g (fun s' g' => loop fuel' s' g')
                       end
                   end) fuel s g <> None).
    { remember (LazyStar r) as sr eqn:Esr.
      induction M; try discriminate; inversion Esr; subst; intros fuel Hf.
      - destruct fuel as [|fuel]; [exact K|].
        destruct (k s g); [discriminate | contradiction].
      - destruct (Matches_consumed _ _ _ _ _ M1) as (p & -> & Lp).
        rewrite length_append in Hf.
        destruct fuel as [|fuel]; [lia|].
        destruct (k (p ++ s1) g); [discriminate|].
        apply (IH P _ _ _ _ _ M1). apply (IHM2 eq_refl K). lia. }
    apply G. lia.
  - apply Matches_group_inv in M. destruct M as (g0 & M & ->).
    cbn [run]. apply (IH P _ _ _ _ _ M). exact K.
Qed.

Lemma match_at_complete r s rest g :
  productive r = true -> Matches r s [] rest g -> match_at r s <> None.
Proof.
  intros P M. unfold match_at. apply (run_complete r P _ _ _ _ _ M). discriminate.
Qed.

Lemma search_complete r pre :
  forall suffix, match_at r suffix <> None -> search r (pre ++ suffix) <> None.
Proof.
  induction pre as [|c pre IH]; intros suffix H.
  - cbn [append]. destruct suffix; cbn [search];
      destruct (match_at r _) as [[rest g]|]; try discriminate; contradiction.
  - cbn [append search].
    destruct (match_at r (String c (pre ++ suffix))) as [[rest g]|]; [discriminate|].
    apply IH. exact H.
Qed.

Lemma search_sound r :
  forall s m,
    search r s = Some m ->
    exists suffix rest g,
      match_at r suffix = Some (rest, g) /\ m = mk_match suffix rest g.
Proof.
  induction s as [|c s IH]; intros m H; cbn [search] in H.
  - destruct (match_at r "") as [[rest g]|] eqn:E; [|discriminate].
    injection H as <-. eauto.
  - destruct (match_at r (String c s)) as [[rest g]|] eqn:E.
    + injection H as <-. eauto.
    + apply IH. exact H.
Qed.

Lemma match_at_lit t s :
  match_at (Lit t) s
  = if startswith t s then Some (drop (String.length t) s, []) else None.
Proof.
  destruct (startswith t s) eqn:E.
  - destruct (startswith_split t s E) as (post & ->).
    assert (D : drop (String.length t) (t ++ post) = post).
    { clear. induction t as [|c t IH]; [destruct post; reflexivity | exact IH]. }
    rewrite D.
    destruct (match_at (Lit t) (t ++ post)) as [[rest g]|] eqn:M.
    + apply match_at_sound in M. apply Matches_lit_inv in M. destruct M as [M ->].
      f_equal. f_equal.
      clear - M. induction t as [|c t IH]; [symmetry; exact M|].
      cbn [append] in M. injection M as M. exact (IH M).
    + exfalso. revert M. apply (match_at_complete (Lit t) _ post []).
      * clear. induction t as [|c [|c' t] IH]; try reflexivity. exact IH.
      * apply Matches_lit_intro.
  - destruct (match_at (Lit t) s) as [[rest g]|] eqn:M; [|reflexivity].
    apply match_at_sound in M. apply Matches_lit_inv in M. destruct M as [-> _].
    rewrite startswith_append in E. discriminate.
Qed.

(** A substitution whose pattern matches nowhere returns the text. *)
Lemma sub_exn_loop_no_match r repl (starts : string -> bool) :
  (forall s rest g, match_at r s = Some (rest, g) -> starts s = true) ->
  forall s fuel,
    (forall n, starts (drop n s) = false) ->
    sub_exn_loop fuel r repl s = Ok s.
Proof.
  intros Hstart. induction s as [|c s IH]; intros fuel Hno.
  - destruct fuel as [|fuel]; [reflexivity|]. cbn [sub_exn_loop].
    destruct (match_at r "") as [[rest g]|] eqn:E; [|reflexivity].
    apply Hstart in E. pose proof (Hno 0) as N. cbn [drop] in N. congruence.
  - destruct fuel as [|fuel]; [reflexivity|]. cbn [sub_exn_loop].
    destruct (match_at r (String c s)) as [[rest g]|] eqn:E.
    + apply Hstart in E. pose proof (Hno 0) as N. cbn [drop] in N. congruence.
    + rewrite IH; [reflexivity|]. intros n. exact (Hno (S n)).
Qed.

(* ================================================================== *)
(** * The sanitizer: what the tree pass keeps and removes *)
(* ================================================================== *)

(** X1.  The tree pass only removes.  When [_sanitize_element] keeps an
    element, the result has the tag, text and tail of the input and a
    subset of its attributes, and every node of the result is such a
    remnant of a node of the input: nothing is added, renamed or rewritten. *)
Theorem sanitizer_only_removes :
  forall (self : Sanitizer.t) (e e' : element),
    _sanitize_element self e = Some e' ->
    remnant_of e e'
    /\ forall n', In n' (iter e') -> exists n, In n (iter e) /\ remnant_of n n'.
Proof.
  intros self e.
  induction e as [t a x cs tl IHcs] using element_ind'.
  intros e' H. rewrite _sanitize_element_eq in H.
  destruct (negb _); [discriminate|].
  injection H as <-.
  assert (R : remnant_of (Element t a x cs tl)
                (Element t (fold_left (sanitize_attr self (_strip_namespace_from_tag t))
                                      (keys a) a)
                         x (flat_map (keep_sanitized self) cs) tl)).
  { unfold remnant_of. cbn [tag text tail attrib]. repeat split.
    intros [k v] Hin. rewrite in_sanitized_attrs in Hin. tauto. }
  split; [exact R|].
  intros n' Hn'. rewrite iter_eq in Hn'. destruct Hn' as [<-|Hn'].
  - exists (Element t a x cs tl). split; [rewrite iter_eq; left; reflexivity | exact R].
  - apply in_flat_map in Hn'. destruct Hn' as (c' & Hc' & Hn').
    apply in_flat_map in Hc'. destruct Hc' as (c & Hc & Hk).
    unfold keep_sanitized in Hk.
    destruct (_sanitize_element self c) as [c''|] eqn:E; [|contradiction].
    destruct Hk as [<-|[]].
    rewrite Forall_forall in IHcs.
    destruct (IHcs c Hc c'' E) as [_ Hall].
    destruct (Hall n' Hn') as (n & Hn & Rn).
    exists n. split; [|exact Rn].
    rewrite iter_eq. right. apply in_flat_map. eauto.
Qed.

(** Witness for X1: the drawing with a nested script. *)
Lemma sanitizer_only_removes_on_drawing :
  remnant_of (the (MiniXML.fromstring drawing_with_script))
             (the (_sanitize_element Sanitizer.default
                     (the (MiniXML.fromstring drawing_with_script))))
  /\ forall n',
      In n' (iter (the (_sanitize_element Sanitizer.default
                          (the (MiniXML.fromstring drawing_with_script))))) ->
      exists n, In n (iter (the (MiniXML.fromstring drawing_with_script)))
                /\ remnant_of n n'.
Proof.
  apply (sanitizer_only_removes Sanitizer.default).
  vm_compute. reflexivity.
Defined.

Lemma keep_sanitized_disallowed self c :
  mem (_strip_namespace_from_tag (tag c)) (allowed_tags self) = false ->
  keep_sanitized self c = [].
Proof.
  intros H. destruct c as [t a x cs tl]. unfold keep_sanitized.
  rewrite _sanitize_element_eq. cbn [tag] in H. rewrite H. reflexivity.
Qed.

(** X2.  A child whose tag is not allowed is removed together with its
    whole subtree, allowed descendants included: the result is the one
    obtained for the parent without that child, whatever the child holds. *)
Theorem disallowed_child_removed_with_subtree :
  forall (self : Sanitizer.t) (t : string) (a : list (string * string))
         (x tl : string) (before after : list element) (c : element),
    mem (_strip_namespace_from_tag (tag c)) (allowed_tags self) = false ->
    _sanitize_element self (Element t a x (before ++ c :: after) tl)
    = _sanitize_element self (Element t a x (before ++ after) tl).
Proof.
  intros self t a x tl before after c H.
  rewrite !_sanitize_element_eq.
  destruct (negb _); [reflexivity|].
  rewrite !flat_map_app. cbn [flat_map].
  rewrite (keep_sanitized_disallowed self c H). reflexivity.
Qed.

(** Witness for X2: a script holding a rect, between a rect and a circle. *)
Lemma disallowed_child_removed_example :
  _sanitize_element Sanitizer.default
    (Element "g" [] "" ([Element "rect" [] "" [] ""]
                          ++ Element "script" [] "x" [Element "rect" [] "" [] ""] ""
                          :: [Element "circle" [] "" [] ""]) "")
  = _sanitize_element Sanitizer.default
      (Element "g" [] "" ([Element "rect" [] "" [] ""]
                            ++ [Element "circle" [] "" [] ""]) "").
Proof.
  apply (disallowed_child_removed_with_subtree Sanitizer.default).
  vm_compute. reflexivity.
Defined.

Lemma policy_okb_drops self n k v :
  policy_okb self n = true -> In (k, v) (attrib n) ->
  drops self (_strip_namespace_from_tag (tag n)) k = false.
Proof.
  unfold policy_okb. intros H Hin.
  apply andb_true_iff in H. destruct H as [_ H].
  rewrite forallb_forall in H. specialize (H (k, v) Hin). cbn [fst] in H.
  apply andb_true_iff in H. destruct H as [H1 H2].
  apply negb_true_iff in H2.
  unfold drops.
  destruct (mem (_strip_namespace_from_tag k) (prohibited_attrs_global self)).
  - cbn [negb orb] in H1. rewrite H1. cbn [negb andb].
    destruct (has_char ":" k); [|reflexivity].
    cbn [andb] in H2. exact H2.
  - cbn [andb]. destruct (has_char ":" k); [|reflexivity].
    cbn [andb] in H2. exact H2.
Qed.

(** X3.  A tree that already obeys the policy is returned as it is: when
    every node has an allowed tag, no prohibited attribute (apart from [id]
    on a gradient, pattern or stop) and no attribute spelled with the
    prefix [xlink:] and holding [href], [_sanitize_element] returns the
    input tree. *)
Theorem policy_compliant_tree_is_unchanged :
  forall (self : Sanitizer.t) (e : element),
    forallb (policy_okb self) (iter e) = true ->
    _sanitize_element self e = Some e.
Proof.
  intros self e.
  induction e as [t a x cs tl IHcs] using element_ind'.
  intros H. rewrite iter_eq in H. cbn [forallb] in H.
  apply andb_true_iff in H. destruct H as [Hn Hcs].
  rewrite _sanitize_element_eq.
  assert (Ht : mem (_strip_namespace_from_tag t) (allowed_tags self) = true).
  { unfold policy_okb in Hn. apply andb_true_iff in Hn. exact (proj1 Hn). }
  rewrite Ht. cbn [negb]. f_equal. f_equal.
  - apply fold_sanitize_attr_fixed. intros k Hk.
    apply in_keys in Hk. destruct Hk as (v & Hin).
    exact (policy_okb_drops self (Element t a x cs tl) k v Hn Hin).
  - apply flat_map_keep_fixed. rewrite Forall_forall in *.
    intros c Hc. apply IHcs; [exact Hc|].
    rewrite forallb_forall in *. intros n Hin. apply Hcs.
    apply in_flat_map. eauto.
Qed.

(** Witness for X3: a drawing with a referenced pattern. *)
Lemma policy_compliant_tree_is_unchanged_example :
  _sanitize_element Sanitizer.default clean_drawing = Some clean_drawing.
Proof.
  apply (policy_compliant_tree_is_unchanged Sanitizer.default clean_drawing).
  vm_compute. reflexivity.
Defined.

(** X4.  The attribute filter is a deny list: on an element with an allowed
    tag, an attribute whose name is not in the prohibited list and has no
    colon is kept with its value.  Event handlers such as [onclick] are
    attributes of this kind. *)
Theorem unlisted_attributes_survive :
  forall (self : Sanitizer.t) (e : element) (k v : string),
    mem (_strip_namespace_from_tag (tag e)) (allowed_tags self) = true ->
    In (k, v) (attrib e) ->
    mem (_strip_namespace_from_tag k) (prohibited_attrs_global self) = false ->
    has_char ":" k = false ->
    exists e', _sanitize_element self e = Some e' /\ In (k, v) (attrib e').
Proof.
  intros self [t a x cs tl] k v Ht Hin Hk Hc. cbn [tag attrib] in *.
  rewrite _sanitize_element_eq, Ht. cbn [negb].
  eexists. split; [reflexivity|]. cbn [attrib].
  rewrite in_sanitized_attrs. split; [exact Hin|].
  intros [_ D]. unfold drops in D. rewrite Hk, Hc in D. discriminate.
Qed.

(** Witness for X4: an [onclick] handler on a rect. *)
Lemma event_handler_survives :
  exists e', _sanitize_element Sanitizer.default rect_with_handler = Some e'
             /\ In ("onclick", "alert(1)") (attrib e').
Proof.
  apply (unlisted_attributes_survive Sanitizer.default rect_with_handler).
  - reflexivity.
  - left. reflexivity.
  - reflexivity.
  - reflexivity.
Defined.

(** X5.  [_strip_namespace_from_tag] maps a name in Clark notation,
    [{uri}local], to its local part, for every namespace that has no
    closing brace in it. *)
Theorem strip_namespace_of_clark_name :
  forall uri local : string,
    has_char "}" uri = false ->
    _strip_namespace_from_tag (MiniXML.clark uri local) = local.
Proof.
  intros uri local H. unfold _strip_namespace_from_tag, MiniXML.clark.
  change ("{" ++ uri ++ "}" ++ local) with (("{" ++ uri) ++ String "}" local).
  assert (Hb : has_char "}" ("{" ++ uri) = false) by (cbn; exact H).
  rewrite has_char_app. cbn [has_char]. rewrite Ascii.eqb_refl, orb_true_r.
  rewrite (split1_app_sep "}" _ local Hb). reflexivity.
Qed.

(** Witness for X5: a rect in the SVG namespace. *)
Lemma strip_namespace_of_svg_rect :
  _strip_namespace_from_tag (MiniXML.clark "http://www.w3.org/2000/svg" "rect")
  = "rect".
Proof.
  apply (strip_namespace_of_clark_name "http://www.w3.org/2000/svg" "rect").
  vm_compute. reflexivity.
Defined.

(* ================================================================== *)
(** * The sanitizer: the early returns of sanitize_svg_string *)
(* ================================================================== *)

(** X6.  On its three early returns (blank input, nothing but an XML
    declaration, content the parser rejects) [sanitize_svg_string] is
    idempotent: sanitising its result again gives the same text. *)
Theorem sanitize_fallbacks_are_stable :
  forall (fromstring : string -> option element) (tostring : element -> string)
         (self : Sanitizer.t) (x : string),
    is_blank x = true
    \/ is_blank (svg_content_part x) = true
    \/ fromstring (svg_content_part x) = None ->
    sanitize_svg_string fromstring tostring self
      (sanitize_svg_string fromstring tostring self x)
    = sanitize_svg_string fromstring tostring self x.
Proof.
  intros fromstring tostring self x H.
  destruct (is_blank x) eqn:Hb.
  - assert (E : sanitize_svg_string fromstring tostring self x = "").
    { unfold sanitize_svg_string, sanitize_svg_string_run. rewrite Hb. reflexivity. }
    rewrite E. reflexivity.
  - assert (E : sanitize_svg_string fromstring tostring self x = x).
    { unfold sanitize_svg_string, sanitize_svg_string_run. rewrite Hb.
      destruct (is_blank (svg_content_part x)) eqn:Hc; [reflexivity|].
      destruct H as [H|[H|H]]; try congruence. rewrite H. reflexivity. }
    rewrite E. exact E.
Qed.

(** Witness for X6: a document with mismatched tags. *)
Lemma sanitize_fallbacks_are_stable_on_mismatched_tags :
  sanitize_svg_string MiniXML.fromstring MiniXML.tostring Sanitizer.default
    (sanitize_svg_string MiniXML.fromstring MiniXML.tostring Sanitizer.default
       mismatched_tags)
  = sanitize_svg_string MiniXML.fromstring MiniXML.tostring Sanitizer.default
      mismatched_tags.
Proof.
  apply (sanitize_fallbacks_are_stable MiniXML.fromstring MiniXML.tostring
           Sanitizer.default mismatched_tags).
  right. right. vm_compute. reflexivity.
Defined.



(* ================================================================== *)
(** * The sanitizer: path data and the size limit *)
(* ================================================================== *)

Lemma D_ATTR_starts s rest g :
  match_at D_ATTR s = Some (rest, g) -> startswith (q "d=`") s = true.
Proof.
  intros H. apply match_at_sound in H. unfold D_ATTR in H. cbn [Seqs] in H.
  apply Matches_seq_inv in H. destruct H as (s1 & g1 & M1 & _).
  apply Matches_lit_inv in M1. destruct M1 as [-> _].
  apply startswith_append.
Qed.

(** X8.  [simplify_paths] returns the text unchanged, and does not raise,
    when the text has no occurrence of [d=] followed by a double quote:
    numbers outside path data are not touched, at any precision. *)
Theorem simplify_paths_without_path_data :
  forall (svg_str : string) (precision : Z),
    contains (q "d=`") svg_str = false ->
    simplify_paths svg_str precision = Ok svg_str.
Proof.
  intros svg_str precision H. unfold simplify_paths, sub_exn.
  apply (sub_exn_loop_no_match D_ATTR _ (startswith (q "d=`"))).
  - exact D_ATTR_starts.
  - apply contains_false_drop. exact H.
Qed.

(** Witness for X8: a rect with decimals in x and width. *)
Lemma simplify_paths_without_path_data_example :
  simplify_paths rect_without_path 0 = Ok rect_without_path.
Proof.
  apply (simplify_paths_without_path_data rect_without_path 0).
  vm_compute. reflexivity.
Defined.

Lemma digit_is_not_a_sign c s :
  is_digit c = true ->
  match String c s with
  | String "-" s' => (true, s')
  | String "+" s' => (false, s')
  | _ => (false, String c s)
  end = (false, String c s).
Proof.
  destruct c as [[|] [|] [|] [|] [|] [|] [|] [|]]; intros H;
    try reflexivity; vm_compute in H; discriminate.
Qed.

Lemma split1_digits s :
  all_chars is_digit s = true -> split1 "." s = (s, None).
Proof.
  induction s as [|c s IH]; intros H; [reflexivity|].
  cbn [all_chars] in H. apply andb_true_iff in H. destruct H as [Hc Hs].
  cbn [split1].
  destruct (Ascii.eqb_spec c "."); [subst; vm_compute in Hc; discriminate|].
  rewrite (IH Hs). reflexivity.
Qed.

Lemma nearest_overflows n :
  (2 ^ 1024 <= n)%Z -> PyFloat.nearest false n 1 = PyFloat.Infinity false.
Proof.
  intros H.
  assert (P : (0 < 2 ^ 1024)%Z) by (apply Z.pow_pos_nonneg; lia).
  assert (L : (1024 <= Z.log2 n)%Z).
  { replace 1024%Z with (Z.log2 (2 ^ 1024)) by (apply Z.log2_pow2; lia).
    apply Z.log2_le_mono. exact H. }
  unfold PyFloat.nearest.
  destruct (Z.eqb_spec n 0); [lia|].
  change (Z.log2 1) with 0%Z. rewrite Z.sub_0_r.
  destruct (Z.leb_spec 0 (Z.log2 n)); [|lia].
  pose proof (Z.log2_spec n ltac:(lia)) as [S _].
  destruct (Z.leb_spec (1 * 2 ^ Z.log2 n) n); [|lia].
  rewrite Z.max_l by lia.
  destruct (Z.leb_spec 0 (Z.log2 n - 52)); [|lia].
  destruct (_ =? 2 ^ 53)%Z.
  - destruct (Z.ltb_spec 971 (Z.log2 n - 52 + 1)); [reflexivity | lia].
  - destruct (Z.ltb_spec 971 (Z.log2 n - 52)); [reflexivity | lia].
Qed.

Lemma float_of_str_digits ds :
  all_chars is_digit ds = true -> ds <> "" ->
  PyFloat.float_of_str ds = Some (PyFloat.nearest false (digits_value 0 ds) 1).
Proof.
  intros H Hne. destruct ds as [|c s]; [contradiction|].
  pose proof H as H'. cbn [all_chars] in H'. apply andb_true_iff in H'.
  destruct H' as [Hc Hs].
  unfold PyFloat.float_of_str.
  rewrite (digit_is_not_a_sign c s Hc).
  rewrite (split1_digits _ H).
  rewrite PyFloatFacts.all_digits_all_chars, H.
  cbn [PyFloat.all_digits andb String.length Nat.add Nat.eqb negb].
  rewrite append_nil_r. reflexivity.
Qed.

(** X9.  [replace_number] raises OverflowError on a run of digits whose
    value is 2^1024 or more: [float] gives infinity, [round] returns it, and
    [int] of an infinity raises.  The pattern of [simplify_paths] accepts
    such runs, and nothing in [simplify_paths] catches the exception. *)
Theorem replace_number_overflows_on_huge_integers :
  forall (precision : Z) (num_match : match_obj),
    all_chars is_digit (group num_match 0) = true ->
    (2 ^ 1024 <= digits_value 0 (group num_match 0))%Z ->
    replace_number precision num_match = Raise OverflowError.
Proof.
  intros precision num_match Hd Hv.
  assert (Hne : group num_match 0 <> "").
  { intros E. rewrite E in Hv. cbn [digits_value] in Hv.
    assert (P : (0 < 2 ^ 1024)%Z) by (apply Z.pow_pos_nonneg; lia). lia. }
  unfold replace_number.
  rewrite (float_of_str_digits _ Hd Hne), (nearest_overflows _ Hv).
  reflexivity.
Qed.

(** Witness for X9: 2 followed by 308 zeros. *)
Lemma replace_number_overflows_example :
  replace_number 1 (MatchObj huge_integer []) = Raise OverflowError.
Proof.
  apply (replace_number_overflows_on_huge_integers 1 (MatchObj huge_integer [])).
  - vm_compute. reflexivity.
  - apply Z.leb_le. vm_compute. reflexivity.
Defined.

Lemma true_divide_small n :
  (1 <= n < 16384)%Z ->
  PyFloat.float_leb (PyFloat.true_divide n 1024) DEFAULT_MAX_SIZE_KB = (n <=? 10240)%Z.
Proof.
  intros H. unfold PyFloat.true_divide, PyFloat.nearest.
  destruct (Z.eqb_spec n 0); [lia|].
  pose proof (Z.log2_spec n ltac:(lia)) as [Lo Hi].
  pose proof (Z.log2_nonneg n) as L0.
  assert (L : (Z.log2 n < 14)%Z).
  { apply Z.log2_lt_pow2; [lia|]. change (2 ^ 14)%Z with 16384%Z. lia. }
  change (Z.log2 1024) with 10%Z.
  set (l := Z.log2 n) in *.
  assert (G : (if (0 <=? l - 10)%Z then (1024 * 2 ^ (l - 10) <=? n)%Z
               else (1024 <=? n * 2 ^ (- (l - 10)))%Z) = true).
  { destruct (Z.leb_spec 0 (l - 10)); apply Z.leb_le.
    - assert (E : (1024 * 2 ^ (l - 10) = 2 ^ l)%Z).
      { change 1024%Z with (2 ^ 10)%Z. rewrite <- Z.pow_add_r by lia. f_equal. lia. }
      lia.
    - assert (E : (1024 = 2 ^ l * 2 ^ (- (l - 10)))%Z).
      { change 1024%Z with (2 ^ 10)%Z. rewrite <- Z.pow_add_r by lia. f_equal. lia. }
      assert (Q : (0 < 2 ^ (- (l - 10)))%Z) by (apply Z.pow_pos_nonneg; lia).
      rewrite E. apply Z.mul_le_mono_nonneg_r; lia. }
  rewrite G. rewrite Z.max_l by lia.
  replace (l - 10 - 52)%Z with (l - 62)%Z by lia.
  destruct (Z.leb_spec 0 (l - 62)); [lia|].
  set (k := (2 ^ (52 - l))%Z).
  assert (Kpos : (0 < k)%Z) by (apply Z.pow_pos_nonneg; lia).
  assert (E : (2 ^ (- (l - 62)) = k * 1024)%Z).
  { unfold k. change 1024%Z with (2 ^ 10)%Z. rewrite <- Z.pow_add_r by lia.
    f_equal. lia. }
  rewrite E.
  assert (D : PyFloat.div_rhe (n * (k * 1024)) 1024 = (n * k)%Z).
  { unfold PyFloat.div_rhe. rewrite Z.mul_assoc.
    rewrite Z.div_mul by lia. rewrite Z.mod_mul by lia. reflexivity. }
  rewrite D.
  assert (B : (2 ^ 52 <= n * k < 2 ^ 53)%Z).
  { assert (E52 : (2 ^ 52 = 2 ^ l * k)%Z).
    { unfold k. rewrite <- Z.pow_add_r by lia. f_equal. lia. }
    assert (E53 : (2 ^ 53 = 2 ^ Z.succ l * k)%Z).
    { unfold k. rewrite <- Z.pow_add_r by lia. f_equal. lia. }
    rewrite E52, E53. split.
    - apply Z.mul_le_mono_nonneg_r; lia.
    - apply Z.mul_lt_mono_pos_r; lia. }
  assert (P52 : (0 < 2 ^ 52)%Z) by (apply Z.pow_pos_nonneg; lia).
  destruct (Z.eqb_spec (n * k) (2 ^ 53)); [lia|].
  destruct (Z.ltb_spec 971 (l - 62)); [lia|].
  destruct (Z.eqb_spec (n * k) 0); [lia|].
  unfold PyFloat.float_leb, DEFAULT_MAX_SIZE_KB, PyFloat.num_of, PyFloat.den_of.
  change (0 <=? -49)%Z with false.
  destruct (Z.leb_spec 0 (l - 62)); [lia|]. cbv iota.
  change (2 ^ (- -49))%Z with 562949953421312%Z.
  rewrite E.
  set (c := (k * 562949953421312)%Z).
  assert (Cpos : (0 < c)%Z) by (unfold c; lia).
  replace (1 * (n * k) * 562949953421312)%Z with (n * c)%Z by (unfold c; ring).
  replace (1 * 5629499534213120 * (k * 1024))%Z with (10240 * c)%Z by (unfold c; ring).
  destruct (Z.leb_spec (n * c) (10240 * c)); destruct (Z.leb_spec n 10240);
    try reflexivity; exfalso; nia.
Qed.

Lemma div_rhe_ge_quotient a b : (a / b <= PyFloat.div_rhe a b)%Z.
Proof.
  unfold PyFloat.div_rhe.
  destruct (2 * (a mod b) ?= b)%Z; [destruct (Z.even (a / b))| |]; lia.
Qed.

Lemma true_divide_large n :
  (16384 <= n)%Z -> PyFloat.float_leb (PyFloat.true_divide n 1024) DEFAULT_MAX_SIZE_KB = false.
Proof.
  intros H. unfold PyFloat.true_divide, PyFloat.nearest.
  destruct (Z.eqb_spec n 0); [lia|].
  assert (L : (14 <= Z.log2 n)%Z).
  { change 14%Z with (Z.log2 16384). apply Z.log2_le_mono. exact H. }
  pose proof (Z.log2_spec n ltac:(lia)) as [Lo Hi].
  change (Z.log2 1024) with 10%Z.
  set (l := Z.log2 n) in *.
  destruct (Z.leb_spec 0 (l - 10)); [|lia].
  assert (P10 : (1024 * 2 ^ (l - 10) = 2 ^ l)%Z).
  { change 1024%Z with (2 ^ 10)%Z. rewrite <- Z.pow_add_r by lia. f_equal. lia. }
  rewrite P10. destruct (Z.leb_spec (2 ^ l) n); [|lia].
  rewrite Z.max_l by lia.
  replace (l - 10 - 52)%Z with (l - 62)%Z by lia.
  set (m := if (0 <=? l - 62)%Z
            then PyFloat.div_rhe n (1024 * 2 ^ (l - 62))
            else PyFloat.div_rhe (n * 2 ^ (- (l - 62))) 1024).
  assert (Hm : (2 ^ 52 <= m)%Z).
  { unfold m. destruct (Z.leb_spec 0 (l - 62)).
    - eapply Z.le_trans; [|apply div_rhe_ge_quotient].
      assert (E : (1024 * 2 ^ (l - 62) = 2 ^ (l - 52))%Z).
      { change 1024%Z with (2 ^ 10)%Z. rewrite <- Z.pow_add_r by lia. f_equal. lia. }
      rewrite E.
      assert (Q : (0 < 2 ^ (l - 52))%Z) by (apply Z.pow_pos_nonneg; lia).
      apply Z.div_le_lower_bound; [exact Q|].
      rewrite <- Z.pow_add_r by lia.
      replace (l - 52 + 52)%Z with l by lia. exact Lo.
    - eapply Z.le_trans; [|apply div_rhe_ge_quotient].
      apply Z.div_le_lower_bound; [lia|].
      assert (E : (2 ^ 62 = 2 ^ l * 2 ^ (- (l - 62)))%Z).
      { rewrite <- Z.pow_add_r by lia. f_equal. lia. }
      assert (Q : (0 < 2 ^ (- (l - 62)))%Z) by (apply Z.pow_pos_nonneg; lia).
      change (1024 * 2 ^ 52)%Z with (2 ^ 62)%Z.
      rewrite E. apply Z.mul_le_mono_nonneg_r; lia. }
  clearbody m.
  assert (F : forall m' e', (2 ^ 52 <= m')%Z -> (-48 <= e')%Z ->
              PyFloat.float_leb (if (971 <? e')%Z then PyFloat.Infinity false
                  else if (m' =? 0)%Z then PyFloat.Finite false 0 0
                       else PyFloat.Finite false m' e')
                 DEFAULT_MAX_SIZE_KB = false).
  { intros m' e' Hm' He'.
    destruct (971 <? e')%Z; [reflexivity|].
    assert (P52 : (0 < 2 ^ 52)%Z) by (apply Z.pow_pos_nonneg; lia).
    destruct (Z.eqb_spec m' 0); [lia|].
    unfold PyFloat.float_leb, DEFAULT_MAX_SIZE_KB, PyFloat.num_of, PyFloat.den_of.
    change (0 <=? -49)%Z with false. cbv iota.
    change (2 ^ (- -49))%Z with (2 ^ 49)%Z.
    apply Z.leb_gt.
    destruct (Z.leb_spec 0 e').
    - assert (Q : (1 <= 2 ^ e')%Z) by (apply (Z.pow_le_mono_r 2 0 e'); lia).
      assert (R : (2 ^ 52 * 1 <= m' * 2 ^ e')%Z) by (apply Z.mul_le_mono_nonneg; lia).
      change (2 ^ 52)%Z with 4503599627370496%Z in *.
      change (2 ^ 49)%Z with 562949953421312%Z. nia.
    - assert (Q : (2 ^ (- e') <= 2 ^ 48)%Z) by (apply Z.pow_le_mono_r; lia).
      assert (Q0 : (0 < 2 ^ (- e'))%Z) by (apply Z.pow_pos_nonneg; lia).
      change (2 ^ 52)%Z with 4503599627370496%Z in *.
      change (2 ^ 49)%Z with 562949953421312%Z.
      change (2 ^ 48)%Z with 281474976710656%Z in Q. nia. }
  destruct (Z.eqb_spec m (2 ^ 53)).
  - apply F; lia.
  - apply F; lia.
Qed.

(** X10.  With the default limit of 10.0 kilobytes, [validate_size] accepts
    a text exactly when its size is at most MAX_SVG_SIZE_BYTES (10240
    bytes), the budget of the optimizer: the float division by 1024 and the
    float comparison agree with the comparison of the byte counts for every
    size. *)
Theorem validate_size_default_is_the_byte_budget :
  forall svg_str : string,
    fst (validate_size svg_str DEFAULT_MAX_SIZE_KB)
    = Nat.leb (size_bytes svg_str) MAX_SVG_SIZE_BYTES.
Proof.
  intros svg_str. unfold validate_size. cbn [fst].
  set (n := size_bytes svg_str).
  destruct (Z.lt_ge_cases (Z.of_nat n) 16384) as [Hs|Hl].
  - destruct (Z.eq_dec (Z.of_nat n) 0) as [E0|N0].
    + rewrite E0. symmetry. apply Nat.leb_le. lia.
    + rewrite true_divide_small by lia.
      destruct (Z.leb_spec (Z.of_nat n) 10240);
        symmetry; [apply Nat.leb_le | apply Nat.leb_gt];
        unfold MAX_SVG_SIZE_BYTES; lia.
  - rewrite true_divide_large by lia.
    symmetry. apply Nat.leb_gt. unfold MAX_SVG_SIZE_BYTES. lia.
Qed.

(* ================================================================== *)
(** * The pruning pass: what it leaves alone *)
(* ================================================================== *)

Lemma remove_unused_same_node U b e : same_node e (remove_unused U b e).
Proof.
  destruct e as [t a x cs tl]. rewrite remove_unused_eq.
  unfold same_node. cbn. auto.
Qed.

Lemma remove_unused_without_defs U e :
  xpath_defs e = [] -> remove_unused U false e = e.
Proof.
  induction e as [t a x cs tl IHcs] using element_ind'.
  intros H. rewrite remove_unused_eq.
  unfold xpath_defs in H. rewrite iter_eq in H. cbn [filter tag] in H.
  destruct (String.eqb t SVG_DEFS) eqn:Et; [discriminate|].
  cbn [orb andb negb].
  f_equal.
  assert (F : filter (fun _ : element => true) cs = cs).
  { clear. induction cs as [|c cs IH]; [reflexivity|]. cbn. rewrite IH. reflexivity. }
  rewrite F.
  rewrite <- (map_id cs) at 2. apply map_ext_in.
  intros c Hc. rewrite Forall_forall in IHcs. apply IHcs; [exact Hc|].
  unfold xpath_defs.
  destruct (filter (fun e => String.eqb (tag e) SVG_DEFS) (iter c)) as [|d ds] eqn:Ef;
    [reflexivity|].
  exfalso.
  assert (Hd : In d (filter (fun e => String.eqb (tag e) SVG_DEFS)
                            (flat_map iter cs))).
  { apply filter_In.
    assert (Hd' : In d (filter (fun e => String.eqb (tag e) SVG_DEFS) (iter c)))
      by (rewrite Ef; left; reflexivity).
    apply filter_In in Hd'. destruct Hd' as [Hi Ht]. split; [|exact Ht].
    apply in_flat_map. eauto. }
  rewrite H in Hd. contradiction.
Qed.

(** X11.  The pruning pass only removes elements.  The root keeps its tag,
    attributes, text and tail; every node of the pruned tree is a node of
    the input with the same tag, attributes, text and tail; and a tree
    without a [defs] in the SVG namespace is returned as it is. *)
Theorem pruning_only_removes :
  forall tree : element,
    same_node tree (pruned tree)
    /\ (forall n', In n' (iter (pruned tree)) ->
                   exists n, In n (iter tree) /\ same_node n n')
    /\ (xpath_defs tree = [] -> pruned tree = tree).
Proof.
  intros tree. unfold pruned.
  destruct (remove_unused_defs_tree tree) as [cleaned|] eqn:E.
  - apply remove_unused_defs_tree_Some in E. destruct E as [-> _].
    split; [apply remove_unused_same_node|]. split.
    + intros n' Hn'.
      destruct (in_iter_remove_unused _ _ _ _ Hn') as (n & b0 & Hn & ->).
      exists n. split; [exact Hn | apply remove_unused_same_node].
    + intros H. apply remove_unused_without_defs. exact H.
  - split; [unfold same_node; auto|]. split.
    + intros n' Hn'. exists n'. split; [exact Hn' | unfold same_node; auto].
    + reflexivity.
Qed.

(** X12.  [remove_unused_defs] returns its input text, character for
    character, when the text does not parse or when the parsed tree has no
    unused id below a [defs] of the SVG namespace: the document is
    re-serialised only when something is removed. *)
Theorem prune_returns_input_when_nothing_is_unused :
  forall (fromstring : string -> option element) (tostring : element -> string)
         (svg_str : string),
    (forall tree, fromstring svg_str = Some tree -> unused_ids tree = []) ->
    remove_unused_defs fromstring tostring svg_str = svg_str.
Proof.
  intros fromstring tostring svg_str H. unfold remove_unused_defs.
  destruct (fromstring svg_str) as [tree|]; [|reflexivity].
  rewrite (remove_unused_defs_tree_None_intro tree (H tree eq_refl)). reflexivity.
Qed.

(** Witness for X12: a [defs] outside the SVG namespace, with an unused
    gradient. *)
Lemma prune_ignores_defs_without_namespace :
  remove_unused_defs MiniXML.lxml_fromstring MiniXML.lxml_tostring
                     drawing_without_namespace
  = drawing_without_namespace.
Proof.
  apply (prune_returns_input_when_nothing_is_unused
           MiniXML.lxml_fromstring MiniXML.lxml_tostring drawing_without_namespace).
  intros tree H. vm_compute in H. injection H as <-. vm_compute. reflexivity.
Defined.

(* ================================================================== *)
(** * The compliance check: when a text is valid *)
(* ================================================================== *)

Lemma is_valid_flag_if (b : bool) r msg :
  is_valid (if b then flag r msg else r) = is_valid r && negb b.
Proof. destruct b; cbn; [rewrite andb_false_r | rewrite andb_true_r]; reflexivity. Qed.

Lemma is_valid_animation_fold svg tags r :
  is_valid (fold_left
              (fun results tag =>
                 if contains tag (lower svg) then
                   flag results ("SVG contains animation elements (" ++ tag ++ ")")
                 else results) tags r)
  = is_valid r && negb (existsb (fun tag => contains tag (lower svg)) tags).
Proof.
  revert r. induction tags as [|t tags IH]; intros r; cbn [fold_left existsb].
  - cbn. rewrite andb_true_r. reflexivity.
  - rewrite IH, is_valid_flag_if, negb_orb, andb_assoc. reflexivity.
Qed.

Lemma is_valid_check svg_str max_size_bytes :
  is_valid (check_competition_compliance svg_str max_size_bytes)
  = (Z.of_nat (size_bytes svg_str) <=? max_size_bytes)%Z
    && negb (contains "<script" (lower svg_str))
    && negb (contains "xlink:href" svg_str && mentions_external_resource svg_str)
    && negb (existsb (fun tag => contains tag (lower svg_str)) animation_tags).
Proof.
  unfold check_competition_compliance.
  rewrite is_valid_animation_fold, !is_valid_flag_if. cbn [is_valid andb].
  unfold mentions_external_resource.
  rewrite Z.leb_antisym. reflexivity.
Qed.

(** X13.  The report of [check_competition_compliance] is valid exactly
    when the text fits the size limit, its lower-cased form has no
    [<script], it does not hold both [xlink:href] and a marker of an
    external resource, and its lower-cased form has none of the four
    animation tags.  All the comparisons are on the text, not the tree. *)
Theorem check_is_valid_exactly_when :
  forall (svg_str : string) (max_size_bytes : Z),
    is_valid (check_competition_compliance svg_str max_size_bytes) = true
    <-> ((Z.of_nat (size_bytes svg_str) <= max_size_bytes)%Z
         /\ contains "<script" (lower svg_str) = false
         /\ (contains "xlink:href" svg_str = false
             \/ mentions_external_resource svg_str = false)
         /\ forall tag, In tag animation_tags ->
                        contains tag (lower svg_str) = false).
Proof.
  intros svg_str max_size_bytes.
  rewrite is_valid_check, !andb_true_iff, !negb_true_iff, Z.leb_le,
    andb_false_iff.
  assert (A : existsb (fun tag => contains tag (lower svg_str)) animation_tags = false
              <-> forall tag, In tag animation_tags ->
                              contains tag (lower svg_str) = false).
  { split.
    - intros H tag Hin.
      destruct (contains tag (lower svg_str)) eqn:E; [|reflexivity].
      assert (X : existsb (fun tag => contains tag (lower svg_str)) animation_tags = true)
        by (apply existsb_exists; eauto).
      congruence.
    - intros H.
      destruct (existsb _ animation_tags) eqn:E; [|reflexivity].
      apply existsb_exists in E. destruct E as (tag & Hin & Ht).
      rewrite (H tag Hin) in Ht. discriminate. }
  rewrite A. tauto.
Qed.

(** X14.  A text that is valid under a size limit is valid under every
    larger limit. *)
Theorem check_validity_is_monotone_in_the_limit :
  forall (svg_str : string) (small large : Z),
    (small <= large)%Z ->
    is_valid (check_competition_compliance svg_str small) = true ->
    is_valid (check_competition_compliance svg_str large) = true.
Proof.
  intros svg_str small large Hle.
  rewrite !is_valid_check, !andb_true_iff, !Z.leb_le.
  intros [[[H1 H2] H3] H4]. repeat split; auto. lia.
Qed.

(** Witness for X14: an image document, under 100 and 10240 bytes. *)
Lemma check_validity_is_monotone_example :
  is_valid (check_competition_compliance plain_href_image 10240) = true.
Proof.
  apply (check_validity_is_monotone_in_the_limit plain_href_image 100 10240).
  - lia.
  - vm_compute. reflexivity.
Defined.

(* ================================================================== *)
(** * limit_decimal_precision: what is left as written *)
(* ================================================================== *)

Lemma numeric_attr_match_shape s rest g :
  Matches NUMERIC_ATTR s [] rest g ->
  exists name value,
    s = name ++ q "=`" ++ value ++ q "`" ++ rest
    /\ g = [(2, value); (1, name)].
Proof.
  unfold NUMERIC_ATTR. cbn [Seqs]. intros M.
  apply Matches_seq_inv in M. destruct M as (s1 & g1 & M1 & M).
  apply Matches_group_inv in M1. destruct M1 as (g1' & M1 & ->).
  apply Matches_plus_chr_inv in M1. destruct M1 as (-> & name & -> & _ & _).
  rewrite take_consumed in M.
  apply Matches_seq_inv in M. destruct M as (s2 & g2 & M2 & M).
  apply Matches_lit_inv in M2. destruct M2 as [-> ->].
  apply Matches_seq_inv in M. destruct M as (s3 & g3 & M3 & M).
  apply Matches_group_inv in M3. destruct M3 as (g3' & M3 & ->).
  pose proof (Matches_group_free _ _ _ _ _ M3 eq_refl) as ->.
  destruct (Matches_consumed _ _ _ _ _ M3) as (value & -> & _).
  rewrite take_consumed in M.
  apply Matches_lit_inv in M. destruct M as [-> ->].
  exists name, value. split; reflexivity.
Qed.

(** X15.  The callback of [limit_decimal_precision] puts an attribute back
    exactly as it was matched when its name, lower-cased, is opacity,
    fill-opacity or stroke-opacity: for every match of the attribute
    pattern, the replacement is the matched text, at any precision. *)
Theorem opacity_attribute_match_is_kept :
  forall (precision : Z) (s rest : string) (g : groups),
    match_at NUMERIC_ATTR s = Some (rest, g) ->
    mem (lower (group (mk_match s rest g) 1)) opacity_attrs = true ->
    replace_numbers precision (mk_match s rest g)
    = Ok (whole (mk_match s rest g)).
Proof.
  intros precision s rest g Hm Ho.
  apply match_at_sound in Hm.
  destruct (numeric_attr_match_shape s rest g Hm) as (name & value & -> & ->).
  unfold replace_numbers. rewrite Ho. f_equal.
  unfold mk_match, group. cbn [whole captured lookup Nat.eqb].
  replace (name ++ q "=`" ++ value ++ q "`" ++ rest)
    with ((name ++ q "=`" ++ value ++ q "`") ++ rest)
    by (rewrite !append_assoc; reflexivity).
  rewrite take_consumed. reflexivity.
Qed.

(** Witness for X15: a Fill-Opacity attribute holding two decimals. *)
Lemma opacity_attribute_match_is_kept_example :
  replace_numbers 1
    (mk_match opacity_attribute_text (q " x=`1.5`")
              [(2, "0.123 4.56"); (1, "Fill-Opacity")])
  = Ok (whole (mk_match opacity_attribute_text (q " x=`1.5`")
                        [(2, "0.123 4.56"); (1, "Fill-Opacity")])).
Proof.
  apply (opacity_attribute_match_is_kept 1 opacity_attribute_text);
    vm_compute; reflexivity.
Defined.

Lemma NUMERIC_ATTR_needs_quote s rest g :
  match_at NUMERIC_ATTR s = Some (rest, g) -> contains (q "=`") s = true.
Proof.
  intros H. apply match_at_sound in H.
  destruct (numeric_attr_match_shape s rest g H) as (name & value & -> & _).
  apply contains_app.
Qed.

Lemma D_ATTR_needs_quote s rest g :
  match_at D_ATTR s = Some (rest, g) -> contains (q "=`") s = true.
Proof.
  intros H. apply D_ATTR_starts in H.
  destruct (startswith_split _ _ H) as (post & ->).
  exact (contains_app (q "=`") "d" post).
Qed.

(** X16.  [limit_decimal_precision] returns the text unchanged, and does
    not raise, when the text has no equals sign followed by a double quote:
    decimals in attribute values written with single quotes, and in
    character data, are not rounded. *)
Theorem limit_decimal_precision_without_double_quoted_values :
  forall (svg_str : string) (precision : Z),
    contains (q "=`") svg_str = false ->
    limit_decimal_precision svg_str precision = Ok svg_str.
Proof.
  intros svg_str precision H. unfold limit_decimal_precision, sub_exn.
  rewrite (sub_exn_loop_no_match NUMERIC_ATTR _ (contains (q "=`"))
             NUMERIC_ATTR_needs_quote svg_str _ (contains_false_suffix _ _ H)).
  cbn [bind].
  exact (sub_exn_loop_no_match D_ATTR _ (contains (q "=`"))
           D_ATTR_needs_quote svg_str _ (contains_false_suffix _ _ H)).
Qed.

(** Witness for X16: a rect with single-quoted values. *)
Lemma limit_decimal_precision_skips_single_quotes :
  limit_decimal_precision single_quoted_rect 1 = Ok single_quoted_rect.
Proof.
  apply (limit_decimal_precision_without_double_quoted_values single_quoted_rect 1).
  vm_compute. reflexivity.
Defined.

(* ================================================================== *)
(** * ensure_viewbox *)
(* ================================================================== *)

Lemma LENGTH_has_no_quote : class_within (fun c => negb (is_quote c)) LENGTH.
Proof.
  unfold LENGTH. cbn. repeat split; try exact I;
    intros [[|] [|] [|] [|] [|] [|] [|] [|]] H;
    try reflexivity; vm_compute in H; discriminate.
Qed.

Lemma SIZE_ATTR_shape name suffix rest g :
  match_at (SIZE_ATTR name) suffix = Some (rest, g) ->
  exists post v,
    suffix = "<svg" ++ post
    /\ has_char ">" post = true
    /\ g = [(1, v)]
    /\ all_chars (fun c => negb (is_quote c)) v = true.
Proof.
  intros M. apply match_at_sound in M. unfold SIZE_ATTR in M. cbn [Seqs] in M.
  apply Matches_seq_inv in M. destruct M as (s1 & g1 & M1 & M).
  apply Matches_lit_inv in M1. destruct M1 as [-> ->].
  apply Matches_seq_inv in M. destruct M as (s2 & g2 & M2 & M).
  apply Matches_star_chr_inv in M2. destruct M2 as (-> & a & -> & _).
  apply Matches_seq_inv in M. destruct M as (s3 & g3 & M3 & M).
  apply Matches_lit_inv in M3. destruct M3 as [-> ->].
  apply Matches_seq_inv in M. destruct M as (s4 & g4 & M4 & M).
  apply Matches_chr_inv in M4. destruct M4 as (c1 & -> & _ & ->).
  apply Matches_seq_inv in M. destruct M as (s5 & g5 & M5 & M).
  apply Matches_group_inv in M5. destruct M5 as (g5' & M5 & ->).
  pose proof (Matches_group_free _ _ _ _ _ M5 eq_refl) as ->.
  destruct (Matches_consumed_chars _ _ _ _ _ _ M5 LENGTH_has_no_quote)
    as (v & -> & Hv).
  rewrite take_consumed in M.
  apply Matches_seq_inv in M. destruct M as (s6 & g6 & M6 & M).
  apply Matches_chr_inv in M6. destruct M6 as (c2 & -> & _ & ->).
  apply Matches_seq_inv in M. destruct M as (s7 & g7 & M7 & M).
  apply Matches_star_chr_inv in M7. destruct M7 as (-> & b & -> & _).
  apply Matches_lit_inv in M. destruct M as [-> ->].
  eexists _, v. split; [reflexivity|]. split; [|auto].
  apply has_char_app_r. apply has_char_app_r.
  change (has_char ">" (String c1 (v ++ String c2 (b ++ ">" ++ rest))))
    with (Ascii.eqb ">" c1 || has_char ">" (v ++ String c2 (b ++ ">" ++ rest))).
  apply orb_true_iff. right. apply has_char_app_r.
  change (has_char ">" (String c2 (b ++ ">" ++ rest)))
    with (Ascii.eqb ">" c2 || has_char ">" (b ++ ">" ++ rest)).
  apply orb_true_iff. right. apply has_char_app_r. reflexivity.
Qed.

Lemma sub_first_at_tag text post :
  sub_first (Lit "<svg") text ("<svg" ++ post) = text ++ post.
Proof.
  change ("<svg" ++ post) with (String "<" (String "s" (String "v" (String "g" post)))).
  cbn [sub_first]. rewrite match_at_lit. reflexivity.
Qed.

Lemma first_tag_split (W : regex) text :
  (forall suffix rest g,
      match_at W suffix = Some (rest, g) ->
      exists post, suffix = "<svg" ++ post /\ has_char ">" post = true) ->
  forall s,
    search W s <> None ->
    exists pre post,
      s = pre ++ "<svg" ++ post
      /\ sub_first (Lit "<svg") text s = pre ++ text ++ post
      /\ has_char ">" post = true.
Proof.
  intros HW. induction s as [|c s IH]; intros H; cbn [search] in H.
  - destruct (match_at W "") as [[rest g]|] eqn:E; [|contradiction].
    destruct (HW _ _ _ E) as (post & Hs & _). discriminate.
  - destruct (match_at W (String c s)) as [[rest g]|] eqn:E.
    + destruct (HW _ _ _ E) as (post & Hs & Hp).
      exists "", post. rewrite Hs. split; [reflexivity|]. split; [|exact Hp].
      exact (sub_first_at_tag text post).
    + destruct (IH H) as (pre' & post' & Hs & Hsub & Hp).
      destruct (startswith "<svg" (String c s)) eqn:St.
      * destruct (startswith_split _ _ St) as (post & Hpost).
        exists "", post. rewrite Hpost. split; [reflexivity|].
        split; [exact (sub_first_at_tag text post)|].
        change ("<svg" ++ post)
          with (String "<" (String "s" (String "v" (String "g" post)))) in Hpost.
        injection Hpost as _ Hs'.
        assert (G : has_char ">" s = true).
        { rewrite Hs. apply has_char_app_r. apply has_char_app_r. exact Hp. }
        rewrite Hs' in G. exact G.
      * exists (String c pre'), post'. split; [rewrite Hs; reflexivity|].
        split; [|exact Hp].
        cbn [sub_first]. rewrite match_at_lit, St, Hsub. reflexivity.
Qed.

Lemma VIEWBOX_PATTERN_found pre width height post :
  all_chars (fun c => negb (is_quote c)) width = true ->
  all_chars (fun c => negb (is_quote c)) height = true ->
  has_char ">" post = true ->
  search VIEWBOX_PATTERN (pre ++ ("<svg " ++ viewbox_attr width height) ++ post) <> None.
Proof.
  intros Hw Hh Hp.
  destruct (split_at_first ">" post Hp) as (a & b & -> & Ha).
  apply search_complete.
  apply (match_at_complete _ _ b []); [reflexivity|].
  unfold VIEWBOX_PATTERN, viewbox_attr. cbn [Seqs].
  replace (("<svg " ++ q "viewBox=`0 0 " ++ width ++ " " ++ height ++ q "`")
             ++ a ++ String ">" b)
    with ("<svg" ++ " " ++ "viewBox=" ++ String DQ (("0 0 " ++ width ++ " " ++ height)
            ++ String DQ (a ++ ">" ++ b))).
  2:{ cbn [q append Ascii.eqb Bool.eqb BACKTICK DQ].
      repeat (rewrite ?append_assoc; cbn [append]). reflexivity. }
  eapply M_Seq; [apply Matches_lit_intro|].
  eapply M_Seq; [apply (Matches_star_chr_intro _ " "); reflexivity|].
  eapply M_Seq; [apply Matches_lit_intro|].
  eapply M_Seq; [apply M_Chr; reflexivity|].
  eapply M_Seq.
  { apply Matches_star_chr_intro.
    change ("0 0 " ++ width ++ " " ++ height)
      with (String "0" (String " " (String "0" (String " " (width ++ " " ++ height))))).
    cbn [all_chars]. rewrite PyFloatFacts.all_chars_app, Hw.
    cbn [append all_chars]. rewrite Hh. reflexivity. }
  eapply M_Seq; [apply M_Chr; reflexivity|].
  eapply M_Seq; [apply Matches_star_chr_intro; exact Ha|].
  apply Matches_lit_intro.
Qed.

Lemma replace_px_has_no_quote v :
  all_chars (fun c => negb (is_quote c)) v = true ->
  all_chars (fun c => negb (is_quote c)) (replace "px" "" v) = true.
Proof. intros H. unfold replace. apply replace_loop_all_chars. exact H. Qed.

(** What [ensure_viewbox] returns: the input, or the input with the
    attribute put after the first [<svg], which is followed by a [>]. *)
Lemma ensure_viewbox_cases svg_str :
  ensure_viewbox svg_str = svg_str
  \/ exists pre post width height,
      svg_str = pre ++ "<svg" ++ post
      /\ ensure_viewbox svg_str
         = pre ++ ("<svg " ++ viewbox_attr width height) ++ post
      /\ all_chars (fun c => negb (is_quote c)) width = true
      /\ all_chars (fun c => negb (is_quote c)) height = true
      /\ has_char ">" post = true.
Proof.
  unfold ensure_viewbox.
  destruct (search VIEWBOX_PATTERN svg_str); [left; reflexivity|].
  destruct (search (SIZE_ATTR "width") svg_str) as [wm|] eqn:Ew; [|left; reflexivity].
  destruct (search (SIZE_ATTR "height") svg_str) as [hm|] eqn:Eh; [|left; reflexivity].
  right.
  destruct (search_sound _ _ _ Ew) as (sw & rw & gw & Mw & ->).
  destruct (search_sound _ _ _ Eh) as (sh & rh & gh & Mh & ->).
  destruct (SIZE_ATTR_shape _ _ _ _ Mw) as (_ & w & _ & _ & -> & Hw).
  destruct (SIZE_ATTR_shape _ _ _ _ Mh) as (_ & h & _ & _ & -> & Hh).
  unfold mk_match, group. cbn [captured lookup Nat.eqb].
  destruct (first_tag_split (SIZE_ATTR "width")
              ("<svg " ++ viewbox_attr (replace "px" "" w) (replace "px" "" h)))
    with (s := svg_str) as (pre & post & Hs & Hsub & Hp).
  - intros suffix rest g M.
    destruct (SIZE_ATTR_shape _ _ _ _ M) as (post & v & E & Hp & _).
    exists post. auto.
  - rewrite Ew. discriminate.
  - exists pre, post, (replace "px" "" w), (replace "px" "" h).
    split; [exact Hs|]. split; [exact Hsub|].
    split; [apply replace_px_has_no_quote; exact Hw|].
    split; [apply replace_px_has_no_quote; exact Hh | exact Hp].
Qed.

(** X17.  [ensure_viewbox] is idempotent on every text: once it has added a
    viewBox, the text matches the viewBox pattern (also when the first
    [<svg] of the text is not the tag that carries width and height), and
    a second run returns it unchanged. *)
Theorem ensure_viewbox_is_idempotent :
  forall svg_str : string,
    ensure_viewbox (ensure_viewbox svg_str) = ensure_viewbox svg_str.
Proof.
  intros svg_str.
  destruct (ensure_viewbox_cases svg_str)
    as [E|(pre & post & w & h & _ & E & Hw & Hh & Hp)].
  - rewrite E. exact E.
  - rewrite E. unfold ensure_viewbox at 1.
    pose proof (VIEWBOX_PATTERN_found pre w h post Hw Hh Hp) as F.
    destruct (search VIEWBOX_PATTERN _); [reflexivity | contradiction].
Qed.

(** X18.  [ensure_viewbox] changes nothing but one insertion: its result is
    the input, or the input with a viewBox attribute of the form
    0 0 width height put right after the first [<svg] of the text; no
    character of the input is removed or moved. *)
Theorem ensure_viewbox_only_inserts_the_attribute :
  forall svg_str : string,
    ensure_viewbox svg_str = svg_str
    \/ exists pre post width height,
        svg_str = pre ++ "<svg" ++ post
        /\ ensure_viewbox svg_str
           = pre ++ "<svg " ++ viewbox_attr width height ++ post.
Proof.
  intros svg_str.
  destruct (ensure_viewbox_cases svg_str)
    as [E|(pre & post & w & h & Hs & E & _)]; [left; exact E|].
  right. exists pre, post, w, h. split; [exact Hs|].
  rewrite E, !append_assoc. reflexivity.
Qed.

(* ================================================================== *)
(** * The optimizer: control flow of optimize_svg_string *)
(* ================================================================== *)

Lemma optimize_svg_string_run_eq scour svg_string :
  optimize_svg_string_run scour svg_string
  = let l0 := [(INFO, "Starting SVG optimization process...")] in
    if String.eqb svg_string "" then
      Ok ("", (l0 ++ [(WARNING, "Empty SVG string provided for optimization.")])%list)
    else
      current_svg <- initial_optimization scour svg_string ;;
      let current_size_bytes := size_bytes current_svg in
      let l1 := (l0 ++ [(DEBUG, "Size after initial optimization: {current_size_bytes} bytes.")])%list in
      if Nat.ltb MAX_SVG_SIZE_BYTES current_size_bytes then
        let l2 := (l1 ++ [(WARNING, "SVG size ({current_size_bytes} bytes) exceeds max allowed size ({MAX_SVG_SIZE_BYTES} bytes) after initial optimization. Attempting aggressive optimization.")])%list in
        current_svg <- _apply_aggressive_optimization scour current_svg ;;
        let current_size_bytes := size_bytes current_svg in
        let l3 := (l2 ++ [(INFO, "Size after aggressive optimization: {current_size_bytes} bytes.")])%list in
        let l4 := if Nat.ltb MAX_SVG_SIZE_BYTES current_size_bytes
                  then (l3 ++ [CRITICAL_RECORD])%list else l3 in
        Ok (current_svg,
            (l4 ++ [(INFO, "Optimization complete. Final SVG size: {current_size_bytes} bytes.")])%list)
      else
        Ok (current_svg,
            (l1 ++ [(INFO, "Optimization complete. Final SVG size: {current_size_bytes} bytes.")])%list).
Proof. unfold optimize_svg_string_run. reflexivity. Qed.

Lemma optimize_svg_string_eq scour svg_string :
  optimize_svg_string scour svg_string
  = (r <- optimize_svg_string_run scour svg_string ;; Ok (fst r)).
Proof. unfold optimize_svg_string. reflexivity. Qed.

Lemma level_neq (l l' : level) (a b : string) : l <> l' -> (l, a) <> (l', b).
Proof. intros N E. apply N. injection E as E _. exact E. Qed.

(** X19.  Whenever [optimize_svg_string] returns, it has logged the
    CRITICAL record exactly when the text it returns is larger than
    MAX_SVG_SIZE_BYTES: a result within the budget is never reported as an
    overrun, and an overrun is never returned silently. *)
Theorem optimize_reports_budget_overrun_exactly :
  forall (scour : option (bool -> string -> scour_outcome))
         (svg_string out : string) (log : list log_record),
    optimize_svg_string_run scour svg_string = Ok (out, log) ->
    (In CRITICAL_RECORD log <-> MAX_SVG_SIZE_BYTES < size_bytes out).
Proof.
  intros scour svg_string out log H.
  rewrite optimize_svg_string_run_eq in H. cbv zeta in H.
  assert (NI : (INFO : level) <> ERROR) by discriminate.
  assert (ND : (DEBUG : level) <> ERROR) by discriminate.
  assert (NW : (WARNING : level) <> ERROR) by discriminate.
  unfold CRITICAL_RECORD.
  destruct (String.eqb svg_string "").
  - apply Ok_inj in H. injection H as <- <-.
    cbn [size_bytes String.length app In]. split.
    + intros [E|[E|[]]]; exfalso; revert E; apply level_neq; assumption.
    + lia.
  - apply bind_Ok_inv in H. destruct H as (standard & _ & H).
    destruct (Nat.ltb MAX_SVG_SIZE_BYTES (size_bytes standard)) eqn:Ls.
    + apply bind_Ok_inv in H. destruct H as (aggressive & _ & H).
      apply Ok_inj in H.
      destruct (Nat.ltb MAX_SVG_SIZE_BYTES (size_bytes aggressive)) eqn:La;
        injection H as <- <-.
      * apply Nat.ltb_lt in La. split; [intros _; exact La|]. intros _.
        cbn [app In]. do 4 right. left. reflexivity.
      * apply Nat.ltb_ge in La. split; [|lia].
        cbn [app In].
        intros [E|[E|[E|[E|[E|[]]]]]]; exfalso; revert E; apply level_neq; assumption.
    + apply Ok_inj in H. injection H as <- <-.
      apply Nat.ltb_ge in Ls. split; [|lia].
      cbn [app In].
      intros [E|[E|[E|[]]]]; exfalso; revert E; apply level_neq; assumption.
Qed.

(** Witness for X19: the small sample drawing, no Scour. *)
Lemma optimize_reports_no_overrun_on_sample :
  In CRITICAL_RECORD
     (snd (match optimize_svg_string_run None sample_drawing with
           | Ok r => r | Raise _ => ("", []) end))
  <-> MAX_SVG_SIZE_BYTES
      < size_bytes (fst (match optimize_svg_string_run None sample_drawing with
                         | Ok r => r | Raise _ => ("", []) end)).
Proof.
  apply (optimize_reports_budget_overrun_exactly None sample_drawing).
  vm_compute. reflexivity.
Defined.

(** X20.  When the first tier produces a text within the budget,
    [optimize_svg_string] returns that text: the aggressive tier is not
    run. *)
Theorem optimize_within_budget_stops_after_first_tier :
  forall (scour : option (bool -> string -> scour_outcome))
         (svg_string standard : string),
    svg_string <> "" ->
    initial_optimization scour svg_string = Ok standard ->
    size_bytes standard <= MAX_SVG_SIZE_BYTES ->
    optimize_svg_string scour svg_string = Ok standard.
Proof.
  intros scour svg_string standard Hne Hs Ls.
  rewrite optimize_svg_string_eq, optimize_svg_string_run_eq. cbv zeta.
  destruct (String.eqb_spec svg_string ""); [contradiction|].
  rewrite Hs. cbn [bind].
  apply Nat.ltb_ge in Ls. rewrite Ls. reflexivity.
Qed.

(** Witness for X20: the small sample drawing, no Scour. *)
Lemma optimize_within_budget_on_sample :
  optimize_svg_string None sample_drawing
  = Ok (unwrap (initial_optimization None sample_drawing)).
Proof.
  apply (optimize_within_budget_stops_after_first_tier None sample_drawing).
  - discriminate.
  - vm_compute. reflexivity.
  - apply Nat.leb_le. vm_compute. reflexivity.
Defined.

(** X21.  When Scour was imported but its call returns None or raises,
    the first tier is the input itself: the regex fallback is used only
    when Scour is absent, so an input within the budget is returned
    unchanged. *)
Theorem optimize_keeps_input_when_scour_fails :
  forall (scourString : bool -> string -> scour_outcome) (svg_string : string),
    scour_failed (scourString false svg_string) = true ->
    size_bytes svg_string <= MAX_SVG_SIZE_BYTES ->
    optimize_svg_string (Some scourString) svg_string = Ok svg_string.
Proof.
  intros scourString svg_string Hf Ls.
  rewrite optimize_svg_string_eq, optimize_svg_string_run_eq. cbv zeta.
  destruct (String.eqb_spec svg_string "") as [->|Hne]; [reflexivity|].
  unfold initial_optimization, SCOUR_AVAILABLE, _apply_scour.
  destruct (scourString false svg_string) as [s| |].
  - discriminate.
  - cbn [bind]. apply Nat.ltb_ge in Ls. rewrite Ls. reflexivity.
  - cbn [bind]. apply Nat.ltb_ge in Ls. rewrite Ls. reflexivity.
Qed.

(** Witness for X21: a Scour that returns None. *)
Lemma optimize_keeps_sample_when_scour_returns_none :
  optimize_svg_string (Some scour_returns_none) sample_drawing = Ok sample_drawing.
Proof.
  apply (optimize_keeps_input_when_scour_fails scour_returns_none sample_drawing).
  - reflexivity.
  - apply Nat.leb_le. vm_compute. reflexivity.
Defined.

(* ================================================================== *)
(** * The optimizer: rgb colours *)
(* ================================================================== *)

Lemma hex_digits_length_ge fuel :
  forall n acc, String.length acc <= String.length (hex_digits fuel n acc).
Proof.
  induction fuel as [|fuel IH]; intros n acc; cbn [hex_digits]; [lia|].
  destruct (n <? 16)%Z.
  - cbn [String.length]. lia.
  - eapply Nat.le_trans; [|apply IH]. cbn [String.length]. lia.
Qed.

Lemma hex_digits_long k :
  forall fuel n acc,
    k < fuel -> (16 ^ Z.of_nat k <= n)%Z ->
    k + 1 + String.length acc <= String.length (hex_digits fuel n acc).
Proof.
  induction k as [|k IH]; intros fuel n acc Hf Hn.
  - destruct fuel as [|fuel]; [lia|]. cbn [hex_digits].
    destruct (n <? 16)%Z.
    + cbn [String.length]. lia.
    + eapply Nat.le_trans; [|apply hex_digits_length_ge]. cbn [String.length]. lia.
  - destruct fuel as [|fuel]; [lia|]. cbn [hex_digits].
    rewrite Nat2Z.inj_succ, Z.pow_succ_r in Hn by lia.
    assert (P : (0 < 16 ^ Z.of_nat k)%Z) by (apply Z.pow_pos_nonneg; lia).
    destruct (Z.ltb_spec n 16); [lia|].
    eapply Nat.le_trans; [|apply IH].
    + cbn [String.length]. lia.
    + lia.
    + apply Z.div_le_lower_bound; lia.
Qed.

Lemma format_02x_small :
  forallb (fun k => Nat.eqb (String.length (format_02x (Z.of_nat k))) 2) (seq 0 256)
  = true.
Proof. vm_compute. reflexivity. Qed.

Lemma format_02x_width_cases n :
  (0 <= n)%Z ->
  ((n < 256)%Z -> String.length (format_02x n) = 2)
  /\ ((256 <= n)%Z -> 3 <= String.length (format_02x n)).
Proof.
  intros H0. split; intros H.
  - pose proof format_02x_small as F. rewrite forallb_forall in F.
    specialize (F (Z.to_nat n)).
    rewrite Z2Nat.id in F by lia. apply Nat.eqb_eq. apply F.
    apply in_seq. lia.
  - unfold format_02x.
    assert (L : (8 <= Z.log2 n)%Z).
    { change 8%Z with (Z.log2 256). apply Z.log2_le_mono. exact H. }
    pose proof (hex_digits_long 2 (S (Z.to_nat (Z.log2 n))) n "") as B.
    cbn [String.length] in B.
    assert (B' : 3 <= String.length (hex_digits (S (Z.to_nat (Z.log2 n))) n "")).
    { assert (X : 2 < S (Z.to_nat (Z.log2 n))) by lia.
      assert (Y : (16 ^ Z.of_nat 2 <= n)%Z) by (change (16 ^ Z.of_nat 2)%Z with 256%Z; lia).
      specialize (B X Y). lia. }
    remember (hex_digits (S (Z.to_nat (Z.log2 n))) n "") as h eqn:Eh. clear Eh B.
    destruct h as [|c [|c' h]]; cbn [String.length] in *; lia.
Qed.

Lemma rgb_match_shape s rest g :
  Matches RGB s [] rest g ->
  exists d1 d2 d3,
    g = [(3, d3); (2, d2); (1, d1)]
    /\ all_chars is_digit d1 = true
    /\ all_chars is_digit d2 = true
    /\ all_chars is_digit d3 = true.
Proof.
  unfold RGB. cbn [Seqs]. intros M.
  apply Matches_seq_inv in M. destruct M as (s1 & g1 & M1 & M).
  apply Matches_lit_inv in M1. destruct M1 as [-> ->].
  apply Matches_seq_inv in M. destruct M as (s2 & g2 & M2 & M).
  apply Matches_group_inv in M2. destruct M2 as (g2' & M2 & ->).
  apply Matches_plus_chr_inv in M2. destruct M2 as (-> & d1 & -> & D1 & L1).
  rewrite take_consumed in M.
  apply Matches_seq_inv in M. destruct M as (s3 & g3 & M3 & M).
  apply Matches_lit_inv in M3. destruct M3 as [-> ->].
  apply Matches_seq_inv in M. destruct M as (s4 & g4 & M4 & M).
  apply Matches_star_chr_inv in M4. destruct M4 as (-> & w1 & -> & _).
  apply Matches_seq_inv in M. destruct M as (s5 & g5 & M5 & M).
  apply Matches_group_inv in M5. destruct M5 as (g5' & M5 & ->).
  apply Matches_plus_chr_inv in M5. destruct M5 as (-> & d2 & -> & D2 & L2).
  rewrite take_consumed in M.
  apply Matches_seq_inv in M. destruct M as (s6 & g6 & M6 & M).
  apply Matches_lit_inv in M6. destruct M6 as [-> ->].
  apply Matches_seq_inv in M. destruct M as (s7 & g7 & M7 & M).
  apply Matches_star_chr_inv in M7. destruct M7 as (-> & w2 & -> & _).
  apply Matches_seq_inv in M. destruct M as (s8 & g8 & M8 & M).
  apply Matches_group_inv in M8. destruct M8 as (g8' & M8 & ->).
  apply Matches_plus_chr_inv in M8. destruct M8 as (-> & d3 & -> & D3 & L3).
  rewrite take_consumed in M.
  apply Matches_lit_inv in M. destruct M as [-> ->].
  exists d1, d2, d3. auto.
Qed.

(** X22.  For every match of the rgb pattern, the replacement computed by
    the aggressive tier has the seven characters of a #rrggbb colour
    exactly when the three channels are below 256: a larger channel is not
    clamped and yields a longer text. *)
Theorem rgb_to_hex_is_a_colour_iff_channels_fit :
  forall (s rest : string) (g : groups),
    match_at RGB s = Some (rest, g) ->
    (String.length (rgb_to_hex (mk_match s rest g)) = 7
     <-> Forall (fun v => (v < 256)%Z) (channels (mk_match s rest g))).
Proof.
  intros s rest g Hm. apply match_at_sound in Hm.
  destruct (rgb_match_shape s rest g Hm) as (d1 & d2 & d3 & -> & D1 & D2 & D3).
  unfold rgb_to_hex, channels, mk_match, group. cbn [captured lookup Nat.eqb].
  pose proof (digits_value_bounds d1 D1 0%Z) as B1.
  pose proof (digits_value_bounds d2 D2 0%Z) as B2.
  pose proof (digits_value_bounds d3 D3 0%Z) as B3.
  assert (N1 : (0 <= digits_value 0 d1)%Z) by lia.
  assert (N2 : (0 <= digits_value 0 d2)%Z) by lia.
  assert (N3 : (0 <= digits_value 0 d3)%Z) by lia.
  destruct (format_02x_width_cases _ N1) as [S1 L1].
  destruct (format_02x_width_cases _ N2) as [S2 L2].
  destruct (format_02x_width_cases _ N3) as [S3 L3].
  rewrite !length_append. cbn [String.length].
  split.
  - intros E.
    destruct (Z.lt_ge_cases (digits_value 0 d1) 256) as [A1|A1];
      [specialize (S1 A1) | specialize (L1 A1)];
    (destruct (Z.lt_ge_cases (digits_value 0 d2) 256) as [A2|A2];
      [specialize (S2 A2) | specialize (L2 A2)]);
    (destruct (Z.lt_ge_cases (digits_value 0 d3) 256) as [A3|A3];
      [specialize (S3 A3) | specialize (L3 A3)]);
    try lia.
    repeat constructor; assumption.
  - intros F. inversion F as [|? ? A1 F1]; subst.
    inversion F1 as [|? ? A2 F2]; subst.
    inversion F2 as [|? ? A3 F3]; subst.
    rewrite (S1 A1), (S2 A2), (S3 A3). reflexivity.
Qed.

(** Witness for X22: rgb(255, 0,10). *)
Lemma rgb_to_hex_is_a_colour_example :
  String.length (rgb_to_hex (mk_match rgb_text ";" [(3, "10"); (2, "0"); (1, "255")])) = 7
  <-> Forall (fun v => (v < 256)%Z)
             (channels (mk_match rgb_text ";" [(3, "10"); (2, "0"); (1, "255")])).
Proof.
  apply (rgb_to_hex_is_a_colour_iff_channels_fit rgb_text).
  vm_compute. reflexivity.
Defined.

(* ================================================================== *)
(** * The command line: sanitization, then optimization *)
(* ================================================================== *)

Lemma sanitize_svg_string_unparsed fromstring tostring self svg_string :
  is_blank svg_string = false ->
  fromstring (svg_content_part svg_string) = None ->
  sanitize_svg_string fromstring tostring self svg_string = svg_string.
Proof.
  intros Hb Hp. unfold sanitize_svg_string, sanitize_svg_string_run.
  rewrite Hb, Hp. destruct (is_blank (svg_content_part svg_string)); reflexivity.
Qed.

(** X23.  In [main], content that the parser rejects goes to the optimizer
    as it was generated: the text written to the output file is the
    optimizer's result for the raw text, or the raw text itself when the
    optimizer raises.  Nothing is removed from it by the sanitizer. *)
Theorem unparsed_content_reaches_the_optimizer_unsanitized :
  forall (fromstring : string -> option element) (tostring : element -> string)
         (scour : option (bool -> string -> scour_outcome))
         (raw_svg_content : string),
    is_blank raw_svg_content = false ->
    fromstring (svg_content_part raw_svg_content) = None ->
    Cli.main_output fromstring tostring scour raw_svg_content
    = match optimize_svg_string scour raw_svg_content with
      | Ok optimized_svg_content => optimized_svg_content
      | Raise _ => raw_svg_content
      end.
Proof.
  intros fromstring tostring scour raw Hb Hp. unfold Cli.main_output.
  rewrite (sanitize_svg_string_unparsed fromstring tostring _ raw Hb Hp).
  reflexivity.
Qed.

(** Witness for X23: a document with mismatched tags, no Scour. *)
Lemma unparsed_mismatched_tags_reach_the_optimizer :
  Cli.main_output MiniXML.fromstring MiniXML.tostring None mismatched_tags
  = match optimize_svg_string None mismatched_tags with
    | Ok optimized_svg_content => optimized_svg_content
    | Raise _ => mismatched_tags
    end.
Proof.
  apply (unparsed_content_reaches_the_optimizer_unsanitized
           MiniXML.fromstring MiniXML.tostring None mismatched_tags);
    vm_compute; reflexivity.
Defined.
